(** * Verification of the NIFTY SuperTrend scalping bot

    A shallow embedding of the trading decision core of the repository
    (backend/indices.py, the SuperTrend class of backend/server.py and the
    TradingBot class of backend/trading_bot.py) together with the properties
    the specification states about it.

    Numbers.  The Python code computes on [float] and [int].  Prices are
    modelled as exact rationals [Q] (compared with [Qeq], written [==]) and
    counters as [Z]; rounding error of IEEE arithmetic is outside the model.
    A division whose divisor is zero raises [ZeroDivisionError] in Python and
    is modelled as such, never as the total division of [Q]. *)

From Stdlib Require Import ZArith QArith Qabs Qround List Sorted String Ascii Bool Lia Lqa.
Import ListNotations.

Set Implicit Arguments.
Local Open Scope Q_scope.

(** ** Python primitives *)

Module Py.

(** [a if a >= b else b]: binary step of the builtin [max], which keeps the
    first of two equal arguments. *)
Definition max2 (a b : Q) : Q := if Qlt_le_dec a b then b else a.

(** [max(a, b, c)]. *)
Definition max3 (a b c : Q) : Q := max2 (max2 a b) c.

(** [sum(xs)]: left fold starting from 0. *)
Definition sum (xs : list Q) : Q := fold_left Qplus xs 0.

(** [int(x)] on a float: truncation toward zero. *)
Definition int (x : Q) : Z := Z.quot (Qnum x) (Zpos (Qden x)).

(** [round(x)] with one argument: nearest integer, ties to the even one. *)
Definition round (x : Q) : Z :=
  let f := Qfloor x in
  match Qcompare (x - inject_Z f) (1 # 2) with
  | Lt => f
  | Gt => (f + 1)%Z
  | Eq => if Z.even f then f else (f + 1)%Z
  end.

(** [round(x, 2)]: nearest multiple of 1/100, ties to even. *)
Definition round2 (x : Q) : Q := inject_Z (round (x * 100)) / 100.

(** Truthiness of a float: [0.0] is falsy. *)
Definition truthy (x : Q) : bool := negb (Qeq_bool x 0).

(** Truthiness of an optional float: [None] and [0.0] are falsy. *)
Definition truthy_opt (x : option Q) : bool :=
  match x with Some v => truthy v | None => false end.

(** [len(xs)]. *)
Definition len {A : Type} (xs : list A) : Z := Z.of_nat (List.length xs).

(** [xs[-k]] for [k >= 1]; [None] stands for [IndexError]. *)
Definition item_neg {A : Type} (xs : list A) (k : nat) : option A :=
  if (k <=? List.length xs)%nat then nth_error xs (List.length xs - k) else None.

(** [xs[i]] for [i >= 0]; [None] stands for [IndexError]. *)
Definition item {A : Type} (xs : list A) (i : Z) : option A :=
  nth_error xs (Z.to_nat i).

(** [xs[-n:]]: the last [n] elements, or all of [xs] when it is shorter. *)
Definition keep_last {A : Type} (n : nat) (xs : list A) : list A :=
  skipn (List.length xs - n) xs.

(** [range(lo, hi)] for [0 <= lo]. *)
Definition range (lo hi : Z) : list Z :=
  map Z.of_nat (seq (Z.to_nat lo) (Z.to_nat hi - Z.to_nat lo)).

(** The exceptions the modelled code can raise. *)
Inductive exn := ZeroDivisionError | IndexError.

(** Outcome of a call: a returned value or a raised exception. *)
Inductive result (A : Type) :=
| Ok (a : A)
| Raise (e : exn).
Arguments Ok {A} a.
Arguments Raise {A} e.

(** [a / b] on floats. *)
Definition div (a b : Q) : result Q :=
  if Qeq_bool b 0 then Raise ZeroDivisionError else Ok (a / b).

(** [c.upper()] on one ASCII character; other bytes are kept. *)
Definition upper_ascii (c : ascii) : ascii :=
  let n := nat_of_ascii c in
  if (97 <=? n)%nat && (n <=? 122)%nat then ascii_of_nat (n - 32) else c.

(** [s.upper()], on strings of ASCII characters. *)
Fixpoint upper (s : string) : string :=
  match s with
  | EmptyString => EmptyString
  | String c s' => String (upper_ascii c) (upper s')
  end.

(** [d.get(k)] on a dict kept as an association list in insertion order. *)
Fixpoint dict_get {V : Type} (d : list (string * V)) (k : string) : option V :=
  match d with
  | [] => None
  | (k', v) :: d' => if String.eqb k k' then Some v else dict_get d' k
  end.

(** [d.get(k, default)]. *)
Definition dict_get_default {V : Type} (d : list (string * V)) (k : string) (default : V) : V :=
  match dict_get d k with Some v => v | None => default end.

End Py.

(** ** backend/indices.py *)

Module Indices.

Record IndexConfig := mkIndexConfig {
  name : string;
  security_id : Z;
  exchange_segment : string;
  lot_size : Z;
  strike_interval : Z;
  expiry_day : Z;
  trading_symbol : string
}.

Definition NIFTY : IndexConfig :=
  mkIndexConfig "NIFTY 50" 13 "IDX_I" 50 50 1 "NIFTY".
Definition BANKNIFTY : IndexConfig :=
  mkIndexConfig "BANK NIFTY" 25 "IDX_I" 15 100 2 "BANKNIFTY".
Definition SENSEX : IndexConfig :=
  mkIndexConfig "SENSEX" 51 "BSE_INDEX" 10 100 4 "SENSEX".
Definition FINNIFTY : IndexConfig :=
  mkIndexConfig "FINNIFTY" 27 "IDX_I" 25 50 1 "FINNIFTY".
Definition MIDCPNIFTY : IndexConfig :=
  mkIndexConfig "MIDCAP NIFTY" 442 "IDX_I" 50 25 0 "MIDCPNIFTY".

Definition INDICES : list (string * IndexConfig) :=
  [ ("NIFTY"%string, NIFTY); ("BANKNIFTY"%string, BANKNIFTY);
    ("SENSEX"%string, SENSEX); ("FINNIFTY"%string, FINNIFTY);
    ("MIDCPNIFTY"%string, MIDCPNIFTY) ].

(** [INDICES["NIFTY"]]: the key is present, so the subscript cannot raise. *)
Definition INDICES_NIFTY : IndexConfig :=
  Py.dict_get_default INDICES "NIFTY" NIFTY.

Definition get_index_config (index_name : string) : IndexConfig :=
  Py.dict_get_default INDICES (Py.upper index_name) INDICES_NIFTY.

Definition get_available_indices : list string := map fst INDICES.

(** [round(price / interval) * interval]; every configured interval is
    non-zero, so the division cannot raise. *)
Definition round_to_strike (price : Q) (index_name : string) : Z :=
  let config := get_index_config index_name in
  let interval := strike_interval config in
  (Py.round (price / inject_Z interval) * interval)%Z.

End Indices.

(** ** The SuperTrend indicator (class [SuperTrend] of backend/server.py) *)

Module Indicator.

(** One entry of [self.candles]. *)
Record Candle := mkCandle { high : Q; low : Q; close : Q }.

(** One entry of [self.supertrend_values]; [direction] is 1 or -1. *)
Record Band := mkBand { upper : Q; lower : Q; value : Q; direction : Z }.

Inductive Signal := GREEN | RED.

Record SuperTrend := mkSuperTrend {
  period : Z;
  multiplier : Q;
  candles : list Candle;
  atr_values : list Q;
  supertrend_values : list Band;
  self_direction : Z
}.

(** [SuperTrend(period, multiplier)]. *)
Definition init (period : Z) (multiplier : Q) : SuperTrend :=
  mkSuperTrend period multiplier [] [] [] 1.

(** [max(h - l, abs(h - prev_close), abs(l - prev_close))]. *)
Definition true_range (h l prev_close : Q) : Q :=
  Py.max3 (h - l) (Qabs (h - prev_close)) (Qabs (l - prev_close)).

(** The [tr] of the call: the terms against [self.candles[-2]] are 0 when
    the buffer holds a single candle. *)
Definition current_tr (cs : list Candle) (h l : Q) : Q :=
  Py.max3 (h - l)
    (if (1 <? Py.len cs)%Z
     then match Py.item_neg cs 2 with Some p => Qabs (h - close p) | None => 0 end
     else 0)
    (if (1 <? Py.len cs)%Z
     then match Py.item_neg cs 2 with Some p => Qabs (l - close p) | None => 0 end
     else 0).

(** Body of the bootstrap loop for index [i]; the indices of the loop are
    inside the buffer, so the subscripts cannot raise. *)
Definition tr_val (cs : list Candle) (i : Z) : Q :=
  if (0 <? i)%Z then
    match Py.item cs (i - 1), Py.item cs i with
    | Some prev, Some curr => true_range (high curr) (low curr) (close prev)
    | _, _ => 0
    end
  else
    match Py.item cs i with
    | Some curr => high curr - low curr
    | None => 0
    end.

(** The list [trs] built by the bootstrap loop. *)
Definition bootstrap_trs (cs : list Candle) (period : Z) : list Q :=
  map (tr_val cs) (Py.range (Z.max 0 (Py.len cs - period)) (Py.len cs)).

(** [sum(trs) / len(trs) if trs else 0]. *)
Definition bootstrap_atr (trs : list Q) : Q :=
  match trs with
  | [] => 0
  | _ => Py.sum trs / inject_Z (Py.len trs)
  end.

Definition final_lower_band (basic_lower prev_lower prev_close : Q) : Q :=
  if Qlt_le_dec prev_lower basic_lower then basic_lower
  else if Qlt_le_dec prev_close prev_lower then basic_lower
  else prev_lower.

Definition final_upper_band (basic_upper prev_upper prev_close : Q) : Q :=
  if Qlt_le_dec basic_upper prev_upper then basic_upper
  else if Qlt_le_dec prev_upper prev_close then basic_upper
  else prev_upper.

(** The direction of the new entry. *)
Definition next_direction (prev : option Band) (c final_upper final_lower : Q) : Z :=
  match prev with
  | None => if Qlt_le_dec final_upper c then 1 else (-1)
  | Some p =>
      if (direction p =? 1)%Z
      then (if Qlt_le_dec c final_lower then (-1) else 1)
      else (if Qlt_le_dec final_upper c then 1 else (-1))
  end%Z.

(** What [add_candle] returns: [(None, None)] or [(value, signal)]. *)
Definition Output := option (Q * Signal).

(** [add_candle] up to and including [self.supertrend_values.append]; the
    state is returned together with the outcome because the appends made
    before an exception stay in place. *)
Definition add_candle_compute (self : SuperTrend) (h l c : Q)
  : SuperTrend * Py.result Output :=
  let cs := candles self ++ [mkCandle h l c] in
  let self := mkSuperTrend (period self) (multiplier self) cs
                (atr_values self) (supertrend_values self) (self_direction self) in
  if (Py.len cs <? period self)%Z then (self, Py.Ok None) else
  let tr := current_tr cs h l in
  let atr_r :=
    match Py.item_neg (atr_values self) 1 with
    | None => Py.Ok (bootstrap_atr (bootstrap_trs cs (period self)))
    | Some prev_atr =>
        Py.div (prev_atr * inject_Z (period self - 1) + tr) (inject_Z (period self))
    end in
  match atr_r with
  | Py.Raise e => (self, Py.Raise e)
  | Py.Ok atr =>
      let atrs := atr_values self ++ [atr] in
      let self := mkSuperTrend (period self) (multiplier self) cs
                    atrs (supertrend_values self) (self_direction self) in
      let hl2 := (h + l) / 2 in
      let basic_upper := hl2 + multiplier self * atr in
      let basic_lower := hl2 - multiplier self * atr in
      let bands_r :=
        match Py.item_neg (supertrend_values self) 1 with
        | None => Py.Ok (basic_upper, basic_lower)
        | Some prev =>
            match Py.item_neg cs 2 with
            | None => Py.Raise Py.IndexError
            | Some pc =>
                Py.Ok (final_upper_band basic_upper (upper prev) (close pc),
                       final_lower_band basic_lower (lower prev) (close pc))
            end
        end in
      match bands_r with
      | Py.Raise e => (self, Py.Raise e)
      | Py.Ok (final_upper, final_lower) =>
          let dir := next_direction (Py.item_neg (supertrend_values self) 1)
                       c final_upper final_lower in
          let supertrend_value := if (dir =? 1)%Z then final_lower else final_upper in
          let stv := supertrend_values self
                     ++ [mkBand final_upper final_lower supertrend_value dir] in
          let signal := if (dir =? 1)%Z then GREEN else RED in
          (mkSuperTrend (period self) (multiplier self) cs atrs stv dir,
           Py.Ok (Some (supertrend_value, signal)))
      end
  end.

(** [# Keep only last 100 values]. *)
Definition keep_last_100 (self : SuperTrend) : SuperTrend :=
  if (100 <? Py.len (candles self))%Z
  then mkSuperTrend (period self) (multiplier self)
         (Py.keep_last 100 (candles self))
         (Py.keep_last 100 (atr_values self))
         (Py.keep_last 100 (supertrend_values self))
         (self_direction self)
  else self.

(** [SuperTrend.add_candle]: the computation above, then the trim of the
    three buffers, which is reached only when a value is returned. *)
Definition add_candle (self : SuperTrend) (h l c : Q)
  : SuperTrend * Py.result Output :=
  match add_candle_compute self h l c with
  | (self, Py.Ok (Some out)) => (keep_last_100 self, Py.Ok (Some out))
  | other => other
  end.

(** The reference computation of the specification: the same indicator
    with the full history retained (no trim). *)
Definition add_candle_full_history (self : SuperTrend) (h l c : Q)
  : SuperTrend * Py.result Output :=
  add_candle_compute self h l c.

(** Feeding a candle sequence, one call per candle; the caller goes on
    after a failed call, so the state is threaded whatever the outcome. *)
Fixpoint feed (step : SuperTrend -> Q -> Q -> Q -> SuperTrend * Py.result Output)
    (self : SuperTrend) (cs : list Candle) : SuperTrend * list (Py.result Output) :=
  match cs with
  | [] => (self, [])
  | k :: cs' =>
      let '(self1, r) := step self (high k) (low k) (close k) in
      let '(self2, rs) := feed step self1 cs' in
      (self2, r :: rs)
  end.

(** The state after a candle sequence and the outputs it produced. *)
Definition state_after (period : Z) (multiplier : Q) (cs : list Candle) : SuperTrend :=
  fst (feed add_candle (init period multiplier) cs).

Definition outputs (period : Z) (multiplier : Q) (cs : list Candle) : list (Py.result Output) :=
  snd (feed add_candle (init period multiplier) cs).

Definition outputs_full_history (period : Z) (multiplier : Q) (cs : list Candle)
  : list (Py.result Output) :=
  snd (feed add_candle_full_history (init period multiplier) cs).

(** The true ranges of a candle sequence as the specification defines them:
    high - low for the first candle, and against the previous close after. *)
Fixpoint true_ranges_from (prev_close : Q) (cs : list Candle) : list Q :=
  match cs with
  | [] => []
  | k :: cs' => true_range (high k) (low k) prev_close :: true_ranges_from (close k) cs'
  end.

Definition true_ranges (cs : list Candle) : list Q :=
  match cs with
  | [] => []
  | k :: cs' => (high k - low k) :: true_ranges_from (close k) cs'
  end.

(** The ATR the call stores once the warm-up is over. *)
Definition stored_atr (s : SuperTrend) (h l c : Q) : Q :=
  let cs := candles s ++ [mkCandle h l c] in
  match Py.item_neg (atr_values s) 1 with
  | None => bootstrap_atr (bootstrap_trs cs (period s))
  | Some prev_atr =>
      (prev_atr * inject_Z (period s - 1) + current_tr cs h l) / inject_Z (period s)
  end.

(** What the buffers of an indicator of period [p] hold after the candles
    [cs]: the candles themselves during the warm-up; afterwards the latest
    candle, a non-empty ATR history and a buffer that is whole or full. *)
Definition fed (p : Z) (m : Q) (cs : list Candle) (s : SuperTrend) : Prop :=
  period s = p /\ multiplier s = m /\
  ((Py.len cs < p)%Z /\ candles s = cs /\ atr_values s = [] /\ supertrend_values s = []
   \/ (p <= Py.len cs)%Z /\ atr_values s <> [] /\ supertrend_values s <> []
      /\ Py.item_neg (candles s) 1 = Py.item_neg cs 1
      /\ (candles s = cs \/ (100 <= Py.len (candles s))%Z)).

(** The trimmed indicator [t] and the indicator with the full history [f]
    agree on what a call reads: either no trim has happened yet and the
    buffers are equal, or both hold at least 100 candles, a non-empty ATR
    history, and the same latest entries. *)
Definition agree (t f : SuperTrend) : Prop :=
  period t = period f /\ multiplier t = multiplier f /\
  (candles t = candles f /\ atr_values t = atr_values f
     /\ supertrend_values t = supertrend_values f
   \/ (100 <= Py.len (candles t))%Z /\ (100 <= Py.len (candles f))%Z
      /\ atr_values t <> []
      /\ Py.item_neg (candles t) 1 = Py.item_neg (candles f) 1
      /\ Py.item_neg (atr_values t) 1 = Py.item_neg (atr_values f) 1
      /\ Py.item_neg (supertrend_values t) 1 = Py.item_neg (supertrend_values f) 1).

(** A candle whose low is not above its high. *)
Definition ordered (k : Candle) : Prop := low k <= high k.

(** The sizes of the three buffers: no more ATR values or bands than
    candles, at most 100 of each, and at most 100 candles once the warm-up
    is over. *)
Definition bounded (s : SuperTrend) : Prop :=
  (List.length (atr_values s) <= List.length (candles s))%nat
  /\ (List.length (supertrend_values s) <= List.length (candles s))%nat
  /\ (Py.len (candles s) <= Z.max 100 (period s - 1))%Z
  /\ (List.length (atr_values s) <= 100)%nat
  /\ (List.length (supertrend_values s) <= 100)%nat.

End Indicator.

(** ** The trading engine (class [TradingBot] of backend/trading_bot.py)

    trading_bot.py imports three modules that are not among the sources.
    [indicators.SuperTrend] is taken to be the class [SuperTrend] of
    server.py, embedded above.  The helpers of [utils] (market hours, entry
    cut-off, square-off time) and the calls of [dhan_api] (prices, security
    ids, orders) only supply values to the engine, so their answers are
    inputs of each iteration, see [Env].  The two calls to backend/database.py
    are kept as the list of rows they write. *)

Module Bot.

Import Indicator.

(** The [config] dict of backend/config.py, the keys the engine reads. *)
Record Config := mkConfig {
  order_qty : Z;
  max_trades_per_day : Z;
  daily_max_loss : Q;
  trail_start_profit : Q;
  trail_step : Q;
  supertrend_period : Z;
  supertrend_multiplier : Q;
  candle_interval : Z;
  selected_index : string
}.

(** The defaults of backend/config.py. *)
Definition default_config : Config :=
  mkConfig 1 5 2000 10 5 7 4 5 "NIFTY".

Inductive Mode := Paper | Live.
Inductive OptionType := CE | PE.

(** The security id strings the engine handles: the empty string, a
    simulated id ["SIM_..."], or the decimal id of a listed contract (the
    source applies [int] to every id that is not simulated). *)
Inductive SecurityId := SecNone | SecSim | SecBroker (n : Z).

(** The [current_position] dict. *)
Record Position := mkPosition {
  trade_id : string;
  option_type : OptionType;
  strike : Z;
  expiry : string;
  pos_security_id : SecurityId;
  index_name : string;
  entry_time : string
}.

Inductive ExitReason := ForceSquareOff | TrailingSLHit | SuperTrendReversal.

(** The calls made to the trade store (backend/database.py): [save_trade]
    inserts a row, [update_trade_exit] fills in its exit. *)
Inductive Event :=
| Entered (p : Position) (price : Q) (qty : Z)
| Exited (id : string) (exit_price pnl : Q) (reason : ExitReason).

(** The attributes of the [TradingBot] instance. *)
Record TradingBot := mkTradingBot {
  dhan : bool;
  current_position : option Position;
  entry_price : Q;
  trailing_sl : option Q;
  highest_profit : Q;
  supertrend : SuperTrend;
  last_exit_candle_time : option Q
}.

(** The [bot_state] dict of backend/config.py. *)
Record BotState := mkBotState {
  mode : Mode;
  bs_current_position : option Position;
  daily_trades : Z;
  daily_pnl : Q;
  daily_max_loss_triggered : bool;
  last_supertrend_signal : option Signal;
  index_ltp : Q;
  supertrend_value : Q;
  bs_trailing_sl : option Q;
  bs_entry_price : Q;
  current_option_ltp : Q;
  max_drawdown : Q
}.

(** The local variables of [run_loop]; [None] in [candle_low] is
    [float('inf')]. *)
Record LoopVars := mkLoopVars {
  candle_start_time : Q;
  candle_high : Q;
  candle_low : option Q;
  candle_close : Q
}.

(** Everything the engine reads and writes; [store] lists the calls to the
    trade store, the most recent first. *)
Record World := mkWorld {
  self : TradingBot;
  bot_state : BotState;
  loop : LoopVars;
  store : list Event
}.

(** The dict returned by [place_order], the keys the engine reads. *)
Record OrderResult := mkOrderResult {
  has_order_id : bool;      (* result.get('orderId') is truthy *)
  status_success : bool;    (* result.get('status') == 'success' *)
  price : Q;                (* result.get('price', 0) *)
  average_price : Q         (* result.get('averagePrice', 0) *)
}.

(** What the environment answers during one iteration of the loop: the
    clock, the helpers of [utils], the broker and the random generator. *)
Record Env := mkEnv {
  ist_hour : Z;                       (* get_ist_time().hour *)
  ist_minute : Z;                     (* get_ist_time().minute *)
  should_force_squareoff : bool;      (* should_force_squareoff() *)
  is_market_open : bool;              (* is_market_open() *)
  can_take_new_trade : bool;          (* can_take_new_trade() *)
  sell_order : OrderResult;           (* place_order(security_id, "SELL", qty) *)
  fetched_index_ltp : Q;              (* the index price of the broker *)
  fetched_option_ltp : Q;             (* the option price of the broker *)
  now_elapsed : Q;                    (* datetime.now() read for elapsed *)
  now_candle : Q;                     (* datetime.now() read for current_candle_time *)
  now_reset : Q;                      (* datetime.now() read for candle_start_time *)
  tick_movement : Q;                  (* random.choice([...]) *)
  new_trade_id : string;              (* the trade id built from the clock *)
  new_entry_time : string;            (* datetime.now(timezone.utc).isoformat() *)
  nearest_expiry : option string;     (* get_nearest_expiry(index_name) *)
  fallback_expiry : string;           (* the expiry computed from the weekday *)
  atm_security_id : option SecurityId; (* get_atm_option_security_id; None: it raised *)
  entry_option_ltp : option Q;        (* get_option_ltp at entry; None: it raised *)
  buy_order : OrderResult             (* place_order(security_id, "BUY", qty) *)
}.

(** *** Field updates *)

Definition with_self (f : TradingBot -> TradingBot) (w : World) : World :=
  mkWorld (f (self w)) (bot_state w) (loop w) (store w).
Definition with_bot_state (f : BotState -> BotState) (w : World) : World :=
  mkWorld (self w) (f (bot_state w)) (loop w) (store w).
Definition with_loop (f : LoopVars -> LoopVars) (w : World) : World :=
  mkWorld (self w) (bot_state w) (f (loop w)) (store w).
Definition record (e : Event) (w : World) : World :=
  mkWorld (self w) (bot_state w) (loop w) (e :: store w).

Definition set_highest_profit (v : Q) (b : TradingBot) : TradingBot :=
  mkTradingBot (dhan b) (current_position b) (entry_price b) (trailing_sl b) v
    (supertrend b) (last_exit_candle_time b).
Definition set_trailing_sl (v : option Q) (b : TradingBot) : TradingBot :=
  mkTradingBot (dhan b) (current_position b) (entry_price b) v (highest_profit b)
    (supertrend b) (last_exit_candle_time b).
Definition set_supertrend (v : SuperTrend) (b : TradingBot) : TradingBot :=
  mkTradingBot (dhan b) (current_position b) (entry_price b) (trailing_sl b)
    (highest_profit b) v (last_exit_candle_time b).
Definition set_last_exit_candle_time (v : option Q) (b : TradingBot) : TradingBot :=
  mkTradingBot (dhan b) (current_position b) (entry_price b) (trailing_sl b)
    (highest_profit b) (supertrend b) v.
(** The four assignments that open or clear the position slot. *)
Definition set_position (p : option Position) (e : Q) (b : TradingBot) : TradingBot :=
  mkTradingBot (dhan b) p e None 0 (supertrend b) (last_exit_candle_time b).

Definition set_bs_trailing_sl (v : option Q) (s : BotState) : BotState :=
  mkBotState (mode s) (bs_current_position s) (daily_trades s) (daily_pnl s)
    (daily_max_loss_triggered s) (last_supertrend_signal s) (index_ltp s)
    (supertrend_value s) v (bs_entry_price s) (current_option_ltp s) (max_drawdown s).
Definition set_index_ltp (v : Q) (s : BotState) : BotState :=
  mkBotState (mode s) (bs_current_position s) (daily_trades s) (daily_pnl s)
    (daily_max_loss_triggered s) (last_supertrend_signal s) v
    (supertrend_value s) (bs_trailing_sl s) (bs_entry_price s) (current_option_ltp s)
    (max_drawdown s).
Definition set_current_option_ltp (v : Q) (s : BotState) : BotState :=
  mkBotState (mode s) (bs_current_position s) (daily_trades s) (daily_pnl s)
    (daily_max_loss_triggered s) (last_supertrend_signal s) (index_ltp s)
    (supertrend_value s) (bs_trailing_sl s) (bs_entry_price s) v (max_drawdown s).
Definition set_signal (v : Q) (sg : Signal) (s : BotState) : BotState :=
  mkBotState (mode s) (bs_current_position s) (daily_trades s) (daily_pnl s)
    (daily_max_loss_triggered s) (Some sg) (index_ltp s)
    v (bs_trailing_sl s) (bs_entry_price s) (current_option_ltp s) (max_drawdown s).

(** *** Exceptions and state *)

Definition M (A : Type) : Type := World -> World * Py.result A.

Definition ret {A : Type} (a : A) : M A := fun w => (w, Py.Ok a).

Definition bind {A B : Type} (m : M A) (k : A -> M B) : M B :=
  fun w =>
    match m w with
    | (w', Py.Ok a) => k a w'
    | (w', Py.Raise e) => (w', Py.Raise e)
    end.

(** A step that cannot raise. *)
Definition lift (f : World -> World) : M unit := fun w => (f w, Py.Ok tt).


Notation "x <- m ;; k" := (bind m (fun x => k))
  (at level 61, m at next level, right associativity).

Section Engine.

Variable cfg : Config.

(** [config['order_qty'] * index_config['lot_size']]. *)
Definition qty : Z :=
  (order_qty cfg * Indices.lot_size (Indices.get_index_config (selected_index cfg)))%Z.

(** [round(round(x / 0.05) * 0.05, 2)]: a price on the 0.05 tick grid. *)
Definition to_tick (x : Q) : Q :=
  Py.round2 (inject_Z (Py.round (x / (1 # 20))) * (1 # 20)).

(** [TradingBot.close_position]. *)
Definition close_position (exit_price pnl : Q) (reason : ExitReason) (w : World) : World :=
  match current_position (self w) with
  | None => w
  | Some p =>
      let w := record (Exited (trade_id p) exit_price pnl reason) w in
      let bs := bot_state w in
      let total := daily_pnl bs + pnl in
      let triggered :=
        if Qlt_le_dec total (- daily_max_loss cfg) then true
        else daily_max_loss_triggered bs in
      let drawdown :=
        if Qlt_le_dec pnl 0 then
          if Qlt_le_dec (max_drawdown bs) (Qabs pnl) then Qabs pnl else max_drawdown bs
        else max_drawdown bs in
      mkWorld (set_position None 0 (self w))
        (mkBotState (mode bs) None (daily_trades bs) total triggered
           (last_supertrend_signal bs) (index_ltp bs) (supertrend_value bs)
           None 0 (current_option_ltp bs) drawdown)
        (loop w) (store w)
  end.

(** [result.get('orderId') or result.get('status') == 'success']. *)
Definition order_accepted (r : OrderResult) : bool :=
  has_order_id r || status_success r.

(** [TradingBot.squareoff]; the returned status message is left out. *)
Definition squareoff (env : Env) (w : World) : World :=
  match current_position (self w) with
  | None => w
  | Some _ =>
      let exit_price := current_option_ltp (bot_state w) in
      let pnl := (exit_price - entry_price (self w)) * inject_Z qty in
      match mode (bot_state w) with
      | Paper => close_position exit_price pnl ForceSquareOff w
      | Live =>
          if dhan (self w) && order_accepted (sell_order env)
          then close_position exit_price pnl ForceSquareOff w
          else w
      end
  end.

(** [TradingBot.check_trailing_sl]. *)
Definition check_trailing_sl (current_ltp : Q) : M unit := fun w =>
  match current_position (self w) with
  | None => (w, Py.Ok tt)
  | Some _ =>
      let profit_points := current_ltp - entry_price (self w) in
      let w :=
        if Qlt_le_dec (highest_profit (self w)) profit_points
        then with_self (set_highest_profit profit_points) w
        else w in
      if Qlt_le_dec profit_points (trail_start_profit cfg) then (w, Py.Ok tt)
      else
        match Py.div (highest_profit (self w) - trail_start_profit cfg) (trail_step cfg) with
        | Py.Raise e => (w, Py.Raise e)
        | Py.Ok levels =>
            let trail_levels := Py.int levels in
            let new_sl := entry_price (self w) + inject_Z trail_levels * trail_step cfg in
            let higher :=
              match trailing_sl (self w) with
              | None => true
              | Some sl => if Qlt_le_dec sl new_sl then true else false
              end in
            if higher
            then (with_bot_state (set_bs_trailing_sl (Some new_sl))
                    (with_self (set_trailing_sl (Some new_sl)) w), Py.Ok tt)
            else (w, Py.Ok tt)
        end
  end.

(** [self.trailing_sl and current_ltp <= self.trailing_sl]. *)
Definition sl_breached (current_ltp : Q) (w : World) : bool :=
  match trailing_sl (self w) with
  | None => false
  | Some sl => Py.truthy sl && (if Qlt_le_dec sl current_ltp then false else true)
  end.

(** [TradingBot.check_trailing_sl_on_close]. *)
Definition check_trailing_sl_on_close (current_ltp : Q) : M bool := fun w =>
  match current_position (self w) with
  | None => (w, Py.Ok false)
  | Some _ =>
      (_ <- check_trailing_sl current_ltp ;;
       fun w =>
         if sl_breached current_ltp w then
           let pnl := (current_ltp - entry_price (self w)) * inject_Z qty in
           (close_position current_ltp pnl TrailingSLHit w, Py.Ok true)
         else (w, Py.Ok false)) w
  end.

(** The paper price of an option: intrinsic value plus a time value that
    decays with the distance from the strike. *)
Definition paper_price (index_price : Q) (strike : Z) (ot : OptionType) : Q :=
  let distance := Qabs (index_price - inject_Z strike) in
  let intrinsic :=
    match ot with
    | CE => Py.max2 0 (index_price - inject_Z strike)
    | PE => Py.max2 0 (inject_Z strike - index_price)
    end in
  let time_value := 150 * Py.max2 0 (1 - distance / 500) in
  intrinsic + time_value.

(** [result.get('price', 0) or result.get('averagePrice', 0)]. *)
Definition filled_price (r : OrderResult) : Q :=
  if Py.truthy (price r) then price r else average_price r.

(** [TradingBot.enter_position]. *)
Definition enter_position (env : Env) (ot : OptionType) (strike : Z) (index_price : Q)
    (w : World) : World :=
  let has_dhan := dhan (self w) in
  let expiry :=
    match (if has_dhan then nearest_expiry env else None) with
    | Some e => if String.eqb e EmptyString then fallback_expiry env else e
    | None => fallback_expiry env
    end in
  (* the block under [try]: an exception leaves what was assigned so far *)
  let security_id :=
    if has_dhan then
      match atm_security_id env with Some sid => sid | None => SecNone end
    else SecNone in
  let entry_price0 :=
    if has_dhan then
      match security_id, entry_option_ltp env with
      | SecNone, _ => 0
      | _, Some ltp => if Qlt_le_dec 0 ltp then to_tick ltp else 0
      | _, None => 0
      end
    else 0 in
  let opened (security_id : SecurityId) (entry : Q) : World :=
    let p := mkPosition (new_trade_id env) ot strike expiry security_id
               (selected_index cfg) (new_entry_time env) in
    let bs := bot_state w in
    record (Entered p entry qty)
      (mkWorld (set_position (Some p) entry (self w))
         (mkBotState (mode bs) (Some p) (daily_trades bs + 1)%Z (daily_pnl bs)
            (daily_max_loss_triggered bs) (last_supertrend_signal bs) (index_ltp bs)
            (supertrend_value bs) (bs_trailing_sl bs) entry entry (max_drawdown bs))
         (loop w) (store w)) in
  match mode (bot_state w) with
  | Paper =>
      let security_id := match security_id with SecNone => SecSim | sid => sid end in
      let entry :=
        if Qlt_le_dec 0 entry_price0 then entry_price0
        else to_tick (paper_price index_price strike ot) in
      opened security_id entry
  | Live =>
      if negb has_dhan then w
      else
        match security_id with
        | SecNone => w
        | _ =>
            if negb (order_accepted (buy_order env)) then w
            else
              let filled := filled_price (buy_order env) in
              opened security_id (if Qlt_le_dec 0 filled then filled else entry_price0)
        end
  end.

(** [TradingBot.process_signal_on_close]; returns [exited]. *)
Definition process_signal_on_close (env : Env) (signal : Signal) (index_price : Q)
    (w : World) : World * bool :=
  let reversal (w : World) : World * bool :=
    let exit_price := current_option_ltp (bot_state w) in
    let pnl := (exit_price - entry_price (self w)) * inject_Z qty in
    (close_position exit_price pnl SuperTrendReversal w, true) in
  match current_position (self w) with
  | Some p =>
      match option_type p, signal with
      | CE, RED => reversal w
      | PE, GREEN => reversal w
      | _, _ => (w, false)
      end
  | None =>
      if negb (can_take_new_trade env) then (w, false)
      else if (max_trades_per_day cfg <=? daily_trades (bot_state w))%Z then (w, false)
      else
        let ot := match signal with RED => PE | GREEN => CE end in
        let atm_strike := Indices.round_to_strike index_price (selected_index cfg) in
        (enter_position env ot atm_strike index_price w, false)
  end.

(** *** One iteration of [run_loop], block by block *)

(** [ist.hour == 9 and ist.minute == 15]. *)
Definition at_daily_reset (env : Env) : bool :=
  (ist_hour env =? 9)%Z && (ist_minute env =? 15)%Z.

(** [# Check daily reset (9:15 AM IST)]. *)
Definition daily_reset (env : Env) (w : World) : World :=
  if at_daily_reset env then
    let bs := bot_state w in
    mkWorld (set_last_exit_candle_time None (self w))
      (mkBotState (mode bs) (bs_current_position bs) 0 0 false
         (last_supertrend_signal bs) (index_ltp bs) (supertrend_value bs)
         (bs_trailing_sl bs) (bs_entry_price bs) (current_option_ltp bs) 0)
      (loop w) (store w)
  else w.

(** [# Force square-off at 3:25 PM]. *)
Definition force_squareoff (env : Env) (w : World) : World :=
  if should_force_squareoff env then
    match current_position (self w) with
    | Some _ => squareoff env w
    | None => w
    end
  else w.

(** [# Fetch market data] and [# Update candle data]. *)
Definition fetch_market_data (env : Env) (w : World) : World :=
  if dhan (self w) then
    let option_security_id :=
      match current_position (self w) with
      | Some p =>
          match pos_security_id p with
          | SecBroker n => if (n =? 0)%Z then None else Some n
          | _ => None
          end
      | None => None
      end in
    let store_index (w : World) : World :=
      if Qlt_le_dec 0 (fetched_index_ltp env)
      then with_bot_state (set_index_ltp (fetched_index_ltp env)) w
      else w in
    let w :=
      match option_security_id with
      | Some _ =>
          let w := store_index w in
          if Qlt_le_dec 0 (fetched_option_ltp env)
          then with_bot_state (set_current_option_ltp (to_tick (fetched_option_ltp env))) w
          else w
      | None => store_index w
      end in
    let ltp := index_ltp (bot_state w) in
    if Qlt_le_dec 0 ltp then
      let lv := loop w in
      let h := if Qlt_le_dec (candle_high lv) ltp then ltp else candle_high lv in
      let l :=
        match candle_low lv with
        | None => Some ltp
        | Some low => if Qlt_le_dec ltp low then Some ltp else Some low
        end in
      with_loop (fun _ => mkLoopVars (candle_start_time lv) h l ltp) w
    else w
  else w.

(** [# Check trailing SL on candle close], at candle time [now]. *)
Definition trailing_check (now : Q) : M unit := fun w =>
  match current_position (self w) with
  | Some _ =>
      (sl_hit <- check_trailing_sl_on_close (current_option_ltp (bot_state w)) ;;
       if sl_hit : bool
       then lift (with_self (set_last_exit_candle_time (Some now)))
       else ret tt) w
  | None => (w, Py.Ok tt)
  end.

(** [# Trading logic]: the cool-down test, then the signal. *)
Definition trading_logic (env : Env) (now : Q) (signal : Signal) (c : Q)
  : M unit := fun w =>
  let can_trade :=
    match last_exit_candle_time (self w) with
    | Some exit_time =>
        if Qlt_le_dec (now - exit_time) (inject_Z (candle_interval cfg))
        then false else true
    | None => true
    end in
  if can_trade then
    let '(w, exited) := process_signal_on_close env signal c w in
    (if exited : bool then with_self (set_last_exit_candle_time (Some now)) w else w,
     Py.Ok tt)
  else (w, Py.Ok tt).

(** The body of [if st_value and signal:], at candle time [now]. *)
Definition on_signal (env : Env) (now : Q) (st_value : Q) (signal : Signal) (c : Q)
  : M unit :=
  _ <- lift (with_bot_state (set_signal st_value signal)) ;;
  _ <- trailing_check now ;;
  trading_logic env now signal c.

(** The body of [if high > 0 and low < float('inf'):]. *)
Definition on_candle (env : Env) (now : Q) (h l c : Q) : M unit := fun w =>
  let '(st, r) := add_candle (supertrend (self w)) h l c in
  let w := with_self (set_supertrend st) w in
  match r with
  | Py.Raise e => (w, Py.Raise e)
  | Py.Ok None => (w, Py.Ok tt)
  | Py.Ok (Some (st_value, signal)) =>
      if Py.truthy st_value then on_signal env now st_value signal c w
      else (w, Py.Ok tt)
  end.

(** [elapsed >= config['candle_interval']]. *)
Definition boundary_crossed (env : Env) (w : World) : bool :=
  if Qlt_le_dec (now_elapsed env - candle_start_time (loop w))
       (inject_Z (candle_interval cfg))
  then false else true.

(** [# Check if candle is complete]. *)
Definition candle_block (env : Env) : M unit := fun w =>
  if boundary_crossed env w then
    let current_candle_time := now_candle env in
    let lv := loop w in
    (_ <- match candle_low lv with
          | Some l =>
              if Qlt_le_dec 0 (candle_high lv)
              then on_candle env current_candle_time (candle_high lv) l (candle_close lv)
              else ret tt
          | None => ret tt
          end ;;
     (* Reset candle *)
     lift (with_loop (fun _ => mkLoopVars (now_reset env) 0 None 0))) w
  else (w, Py.Ok tt).

(** [# Handle paper mode simulation]. *)
Definition simulate_paper_ltp (env : Env) (w : World) : World :=
  match current_position (self w) with
  | Some p =>
      match pos_security_id p with
      | SecSim =>
          let ltp := index_ltp (bot_state w) in
          if negb (strike p =? 0)%Z && Py.truthy ltp then
            let simulated := paper_price ltp (strike p) (option_type p) + tick_movement env in
            with_bot_state
              (set_current_option_ltp (Py.max2 (1 # 20) (to_tick simulated))) w
          else w
      | _ => w
      end
  | None => w
  end.

(** The body of [while self.running:] under [try]; the two [continue]
    statements end the iteration early. *)
Definition run_loop_body (env : Env) : M unit := fun w =>
  let w := daily_reset env w in
  let w := force_squareoff env w in
  if negb (is_market_open env) then (w, Py.Ok tt)
  else if daily_max_loss_triggered (bot_state w) then (w, Py.Ok tt)
  else
    let w := fetch_market_data env w in
    (_ <- candle_block env ;; lift (simulate_paper_ltp env)) w.

(** One iteration of the loop: an exception is caught and logged at the end
    of the body, and the state reached when it was raised stays. *)
Definition run_loop_iteration (env : Env) (w : World) : World :=
  fst (run_loop_body env w).

(** The loop over the answers of the environment, one per iteration. *)
Definition run_loop (envs : list Env) (w : World) : World :=
  fold_left (fun w env => run_loop_iteration env w) envs w.

(** The bot when [run_loop] starts: [TradingBot()] after [start()], the
    initial [bot_state], an empty candle and an empty trade store. *)
Definition initial (m : Mode) (start_time : Q) : World :=
  mkWorld
    (mkTradingBot true None 0 None 0
       (init (supertrend_period cfg) (supertrend_multiplier cfg)) None)
    (mkBotState m None 0 0 false None 0 0 None 0 0 0)
    (mkLoopVars start_time 0 None 0)
    [].

(** What can happen to the bot: an iteration of the loop, or the square-off
    request of the API. *)
Inductive reachable (m : Mode) (start_time : Q) : World -> Prop :=
| reach_initial : reachable m start_time (initial m start_time)
| reach_iteration env w :
    reachable m start_time w -> reachable m start_time (run_loop_iteration env w)
| reach_squareoff env w :
    reachable m start_time w -> reachable m start_time (squareoff env w).

(** The trailing stop after each of a sequence of calls to
    [check_trailing_sl], whatever their outcome. *)
Fixpoint stops_after (prices : list Q) (w : World) : list (option Q) :=
  match prices with
  | [] => []
  | ltp :: prices' =>
      let w' := fst (check_trailing_sl ltp w) in
      trailing_sl (self w') :: stops_after prices' w'
  end.

(** The state after a sequence of calls to [check_trailing_sl]. *)
Definition after_prices (prices : list Q) (w : World) : World :=
  fold_left (fun w ltp => fst (check_trailing_sl ltp w)) prices w.

End Engine.

(** *** The trade store *)

(** Number of trades of the store without an exit, the store read from its
    oldest call; an exit with no open trade leaves 0. *)
Fixpoint open_trades (st : list Event) : nat :=
  match st with
  | [] => 0
  | Entered _ _ _ :: older => S (open_trades older)
  | Exited _ _ _ _ :: older => pred (open_trades older)
  end.

(** At every moment of the history of the store at most one trade was open. *)
Fixpoint at_most_one_open (st : list Event) : Prop :=
  match st with
  | [] => True
  | _ :: older => (open_trades st <= 1)%nat /\ at_most_one_open older
  end.

(** Number of [save_trade] calls in a store. *)
Definition entries (st : list Event) : nat :=
  List.length (filter (fun e => match e with Entered _ _ _ => true | _ => false end) st).

(** *** Notions used to state the properties *)

(** Order on stop levels: an unset stop is below every stop, and a set
    stop is never followed by an unset one. *)
Definition stop_le (a b : option Q) : Prop :=
  match a, b with
  | None, _ => True
  | Some x, Some y => x <= y
  | Some _, None => False
  end.

(** The stop of the specification: when set, it is the entry price plus
    the step times the number of whole steps, rounded down, that the highest
    profit seen lies above the activation threshold. *)
Definition stop_formula (cfg : Config) (w : World) : Prop :=
  match trailing_sl (self w) with
  | None => True
  | Some sl =>
      trail_start_profit cfg <= highest_profit (self w)
      /\ sl == entry_price (self w)
               + trail_step cfg
                 * inject_Z (Qfloor ((highest_profit (self w) - trail_start_profit cfg)
                                     / trail_step cfg))
  end.

(** What the ledger of the bot consists of: the trade store, the position
    slot, the recorded exit time, the daily-loss flag and the trade count. *)
Definition ledger_view (w : World)
  : list Event * option Position * option Q * bool * Z :=
  (store w, current_position (self w), last_exit_candle_time (self w),
   daily_max_loss_triggered (bot_state w), daily_trades (bot_state w)).

(** No exit is recorded, or the recorded one is a full candle interval old. *)
Definition cooldown_over (cfg : Config) (now : Q) (w : World) : Prop :=
  match last_exit_candle_time (self w) with
  | Some exit_time => inject_Z (candle_interval cfg) <= now - exit_time
  | None => True
  end.

(** What the candle block of one iteration does to the ledger: nothing, one
    exit recorded at the candle time, or one entry. *)
Inductive ledger_step (cfg : Config) (env : Env) (now : Q) (w w' : World) : Prop :=
| ledger_idle :
    ledger_view w' = ledger_view w -> ledger_step cfg env now w w'
| ledger_exit id px pnl reason :
    store w' = Exited id px pnl reason :: store w ->
    reason <> ForceSquareOff ->
    current_position (self w) <> None ->
    current_position (self w') = None ->
    last_exit_candle_time (self w') = Some now ->
    daily_trades (bot_state w') = daily_trades (bot_state w) ->
    ledger_step cfg env now w w'
| ledger_entry p e q :
    store w' = Entered p e q :: store w ->
    current_position (self w) = None ->
    current_position (self w') = Some p ->
    daily_max_loss_triggered (bot_state w') = daily_max_loss_triggered (bot_state w) ->
    last_exit_candle_time (self w') = last_exit_candle_time (self w) ->
    cooldown_over cfg now w ->
    can_take_new_trade env = true ->
    (daily_trades (bot_state w) < max_trades_per_day cfg)%Z ->
    daily_trades (bot_state w') = (daily_trades (bot_state w) + 1)%Z ->
    ledger_step cfg env now w w'.

(** The trade store is consistent with the position slot: at no moment of
    its history were two trades open, and a trade is open now exactly when
    the slot is filled. *)
Definition ledger_consistent (w : World) : Prop :=
  at_most_one_open (store w)
  /\ open_trades (store w)
     = match current_position (self w) with Some _ => 1%nat | None => 0%nat end.

(** The position of the scenarios: a NIFTY option at strike 24350. *)
Definition sample_position (ot : OptionType) (sid : SecurityId) : Position :=
  mkPosition "T20240102093000" ot 24350 "2024-01-04" sid "NIFTY"
    "2024-01-02T04:00:00+00:00".

(** The bot of [initial] just after [enter_position] filled
    [sample_position] at the price [entry]. *)
Definition holding (cfg : Config) (ot : OptionType) (sid : SecurityId) (entry : Q)
  : World :=
  let w := initial cfg Paper 0 in
  let bs := bot_state w in
  let p := sample_position ot sid in
  record (Entered p entry (qty cfg))
    (mkWorld (set_position (Some p) entry (self w))
       (mkBotState (mode bs) (Some p) (daily_trades bs + 1)%Z (daily_pnl bs)
          (daily_max_loss_triggered bs) (last_supertrend_signal bs) (index_ltp bs)
          (supertrend_value bs) (bs_trailing_sl bs) entry entry (max_drawdown bs))
       (loop w) (store w)).

(** The defaults with a SuperTrend period of 1, so that the first candle
    already gives a signal. *)
Definition fast_config : Config :=
  mkConfig 1 5 2000 10 5 1 4 5 "NIFTY".

(** An iteration during market hours, away from 9:15 and from the
    square-off time, [elapsed] seconds after the start of the candle
    (counted from 0), with the given index and option prices. *)
Definition quiet_env (elapsed index_price option_price : Q) : Env :=
  mkEnv 11 30 false true true (mkOrderResult false false 0 0)
    index_price option_price elapsed elapsed elapsed 0
    "T20240102113000" "2024-01-02T06:00:00+00:00" None "2024-01-04"
    None None (mkOrderResult false false 0 0).

(** The bot of [initial], flat, with an exit recorded at the candle time
    [t] at which the current candle started. *)
Definition after_exit (cfg : Config) (t : Q) : World :=
  with_self (set_last_exit_candle_time (Some t)) (initial cfg Paper t).

(** An iteration like [quiet_env] with the three clock readings given. *)
Definition clock_env (t_elapsed t_candle t_reset index_price : Q) : Env :=
  mkEnv 11 30 false true true (mkOrderResult false false 0 0)
    index_price 0 t_elapsed t_candle t_reset 0
    "T20240102113000" "2024-01-02T06:00:00+00:00" None "2024-01-04"
    None None (mkOrderResult false false 0 0).

(** The three clock readings of an iteration do not go backwards. *)
Definition clock_ordered (env : Env) : Prop :=
  now_elapsed env <= now_candle env /\ now_candle env <= now_reset env.

(** The recorded exit, if any, is not later than the start of the current
    candle. *)
Definition exit_before_candle (w : World) : Prop :=
  match last_exit_candle_time (self w) with
  | Some exit_time => exit_time <= candle_start_time (loop w)
  | None => True
  end.

(** The states the bot reaches when the clock does not go backwards inside
    an iteration. *)
Inductive steadily_reachable (cfg : Config) (m : Mode) (start_time : Q) : World -> Prop :=
| steady_initial : steadily_reachable cfg m start_time (initial cfg m start_time)
| steady_iteration env w :
    steadily_reachable cfg m start_time w -> clock_ordered env ->
    steadily_reachable cfg m start_time (run_loop_iteration cfg env w)
| steady_squareoff env w :
    steadily_reachable cfg m start_time w ->
    steadily_reachable cfg m start_time (squareoff cfg env w).

(** What a step did to the recorded exit: nothing, or it recorded [now]
    and returned normally. *)
Definition exit_time_step (now : Q) (w : World) (r : World * Py.result unit) : Prop :=
  loop (fst r) = loop w
  /\ (last_exit_candle_time (self (fst r)) = last_exit_candle_time (self w)
      \/ last_exit_candle_time (self (fst r)) = Some now /\ snd r = Py.Ok tt).

(** *** The loop of backend/server.py *)

Module Legacy.

Section LegacyEngine.

Variable cfg : Config.

(** [DhanAPI.get_option_ltp] of server.py: [int(security_id)] fails on a
    simulated id, the exception is caught and 0 is returned. *)
Definition get_option_ltp (env : Env) (sid : SecurityId) : Q :=
  match sid with
  | SecBroker _ => fetched_option_ltp env
  | _ => 0
  end.

(** [TradingBot.check_trailing_sl] of server.py: the update of
    trading_bot.py followed by the exit on a breach. *)
Definition check_trailing_sl (current_ltp : Q) : M unit := fun w =>
  match current_position (self w) with
  | None => (w, Py.Ok tt)
  | Some _ =>
      (_ <- Bot.check_trailing_sl cfg current_ltp ;;
       fun w =>
         if sl_breached current_ltp w then
           let pnl := (current_ltp - entry_price (self w)) * inject_Z (order_qty cfg) in
           (close_position cfg current_ltp pnl TrailingSLHit w, Py.Ok tt)
         else (w, Py.Ok tt)) w
  end.

(** [# Update position PnL], the last block of an iteration of the loop of
    server.py. *)
Definition update_position_pnl (env : Env) : M unit := fun w =>
  match current_position (self w) with
  | Some p =>
      match pos_security_id p with
      | SecNone => (w, Py.Ok tt)
      | sid =>
          if dhan (self w) then
            let option_ltp := get_option_ltp env sid in
            if Qlt_le_dec 0 option_ltp then
              check_trailing_sl option_ltp
                (with_bot_state (set_current_option_ltp option_ltp) w)
            else (w, Py.Ok tt)
          else (w, Py.Ok tt)
      end
  | None => (w, Py.Ok tt)
  end.

(** How a call of [enter_position] of server.py ends: it returns, or
    the dict literal assigned to [self.current_position] reads the local
    [security_id] that no branch has assigned (live mode without a broker). *)
Inductive Outcome := Returned | UnboundLocalError.

(** [TradingBot.enter_position] of server.py.  The expiry is the one
    computed from the weekday.  In paper mode the stored id is
    ["SIM_<strike>_<type>"] and the entry price the constant 100; in live mode
    the id is the empty string that the code passes to [place_order], and the
    entry price [result.get('price', 0)].  The position dict of server.py has
    no ['index_name'] key: the field is left empty.  The quantity saved is
    [config['order_qty']]. *)
Definition enter_position (env : Env) (ot : OptionType) (strike : Z) (nifty_ltp : Q)
    (w : World) : World * Outcome :=
  let opened (security_id : SecurityId) (entry : Q) : World :=
    let p := mkPosition (new_trade_id env) ot strike (fallback_expiry env) security_id
               EmptyString (new_entry_time env) in
    let bs := bot_state w in
    record (Entered p entry (order_qty cfg))
      (mkWorld (set_position (Some p) entry (self w))
         (mkBotState (mode bs) (Some p) (daily_trades bs + 1)%Z (daily_pnl bs)
            (daily_max_loss_triggered bs) (last_supertrend_signal bs) (index_ltp bs)
            (supertrend_value bs) (bs_trailing_sl bs) entry (current_option_ltp bs)
            (max_drawdown bs))
         (loop w) (store w)) in
  match mode (bot_state w) with
  | Paper => (opened SecSim 100, Returned)
  | Live =>
      if dhan (self w) then
        if has_order_id (buy_order env)
        then (opened SecNone (price (buy_order env)), Returned)
        else (w, Returned)
      else (w, UnboundLocalError)
  end.

End LegacyEngine.

End Legacy.

(** The value and signal with which an iteration of the loop of
    trading_bot.py enters the body of [if st_value and signal:], if it does:
    the market is open, the daily-loss flag is not set, a candle boundary is
    crossed, the candle has a price, and [add_candle] returns a value that is
    truthy. *)
Definition signal_at_close (cfg : Config) (env : Env) (w : World) : option (Q * Signal) :=
  let w := force_squareoff cfg env (daily_reset env w) in
  if negb (is_market_open env) then None
  else if daily_max_loss_triggered (bot_state w) then None
  else
    let w := fetch_market_data env w in
    if boundary_crossed cfg env w then
      match candle_low (loop w) with
      | Some l =>
          if Qlt_le_dec 0 (candle_high (loop w)) then
            match snd (add_candle (supertrend (self w))
                         (candle_high (loop w)) l (candle_close (loop w))) with
            | Py.Ok (Some (v, sig)) => if Py.truthy v then Some (v, sig) else None
            | _ => None
            end
          else None
      | None => None
      end
    else None.

(** *** The writes of the engine, one at a time *)

(** The fields that only [close_position], [enter_position],
    [check_trailing_sl] and the daily reset write: the trade store, the
    position with its entry price, stop and highest profit, and the
    accounting of [bot_state]. *)
Definition core_view (w : World) :=
  (store w,
   (dhan (self w), current_position (self w), entry_price (self w),
    trailing_sl (self w), highest_profit (self w)),
   (mode (bot_state w), bs_current_position (bot_state w), daily_trades (bot_state w),
    daily_pnl (bot_state w), daily_max_loss_triggered (bot_state w),
    bs_trailing_sl (bot_state w), bs_entry_price (bot_state w),
    max_drawdown (bot_state w))).

(** One write of the engine between two daily resets, under the answers
    [env]: a position is closed, a position is entered from a flat bot
    below the trade cap and before the entry cut-off, the stop is updated,
    or only fields outside [core_view] change. *)
Inductive primitive (cfg : Config) (env : Env) : World -> World -> Prop :=
| prim_close px pnl reason w p :
    current_position (self w) = Some p ->
    primitive cfg env w (close_position cfg px pnl reason w)
| prim_enter ot k index_price w :
    current_position (self w) = None ->
    can_take_new_trade env = true ->
    (daily_trades (bot_state w) < max_trades_per_day cfg)%Z ->
    primitive cfg env w (enter_position cfg env ot k index_price w)
| prim_ratchet ltp w :
    primitive cfg env w (fst (check_trailing_sl cfg ltp w))
| prim_other w w' :
    core_view w' = core_view w -> primitive cfg env w w'.

(** A sequence of writes. *)
Inductive writes (cfg : Config) (env : Env) : World -> World -> Prop :=
| writes_none w : writes cfg env w w
| writes_then w1 w2 w3 :
    writes cfg env w1 w2 -> primitive cfg env w2 w3 -> writes cfg env w1 w3.

(** The states the bot reaches from [w0] without passing a daily reset. *)
Inductive reachable_within_day (cfg : Config) (w0 : World) : World -> Prop :=
| day_start : reachable_within_day cfg w0 w0
| day_iteration env w :
    reachable_within_day cfg w0 w -> at_daily_reset env = false ->
    reachable_within_day cfg w0 (run_loop_iteration cfg env w)
| day_squareoff env w :
    reachable_within_day cfg w0 w ->
    reachable_within_day cfg w0 (squareoff cfg env w).

(** Sum of the profit of the exits of a store. *)
Fixpoint realized (st : list Event) : Q :=
  match st with
  | [] => 0
  | Exited _ _ pnl _ :: older => pnl + realized older
  | Entered _ _ _ :: older => realized older
  end.

(** The largest loss among the exits of a store, 0 when there is none. *)
Fixpoint largest_loss (st : list Event) : Q :=
  match st with
  | [] => 0
  | Exited _ _ pnl _ :: older =>
      if Qlt_le_dec pnl 0
      then (if Qlt_le_dec (largest_loss older) (- pnl) then - pnl else largest_loss older)
      else largest_loss older
  | Entered _ _ _ :: older => largest_loss older
  end.

(** [bot_state] repeats the position, entry price and stop of the bot, and
    a flat bot has no stop, no entry price and no profit recorded. *)
Definition mirrored (w : World) : Prop :=
  bs_current_position (bot_state w) = current_position (self w)
  /\ bs_entry_price (bot_state w) = entry_price (self w)
  /\ bs_trailing_sl (bot_state w) = trailing_sl (self w)
  /\ (current_position (self w) = None ->
      trailing_sl (self w) = None /\ entry_price (self w) = 0
      /\ highest_profit (self w) = 0).

(** The candle being built: nothing seen yet, or a low, a close and a high
    in this order, all positive. *)
Definition candle_in_progress (lv : LoopVars) : Prop :=
  match candle_low lv with
  | None => True
  | Some l => 0 < l /\ l <= candle_close lv /\ candle_close lv <= candle_high lv
  end.

(** A candle as the loop hands it to the indicator. *)
Definition well_formed (k : Candle) : Prop :=
  0 < low k /\ low k <= close k /\ close k <= high k.

(** The books of the day: what was recorded since [w0], and the counters
    of [bot_state] it accounts for. *)
Definition books (w0 w : World) (newer : list Event) : Prop :=
  store w = newer ++ store w0
  /\ daily_trades (bot_state w)
     = (daily_trades (bot_state w0) + Z.of_nat (entries newer))%Z
  /\ daily_pnl (bot_state w) == daily_pnl (bot_state w0) + realized newer.

(** The drawdown of the day: the larger of the one at [w0] and the largest
    loss recorded since. *)
Definition drawdown_books (w0 w : World) (newer : list Event) : Prop :=
  store w = newer ++ store w0
  /\ max_drawdown (bot_state w)
     == Py.max2 (max_drawdown (bot_state w0)) (largest_loss newer).

(** A step that leaves the indicator and the candle being built alone. *)
Definition same_feed (w w' : World) : Prop :=
  supertrend (self w') = supertrend (self w) /\ loop w' = loop w.

(** What the loop keeps true of the candles: the one being built and the
    ones of the indicator are well formed, the indicator has the configured
    period, and for a period of at least 1 it has stored no negative ATR. *)
Definition fed_well (cfg : Config) (w : World) : Prop :=
  candle_in_progress (loop w)
  /\ Forall well_formed (candles (supertrend (self w)))
  /\ period (supertrend (self w)) = supertrend_period cfg
  /\ ((1 <= supertrend_period cfg)%Z ->
      Forall (fun a => 0 <= a) (atr_values (supertrend (self w)))).

(** An iteration at 15:25: the market is open, square-off is due and
    entries are cut off. *)
Definition squareoff_env (index_price : Q) : Env :=
  mkEnv 15 25 true true false (mkOrderResult false false 0 0)
    index_price 0 1 1 1 0
    "T20240102152500" "2024-01-02T09:55:00+00:00" None "2024-01-04"
    None None (mkOrderResult false false 0 0).

End Bot.

(** ** The helpers of backend/server.py *)

Module Server.

(** An IST [datetime], the fields the helpers read.  Each helper compares
    [ist] with [ist.replace(...)], two values of the same date, which Python
    orders by hour, minute, second and microsecond in turn; the date itself
    is left out. *)
Record Datetime := mkDatetime {
  weekday : Z;        (* ist.weekday(): 0 is Monday *)
  hour : Z;
  minute : Z;
  second : Z;
  microsecond : Z
}.

(** [ist.replace(hour=h, minute=m, second=0, microsecond=0)]. *)
Definition replace (ist : Datetime) (h m : Z) : Datetime :=
  mkDatetime (weekday ist) h m 0 0.

(** [a < b] on two datetimes of the same date. *)
Definition lt (a b : Datetime) : bool :=
  (hour a <? hour b)%Z
  || ((hour a =? hour b)%Z
      && ((minute a <? minute b)%Z
          || ((minute a =? minute b)%Z
              && ((second a <? second b)%Z
                  || ((second a =? second b)%Z
                      && (microsecond a <? microsecond b)%Z))))).

(** [a <= b] on two datetimes of the same date. *)
Definition le (a b : Datetime) : bool :=
  (hour a <? hour b)%Z
  || ((hour a =? hour b)%Z
      && ((minute a <? minute b)%Z
          || ((minute a =? minute b)%Z
              && ((second a <? second b)%Z
                  || ((second a =? second b)%Z
                      && (microsecond a <=? microsecond b)%Z))))).

(** [is_market_open], on the reading [ist] of [get_ist_time()]. *)
Definition is_market_open (ist : Datetime) : bool :=
  let market_open := replace ist 9 15 in
  let market_close := replace ist 15 30 in
  (le market_open ist && le ist market_close) && (weekday ist <? 5)%Z.

(** [can_take_new_trade]. *)
Definition can_take_new_trade (ist : Datetime) : bool :=
  let cutoff_time := replace ist 15 20 in
  lt ist cutoff_time.

(** [should_force_squareoff]; [ist >= squareoff_time]. *)
Definition should_force_squareoff (ist : Datetime) : bool :=
  let squareoff_time := replace ist 15 25 in
  le squareoff_time ist.

(** [round_to_nearest_50]. *)
Definition round_to_nearest_50 (price : Q) : Z :=
  (Py.round (price / 50) * 50)%Z.

(** The identity of a [WebSocket] object; [in] and [remove] compare the
    entries of [active_connections] by identity. *)
Definition WebSocket := Z.

(** [ConnectionManager.connect], once [accept] has returned. *)
Definition connect (websocket : WebSocket) (active_connections : list WebSocket)
  : list WebSocket :=
  active_connections ++ [websocket].

(** [list.remove(x)] on a list that holds [x]: the first occurrence goes. *)
Fixpoint remove (x : WebSocket) (xs : list WebSocket) : list WebSocket :=
  match xs with
  | [] => []
  | y :: ys => if (y =? x)%Z then ys else y :: remove x ys
  end.

(** [ConnectionManager.disconnect]. *)
Definition disconnect (websocket : WebSocket) (active_connections : list WebSocket)
  : list WebSocket :=
  if existsb (fun c => (c =? websocket)%Z) active_connections
  then remove websocket active_connections
  else active_connections.

End Server.

(** ** Facts about the Python primitives *)

(** Case analysis on an innermost scrutinee of the goal. *)
Ltac break_match :=
  match goal with
  | |- context [match ?x with _ => _ end] =>
      lazymatch x with
      | context [match _ with _ => _ end] => fail
      | _ => destruct x eqn:?
      end
  end.


Lemma round_nearest (x : Q) : Qabs (x - inject_Z (Py.round x)) <= 1 # 2.
Proof.
  unfold Py.round.
  pose proof (Qfloor_le x) as Hlo.
  pose proof (Qlt_floor x) as Hhi.
  rewrite inject_Z_plus in Hhi. change (inject_Z 1) with 1 in Hhi.
  set (f := Qfloor x) in *.
  destruct (Qcompare_spec (x - inject_Z f) (1 # 2)) as [He | Hl | Hg].
  - assert (Hx : x == inject_Z f + (1 # 2)) by lra.
    destruct (Z.even f).
    + apply Qabs_Qle_condition. split; lra.
    + rewrite inject_Z_plus. change (inject_Z 1) with 1.
      apply Qabs_Qle_condition. split; lra.
  - apply Qabs_Qle_condition. split; lra.
  - rewrite inject_Z_plus. change (inject_Z 1) with 1.
    apply Qabs_Qle_condition. split; lra.
Qed.

Lemma upper_idempotent (s : string) : Py.upper (Py.upper s) = Py.upper s.
Proof.
  induction s as [| c s IH]; simpl; [reflexivity |].
  rewrite IH. f_equal.
  unfold Py.upper_ascii.
  destruct ((97 <=? nat_of_ascii c)%nat && (nat_of_ascii c <=? 122)%nat) eqn:E.
  - apply andb_true_iff in E. destruct E as [E1 E2].
    apply Nat.leb_le in E1. apply Nat.leb_le in E2.
    rewrite nat_ascii_embedding by lia.
    replace ((97 <=? nat_of_ascii c - 32)%nat) with false; [reflexivity |].
    symmetry. apply Nat.leb_gt. lia.
  - rewrite E. reflexivity.
Qed.

(** C10. A name whose upper-cased form is not a key of [INDICES] gets the
    NIFTY configuration; [round_to_strike] on such a name returns the multiple
    of 50 nearest to the price; and a name that upper-cases to a key of the
    table gets that key's entry, whatever its case. *)
Theorem C10_unknown_index_defaults_to_nifty (index_name : string)
    (Hunknown : Py.dict_get Indices.INDICES (Py.upper index_name) = None) :
  Indices.get_index_config index_name = Indices.NIFTY
  /\ (forall price : Q,
        let strike := Indices.round_to_strike price index_name in
        strike = (Py.round (price / 50) * 50)%Z
        /\ (strike mod 50 = 0)%Z
        /\ Qabs (price - inject_Z strike) <= 25)
  /\ (forall (key known : string) (cfg : Indices.IndexConfig),
        Py.dict_get Indices.INDICES key = Some cfg ->
        Py.upper known = key ->
        Indices.get_index_config known = cfg
        /\ Indices.get_index_config (Py.upper known) = cfg).
Proof.
  assert (Hcfg : Indices.get_index_config index_name = Indices.NIFTY).
  { unfold Indices.get_index_config, Py.dict_get_default.
    rewrite Hunknown. reflexivity. }
  split; [exact Hcfg |]. split.
  - intros price strike. subst strike.
    unfold Indices.round_to_strike. rewrite Hcfg. simpl Indices.strike_interval.
    split; [reflexivity |]. split.
    + apply Z.mod_mul. discriminate.
    + rewrite inject_Z_mult.
      pose proof (round_nearest (price / inject_Z 50)) as Hr.
      set (r := inject_Z (Py.round (price / inject_Z 50))) in *.
      apply Qabs_Qle_condition in Hr. destruct Hr as [Hr1 Hr2].
      assert (Hp : price == (price / inject_Z 50) * inject_Z 50) by (field; discriminate).
      set (q := price / inject_Z 50) in *.
      change (inject_Z 50) with 50 in *.
      apply Qabs_Qle_condition. split; lra.
  - intros key known cfg Hkey Hup.
    unfold Indices.get_index_config, Py.dict_get_default.
    rewrite upper_idempotent, Hup, Hkey. split; reflexivity.
Qed.

Lemma C10_unknown_index_defaults_to_nifty_witness :
  Indices.get_index_config "crudeoil" = Indices.NIFTY
  /\ Indices.round_to_strike (24337 # 1) "crudeoil" = 24350%Z
  /\ Indices.get_index_config "BankNifty" = Indices.BANKNIFTY.
Proof.
  destruct (@C10_unknown_index_defaults_to_nifty "crudeoil" eq_refl) as [H1 [H2 H3]].
  split; [exact H1 |]. split.
  - destruct (H2 (24337 # 1)) as [E _]. rewrite E. reflexivity.
  - destruct (H3 "BANKNIFTY"%string "BankNifty"%string Indices.BANKNIFTY eq_refl eq_refl) as [E _].
    exact E.
Defined.

(** ** Facts about Python lists *)

Section ListFacts.

Context {A : Type}.

Lemma item_neg_last (xs : list A) (x : A) : Py.item_neg (xs ++ [x]) 1 = Some x.
Proof.
  unfold Py.item_neg. rewrite length_app. cbn [List.length].
  destruct (Nat.leb_spec 1 (List.length xs + 1)) as [_ | Hlt]; [| lia].
  replace (List.length xs + 1 - 1)%nat with (List.length xs) by lia.
  rewrite nth_error_app2 by lia. rewrite Nat.sub_diag. reflexivity.
Qed.

Lemma item_neg_second (xs : list A) (x : A) :
  Py.item_neg (xs ++ [x]) 2 = Py.item_neg xs 1.
Proof.
  unfold Py.item_neg. rewrite length_app. cbn [List.length].
  destruct (Nat.leb_spec 2 (List.length xs + 1)) as [H2 | H2];
    destruct (Nat.leb_spec 1 (List.length xs)) as [H1 | H1]; try lia; [| reflexivity].
  replace (List.length xs + 1 - 2)%nat with (List.length xs - 1)%nat by lia.
  rewrite nth_error_app1 by lia. reflexivity.
Qed.

Lemma item_neg_none (xs : list A) : Py.item_neg xs 1 = None <-> xs = [].
Proof.
  split.
  - destruct xs as [| x xs _] using rev_ind; [reflexivity |].
    rewrite item_neg_last. discriminate.
  - intros ->. reflexivity.
Qed.

Lemma length_keep_last (n : nat) (xs : list A) :
  List.length (Py.keep_last n xs) = Nat.min n (List.length xs).
Proof. unfold Py.keep_last. rewrite length_skipn. lia. Qed.

Lemma item_neg_keep_last (n : nat) (xs : list A) :
  (1 <= n)%nat -> Py.item_neg (Py.keep_last n xs) 1 = Py.item_neg xs 1.
Proof.
  intros Hn. destruct xs as [| x xs _] using rev_ind; [reflexivity |].
  rewrite item_neg_last.
  unfold Py.keep_last. rewrite length_app. simpl List.length.
  rewrite skipn_app.
  replace (List.length xs + 1 - n - List.length xs)%nat with 0%nat by lia.
  simpl skipn. apply item_neg_last.
Qed.

Lemma len_app_one (xs : list A) (x : A) : Py.len (xs ++ [x]) = (Py.len xs + 1)%Z.
Proof. unfold Py.len. rewrite length_app. simpl. lia. Qed.

End ListFacts.

(** ** The SuperTrend indicator *)

Section IndicatorFacts.

Import Indicator.

Lemma div_inject_Z (a : Q) (p : Z) :
  p <> 0%Z -> Py.div a (inject_Z p) = Py.Ok (a / inject_Z p).
Proof.
  intros Hp. unfold Py.div.
  destruct (Qeq_bool (inject_Z p) 0) eqn:E; [| reflexivity].
  apply Qeq_bool_eq in E. unfold Qeq in E. simpl in E. lia.
Qed.

(** During the warm-up the candle is stored and nothing else happens. *)
Lemma compute_warmup (s : SuperTrend) (h l c : Q) :
  (Py.len (candles s) + 1 < period s)%Z ->
  add_candle_compute s h l c =
    (mkSuperTrend (period s) (multiplier s) (candles s ++ [mkCandle h l c])
       (atr_values s) (supertrend_values s) (self_direction s), Py.Ok None).
Proof.
  intros Hw. unfold add_candle_compute. cbn [period multiplier candles atr_values
    supertrend_values self_direction].
  rewrite len_app_one.
  destruct (Z.ltb_spec (Py.len (candles s) + 1) (period s)); [reflexivity | lia].
Qed.

(** After the warm-up a call that does not raise appends one entry to each
    buffer and returns the value and signal of the new band. *)
Lemma compute_emits (s : SuperTrend) (h l c : Q) :
  (period s <= Py.len (candles s) + 1)%Z ->
  atr_values s = [] \/ period s <> 0%Z ->
  supertrend_values s = [] \/ candles s <> [] ->
  exists b : Band,
    add_candle_compute s h l c =
      (mkSuperTrend (period s) (multiplier s) (candles s ++ [mkCandle h l c])
         (atr_values s ++ [stored_atr s h l c]) (supertrend_values s ++ [b])
         (direction b),
       Py.Ok (Some (value b, if (direction b =? 1)%Z then GREEN else RED))).
Proof.
  intros Hw Hatr Hstv. unfold add_candle_compute, stored_atr.
  cbn [period multiplier candles atr_values supertrend_values self_direction].
  rewrite len_app_one.
  destruct (Z.ltb_spec (Py.len (candles s) + 1) (period s)) as [Hlt | _]; [lia |].
  set (cs := candles s ++ [mkCandle h l c]).
  assert (Hdiv : forall a, Py.item_neg (atr_values s) 1 = Some a ->
            Py.div (a * inject_Z (period s - 1) + current_tr cs h l) (inject_Z (period s))
            = Py.Ok ((a * inject_Z (period s - 1) + current_tr cs h l) / inject_Z (period s))).
  { intros a Ha. apply div_inject_Z. destruct Hatr as [He | Hp]; [| exact Hp].
    rewrite He in Ha. discriminate. }
  destruct (Py.item_neg (atr_values s) 1) as [a |] eqn:Ea.
  - rewrite (Hdiv a eq_refl).
    destruct (Py.item_neg (supertrend_values s) 1) as [pb |] eqn:Eb.
    + assert (Hc : exists pc, Py.item_neg cs 2 = Some pc).
      { subst cs. rewrite item_neg_second.
        destruct (Py.item_neg (candles s) 1) as [pc |] eqn:Ec; [eauto |].
        apply item_neg_none in Ec. destruct Hstv as [He | Hne]; [| contradiction].
        rewrite He in Eb. discriminate. }
      destruct Hc as [pc Hpc]. rewrite Hpc.
      eexists (mkBand _ _ _ _). cbn [direction value]. reflexivity.
    + eexists (mkBand _ _ _ _). cbn [direction value]. reflexivity.
  - destruct (Py.item_neg (supertrend_values s) 1) as [pb |] eqn:Eb.
    + assert (Hc : exists pc, Py.item_neg cs 2 = Some pc).
      { subst cs. rewrite item_neg_second.
        destruct (Py.item_neg (candles s) 1) as [pc |] eqn:Ec; [eauto |].
        apply item_neg_none in Ec. destruct Hstv as [He | Hne]; [| contradiction].
        rewrite He in Eb. discriminate. }
      destruct Hc as [pc Hpc]. rewrite Hpc.
      eexists (mkBand _ _ _ _). cbn [direction value]. reflexivity.
    + eexists (mkBand _ _ _ _). cbn [direction value]. reflexivity.
Qed.

Lemma feed_snoc step (s : SuperTrend) (cs : list Candle) (k : Candle) :
  feed step s (cs ++ [k]) =
    (fst (step (fst (feed step s cs)) (high k) (low k) (close k)),
     snd (feed step s cs) ++ [snd (step (fst (feed step s cs)) (high k) (low k) (close k))]).
Proof.
  revert s. induction cs as [| k0 cs IH]; intros s; simpl.
  - destruct (step s (high k) (low k) (close k)). reflexivity.
  - destruct (step s (high k0) (low k0) (close k0)) as [s1 r1].
    rewrite IH. destruct (feed step s1 cs) as [s2 rs]. reflexivity.
Qed.

Lemma state_after_snoc (p : Z) (m : Q) (cs : list Candle) (k : Candle) :
  state_after p m (cs ++ [k]) =
    fst (add_candle (state_after p m cs) (high k) (low k) (close k)).
Proof. unfold state_after. rewrite feed_snoc. reflexivity. Qed.

Lemma outputs_snoc (p : Z) (m : Q) (cs : list Candle) (k : Candle) :
  outputs p m (cs ++ [k]) =
    outputs p m cs ++ [snd (add_candle (state_after p m cs) (high k) (low k) (close k))].
Proof. unfold outputs, state_after. rewrite feed_snoc. reflexivity. Qed.

(** The bootstrap loop over a whole buffer computes the true ranges of the
    specification. *)
Lemma tr_vals_from (suf pre : list Candle) (p : Candle) :
  map (tr_val (pre ++ p :: suf))
      (map Z.of_nat (seq (S (List.length pre)) (List.length suf)))
  = true_ranges_from (close p) suf.
Proof.
  revert pre p. induction suf as [| k suf IH]; intros pre p; [reflexivity |].
  cbn [List.length seq map true_ranges_from]. f_equal.
  - assert (H1 : nth_error (pre ++ p :: k :: suf) (List.length pre) = Some p).
    { rewrite nth_error_app2 by lia. rewrite Nat.sub_diag. reflexivity. }
    assert (H2 : nth_error (pre ++ p :: k :: suf) (S (List.length pre)) = Some k).
    { rewrite nth_error_app2 by lia.
      replace (S (List.length pre) - List.length pre)%nat with 1%nat by lia.
      reflexivity. }
    unfold tr_val, Py.item.
    destruct (Z.ltb_spec 0 (Z.of_nat (S (List.length pre)))) as [_ | H]; [| lia].
    replace (Z.to_nat (Z.of_nat (S (List.length pre)) - 1)) with (List.length pre) by lia.
    rewrite Nat2Z.id, H1, H2. reflexivity.
  - replace (pre ++ p :: k :: suf) with ((pre ++ [p]) ++ k :: suf)
      by (rewrite <- app_assoc; reflexivity).
    specialize (IH (pre ++ [p]) k).
    rewrite length_app in IH. cbn [List.length] in IH.
    replace (List.length pre + 1)%nat with (S (List.length pre)) in IH by lia.
    exact IH.
Qed.

Lemma bootstrap_trs_whole (cs : list Candle) :
  bootstrap_trs cs (Py.len cs) = true_ranges cs.
Proof.
  unfold bootstrap_trs, Py.range. rewrite Z.sub_diag. cbn [Z.max Z.to_nat].
  unfold Py.len. rewrite Nat2Z.id, Nat.sub_0_r.
  destruct cs as [| k cs]; [reflexivity |].
  cbn [List.length seq map true_ranges]. f_equal.
  exact (tr_vals_from cs [] k).
Qed.

Lemma length_true_ranges (cs : list Candle) :
  List.length (true_ranges cs) = List.length cs.
Proof.
  destruct cs as [| k cs]; [reflexivity |]. cbn [true_ranges List.length]. f_equal.
  generalize (close k). induction cs as [| k' cs IH]; intros q; [reflexivity |].
  cbn [true_ranges_from List.length]. f_equal. apply IH.
Qed.

Lemma keep_last_100_last (s : SuperTrend) :
  period (keep_last_100 s) = period s
  /\ multiplier (keep_last_100 s) = multiplier s
  /\ Py.item_neg (candles (keep_last_100 s)) 1 = Py.item_neg (candles s) 1
  /\ Py.item_neg (atr_values (keep_last_100 s)) 1 = Py.item_neg (atr_values s) 1
  /\ Py.item_neg (supertrend_values (keep_last_100 s)) 1
     = Py.item_neg (supertrend_values s) 1
  /\ (candles (keep_last_100 s) = candles s
      \/ List.length (candles (keep_last_100 s)) = 100%nat).
Proof.
  unfold keep_last_100.
  destruct (Z.ltb_spec 100 (Py.len (candles s))) as [H | H].
  - cbn [period multiplier candles atr_values supertrend_values].
    rewrite !item_neg_keep_last by lia. repeat split.
    right. rewrite length_keep_last. unfold Py.len in H. lia.
  - repeat split. left. reflexivity.
Qed.

Section Warmup.

Variable p : Z.
Variable m : Q.
Hypothesis Hp : (1 <= p <= 101)%Z.

Lemma add_candle_of_emit (s s' : SuperTrend) (h l c : Q) (out : Q * Signal) :
  add_candle_compute s h l c = (s', Py.Ok (Some out)) ->
  add_candle s h l c = (keep_last_100 s', Py.Ok (Some out)).
Proof. intros H. unfold add_candle. rewrite H. reflexivity. Qed.

Lemma current_tr_after (cs : list Candle) (prev : Candle) (h l c : Q) :
  Py.item_neg cs 1 = Some prev ->
  current_tr (cs ++ [mkCandle h l c]) h l = true_range h l (close prev).
Proof.
  intros Hprev. unfold current_tr, true_range.
  rewrite item_neg_second, Hprev, len_app_one.
  assert (Hne : cs <> []) by (intros ->; discriminate).
  assert (0 < Py.len cs)%Z.
  { unfold Py.len. destruct cs; [contradiction | simpl; lia]. }
  destruct (Z.ltb_spec 1 (Py.len cs + 1)); [reflexivity | lia].
Qed.

Lemma fed_step (cs : list Candle) (s : SuperTrend) (k : Candle) :
  fed p m cs s ->
  let r := add_candle s (high k) (low k) (close k) in
  fed p m (cs ++ [k]) (fst r)
  /\ ((Py.len cs + 1 < p)%Z -> snd r = Py.Ok None /\ atr_values (fst r) = [])
  /\ ((Py.len cs + 1 = p)%Z ->
        (exists v sig, snd r = Py.Ok (Some (v, sig)))
        /\ atr_values (fst r) = [Py.sum (true_ranges (cs ++ [k])) / inject_Z p])
  /\ ((p < Py.len cs + 1)%Z ->
        (exists v sig, snd r = Py.Ok (Some (v, sig)))
        /\ exists prev_atr prev,
             Py.item_neg (atr_values s) 1 = Some prev_atr
             /\ Py.item_neg cs 1 = Some prev
             /\ Py.item_neg (atr_values (fst r)) 1
                = Some ((prev_atr * inject_Z (p - 1)
                         + true_range (high k) (low k) (close prev)) / inject_Z p)).
Proof.
  intros [Hper [Hmul Hst]] r. subst r.
  assert (Hk : mkCandle (high k) (low k) (close k) = k) by (destruct k; reflexivity).
  destruct Hst as [[Hlt [Hc [Ha Hs]]] | [Hge [Ha [Hs [Hl Hc]]]]].
  - (* the state is still warming up *)
    destruct (Z.lt_ge_cases (Py.len cs + 1) p) as [Hw | Hw].
    + pose proof (@compute_warmup s (high k) (low k) (close k)) as Hcomp.
      rewrite Hper, Hc, Hk in Hcomp. specialize (Hcomp Hw).
      unfold add_candle. rewrite Hcomp. cbn [fst snd atr_values].
      repeat split; try lia; try assumption.
      * left. rewrite len_app_one. cbn [candles atr_values supertrend_values].
        repeat split; assumption || lia.
    + assert (Hlen : Py.len (cs ++ [k]) = p) by (rewrite len_app_one; lia).
      destruct (@compute_emits s (high k) (low k) (close k)) as [b Hcomp].
      { rewrite Hper, Hc. lia. }
      { left. exact Ha. }
      { left. exact Hs. }
      assert (Hatr : stored_atr s (high k) (low k) (close k)
                     = Py.sum (true_ranges (cs ++ [k])) / inject_Z p).
      { unfold stored_atr. rewrite Ha, Hc, Hk, Hper. cbn [Py.item_neg List.length Nat.leb].
        rewrite <- Hlen at 1. rewrite bootstrap_trs_whole.
        unfold bootstrap_atr.
        assert (Hl : Py.len (true_ranges (cs ++ [k])) = p).
        { unfold Py.len. rewrite length_true_ranges. exact Hlen. }
        destruct (true_ranges (cs ++ [k])) eqn:E.
        - unfold Py.len in Hl. simpl in Hl. lia.
        - rewrite Hl. reflexivity. }
      rewrite Hatr, Ha, Hs, Hc, Hk, Hper, Hmul in Hcomp. cbn [app] in Hcomp.
      rewrite (add_candle_of_emit _ _ _ _ Hcomp). cbn [fst snd].
      destruct (keep_last_100_last
                  (mkSuperTrend p m (cs ++ [k])
                     [Py.sum (true_ranges (cs ++ [k])) / inject_Z p] [b] (direction b)))
        as [K1 [K2 [K3 [K4 [K5 K6]]]]].
      cbn [period multiplier candles atr_values supertrend_values] in K1, K2, K3, K4, K5, K6.
      assert (Hatrs : atr_values (keep_last_100
                (mkSuperTrend p m (cs ++ [k])
                   [Py.sum (true_ranges (cs ++ [k])) / inject_Z p] [b] (direction b)))
              = [Py.sum (true_ranges (cs ++ [k])) / inject_Z p]).
      { unfold keep_last_100. cbn [candles atr_values].
        destruct (100 <? Py.len (cs ++ [k]))%Z; reflexivity. }
      split; [| split; [| split]].
      * split; [exact K1 |]. split; [exact K2 |]. right.
        split; [lia |]. split; [rewrite Hatrs; discriminate |].
        split; [intros E; rewrite E in K5; discriminate |].
        split; [exact K3 |].
        destruct K6 as [K6 | K6]; [left; exact K6 |].
        right. unfold Py.len. rewrite K6. lia.
      * intros; lia.
      * intros _. split; [eauto | exact Hatrs].
      * intros; lia.
  - (* the indicator already emits *)
    assert (Hcs : exists prev, Py.item_neg cs 1 = Some prev).
    { destruct (Py.item_neg cs 1) as [prev |] eqn:E; [eauto |].
      apply item_neg_none in E. subst cs. unfold Py.len in Hge. simpl in Hge. lia. }
    destruct Hcs as [prev Hprev].
    assert (Hat : exists prev_atr, Py.item_neg (atr_values s) 1 = Some prev_atr).
    { destruct (Py.item_neg (atr_values s) 1) as [a |] eqn:E; [eauto |].
      apply item_neg_none in E. contradiction. }
    destruct Hat as [prev_atr Hprev_atr].
    assert (Hne : candles s <> []).
    { intros E. rewrite E in Hl. rewrite Hprev in Hl. discriminate. }
    destruct (@compute_emits s (high k) (low k) (close k)) as [b Hcomp].
    { rewrite Hper. destruct Hc as [Hc | Hc]; [rewrite Hc |]; lia. }
    { right. rewrite Hper. lia. }
    { right. exact Hne. }
    assert (Hatr : stored_atr s (high k) (low k) (close k)
                   = (prev_atr * inject_Z (p - 1)
                      + true_range (high k) (low k) (close prev)) / inject_Z p).
    { unfold stored_atr. rewrite Hprev_atr, Hper.
      rewrite (@current_tr_after (candles s) prev) by (rewrite Hl; exact Hprev).
      reflexivity. }
    rewrite Hatr, Hk, Hper, Hmul in Hcomp.
    rewrite (add_candle_of_emit _ _ _ _ Hcomp). cbn [fst snd].
    match goal with |- context [keep_last_100 ?x] =>
      destruct (keep_last_100_last x) as [K1 [K2 [K3 [K4 [K5 K6]]]]] end.
    cbn [period multiplier candles atr_values supertrend_values] in K1, K2, K3, K4, K5, K6.
    rewrite item_neg_last in K3. rewrite item_neg_last in K4. rewrite item_neg_last in K5.
    split; [| split; [| split]].
    + split; [exact K1 |]. split; [exact K2 |]. right.
      rewrite len_app_one, item_neg_last.
      split; [lia |].
      split; [intros E; rewrite E in K4; discriminate |].
      split; [intros E; rewrite E in K5; discriminate |].
      split; [exact K3 |].
      destruct K6 as [K6 | K6].
      * destruct Hc as [Hc | Hc].
        -- left. rewrite K6, Hc. reflexivity.
        -- right. rewrite K6, len_app_one. lia.
      * right. unfold Py.len. rewrite K6. lia.
    + intros; lia.
    + intros; lia.
    + intros _. split; [eauto |]. exists prev_atr, prev. repeat split; assumption.
Qed.

Lemma fed_state_after (cs : list Candle) : fed p m cs (state_after p m cs).
Proof.
  induction cs as [| k cs IH] using rev_ind.
  - unfold state_after, fed. simpl. repeat split. left.
    unfold Py.len. simpl. repeat split. lia.
  - rewrite state_after_snoc.
    pose proof (@fed_step cs (state_after p m cs) k IH) as H. cbv zeta in H. apply H.
Qed.

End Warmup.

(** *** The trim against the full history *)

Lemma current_tr_congr (cs1 cs2 : list Candle) (k : Candle) (h l : Q) :
  Py.item_neg cs1 1 = Py.item_neg cs2 1 ->
  current_tr (cs1 ++ [k]) h l = current_tr (cs2 ++ [k]) h l.
Proof.
  intros H. unfold current_tr. rewrite !item_neg_second, !len_app_one, H.
  destruct (Py.item_neg cs2 1) as [q |] eqn:E.
  - assert (H1 : (0 < Py.len cs1)%Z).
    { unfold Py.len. destruct cs1; [discriminate | simpl; lia]. }
    assert (H2 : (0 < Py.len cs2)%Z).
    { unfold Py.len. destruct cs2; [discriminate | simpl; lia]. }
    destruct (Z.ltb_spec 1 (Py.len cs1 + 1)); [| lia].
    destruct (Z.ltb_spec 1 (Py.len cs2 + 1)); [| lia]. reflexivity.
  - destruct (1 <? Py.len cs1 + 1)%Z, (1 <? Py.len cs2 + 1)%Z; reflexivity.
Qed.

Lemma compute_period (s : SuperTrend) (h l c : Q) :
  period (fst (add_candle_compute s h l c)) = period s.
Proof.
  unfold add_candle_compute. cbn [period multiplier candles atr_values
    supertrend_values self_direction].
  repeat break_match; reflexivity.
Qed.

Lemma compute_emit_atr (s s' : SuperTrend) (h l c : Q) (out : Q * Signal) :
  add_candle_compute s h l c = (s', Py.Ok (Some out)) -> atr_values s' <> [].
Proof.
  unfold add_candle_compute. cbn [period multiplier candles atr_values
    supertrend_values self_direction].
  repeat break_match; intros H; inversion H; subst; cbn [atr_values];
    intros E; apply app_eq_nil in E; destruct E; discriminate.
Qed.

Lemma compute_agree (t f : SuperTrend) (h l c : Q) :
  agree t f -> (period f <= 101)%Z ->
  snd (add_candle_compute t h l c) = snd (add_candle_compute f h l c)
  /\ agree (fst (add_candle_compute t h l c)) (fst (add_candle_compute f h l c)).
Proof.
  intros [Hp [Hm Hd]] Hle.
  destruct Hd as [[Hc [Ha Hs]] | [Ht [Hf [Hne [Hc [Ha Hs]]]]]].
  - unfold add_candle_compute, agree.
    cbn [period multiplier candles atr_values supertrend_values self_direction].
    rewrite Hp, Hm, Hc, Ha, Hs.
    repeat break_match;
      cbn [fst snd period multiplier candles atr_values supertrend_values];
      (split; [reflexivity | split; [reflexivity | split; [reflexivity |]]]);
      left; repeat split; reflexivity.
  - unfold add_candle_compute, agree.
    cbn [period multiplier candles atr_values supertrend_values self_direction].
    rewrite !len_app_one, !item_neg_second.
    rewrite (@current_tr_congr (candles t) (candles f) _ h l Hc).
    rewrite Hp, Hm, Hc, Ha, Hs.
    destruct (Z.ltb_spec (Py.len (candles t) + 1) (period f)); [lia |].
    destruct (Z.ltb_spec (Py.len (candles f) + 1) (period f)); [lia |].
    destruct (Py.item_neg (atr_values f) 1) as [a |] eqn:Ea;
      [| apply item_neg_none in Ha; contradiction].
    repeat break_match;
      cbn [fst snd period multiplier candles atr_values supertrend_values];
      (split; [reflexivity | split; [reflexivity | split; [reflexivity |]]]);
      right; rewrite ?len_app_one, ?item_neg_last;
      repeat split; try lia; try assumption; try reflexivity; try congruence;
      try (intros E; apply app_eq_nil in E; destruct E; discriminate).
Qed.

Lemma keep_last_100_agree (t f : SuperTrend) :
  agree t f -> atr_values t <> [] -> agree (keep_last_100 t) f.
Proof.
  intros [Hp [Hm Hd]] Hne.
  destruct (keep_last_100_last t) as [K1 [K2 [K3 [K4 [K5 K6]]]]].
  unfold agree. rewrite K1, K2. split; [exact Hp |]. split; [exact Hm |].
  unfold keep_last_100 in *.
  destruct (Z.ltb_spec 100 (Py.len (candles t))) as [Hlt | Hge].
  - cbn [candles atr_values supertrend_values] in *. right.
    assert (Hlen : Py.len (Py.keep_last 100 (candles t)) = 100%Z).
    { unfold Py.len in *. rewrite length_keep_last. lia. }
    rewrite Hlen, K3, K4, K5.
    assert (Hne' : Py.keep_last 100 (atr_values t) <> []).
    { intros E. apply item_neg_none in E. rewrite K4 in E.
      apply item_neg_none in E. contradiction. }
    destruct Hd as [[Hc [Ha Hs]] | [Ht [Hf [_ [Hc [Ha Hs]]]]]].
    + rewrite <- Hc, <- Ha, <- Hs. repeat split; try lia; try assumption.
    + repeat split; try lia; assumption.
  - exact Hd.
Qed.

Lemma add_candle_agree (t f : SuperTrend) (h l c : Q) :
  agree t f -> (period f <= 101)%Z ->
  snd (add_candle t h l c) = snd (add_candle_full_history f h l c)
  /\ agree (fst (add_candle t h l c)) (fst (add_candle_full_history f h l c)).
Proof.
  intros Hag Hle. unfold add_candle_full_history.
  destruct (compute_agree h l c Hag Hle) as [Hout Hst].
  unfold add_candle.
  destruct (add_candle_compute t h l c) as [t' r] eqn:Et.
  cbn [fst snd] in Hout, Hst.
  destruct r as [[out |] | e]; cbn [fst snd]; (split; [exact Hout |]); try exact Hst.
  apply keep_last_100_agree; [exact Hst |].
  exact (compute_emit_atr _ _ _ _ Et).
Qed.

Lemma feed_agree (cs : list Candle) (t f : SuperTrend) :
  agree t f -> (period f <= 101)%Z ->
  snd (feed add_candle t cs) = snd (feed add_candle_full_history f cs).
Proof.
  revert t f. induction cs as [| k cs IH]; intros t f Hag Hle; [reflexivity |].
  cbn [feed].
  destruct (add_candle_agree (high k) (low k) (close k) Hag Hle) as [Hout Hst].
  assert (Hper : period (fst (add_candle_full_history f (high k) (low k) (close k)))
                 = period f) by apply compute_period.
  destruct (add_candle t (high k) (low k) (close k)) as [t1 r1].
  destruct (add_candle_full_history f (high k) (low k) (close k)) as [f1 r2].
  cbn [fst snd] in *.
  specialize (IH t1 f1 Hst). rewrite Hper in IH. specialize (IH Hle).
  destruct (feed add_candle t1 cs) as [t2 rs1].
  destruct (feed add_candle_full_history f1 cs) as [f2 rs2].
  cbn [snd] in *. congruence.
Qed.

(** For a period of at most 101 the trim does not change any output:
    [add_candle] and the computation that keeps the full history return the
    same sequence, exceptions included. *)
Lemma trim_preserves_outputs (p : Z) (m : Q) (cs : list Candle) :
  (p <= 101)%Z -> outputs p m cs = outputs_full_history p m cs.
Proof.
  intros Hp. unfold outputs, outputs_full_history.
  apply feed_agree; [| exact Hp].
  unfold agree. repeat split. left. repeat split.
Qed.

End IndicatorFacts.

(** C1 (as amended).  For a period between 1 and 101 and every candle
    sequence: each of the first [period - 1] calls returns [(None, None)] and
    stores no ATR; the call for candle number [period] returns a value and
    stores as ATR the arithmetic mean of the true ranges of the first
    [period] candles (high - low for the first one); and every later call
    returns a value and stores [(prev_ATR * (period - 1) + TR) / period], TR
    being taken against the close of the previous candle. *)
Theorem C1_warmup_mean_then_wilder (period : Z) (multiplier : Q)
    (cs : list Indicator.Candle) (k : Indicator.Candle)
    (Hperiod : (1 <= period <= 101)%Z) :
  let before := Indicator.state_after period multiplier cs in
  let call := Indicator.add_candle before
                (Indicator.high k) (Indicator.low k) (Indicator.close k) in
  let n := (Py.len cs + 1)%Z in
  ((n < period)%Z ->
     snd call = Py.Ok None /\ Indicator.atr_values (fst call) = [])
  /\ ((n = period)%Z ->
        (exists v sig, snd call = Py.Ok (Some (v, sig)))
        /\ Indicator.atr_values (fst call)
           = [Py.sum (Indicator.true_ranges (cs ++ [k])) / inject_Z period])
  /\ ((period < n)%Z ->
        (exists v sig, snd call = Py.Ok (Some (v, sig)))
        /\ exists prev_atr prev,
             Py.item_neg (Indicator.atr_values before) 1 = Some prev_atr
             /\ Py.item_neg cs 1 = Some prev
             /\ Py.item_neg (Indicator.atr_values (fst call)) 1
                = Some ((prev_atr * inject_Z (period - 1)
                         + Indicator.true_range (Indicator.high k) (Indicator.low k)
                             (Indicator.close prev)) / inject_Z period)).
Proof.
  intros before call n.
  pose proof (@fed_step period multiplier Hperiod cs before k
                (fed_state_after multiplier Hperiod cs)) as H.
  cbv zeta in H. destruct H as [_ H]. exact H.
Qed.

Lemma C1_warmup_mean_then_wilder_witness :
  let k1 := Indicator.mkCandle 105 99 101 in
  let k2 := Indicator.mkCandle 104 100 103 in
  let k3 := Indicator.mkCandle 108 102 107 in
  (exists v sig,
     snd (Indicator.add_candle (Indicator.state_after 2 4 [k1; k2]) 108 102 107)
     = Py.Ok (Some (v, sig)))
  /\ exists prev_atr,
       Py.item_neg (Indicator.atr_values (Indicator.state_after 2 4 [k1; k2])) 1
       = Some prev_atr
       /\ Py.item_neg
            (Indicator.atr_values
               (fst (Indicator.add_candle (Indicator.state_after 2 4 [k1; k2]) 108 102 107))) 1
          = Some ((prev_atr * inject_Z (2 - 1) + Indicator.true_range 108 102 103)
                  / inject_Z 2).
Proof.
  intros k1 k2 k3.
  assert (Hp : (1 <= 2 <= 101)%Z) by lia.
  destruct (@C1_warmup_mean_then_wilder 2 4 [k1; k2] k3 Hp) as [_ [_ H]].
  destruct H as [Hout [prev_atr [prev [Ha [Hprev Hnew]]]]].
  - vm_compute. reflexivity.
  - split; [exact Hout |]. exists prev_atr. split; [exact Ha |].
    injection Hprev as <-. exact Hnew.
Defined.

(** C1 as stated fails outside that range of periods.  With
    period 102, candle 103 comes after the first output (candle 102), yet its
    call returns [(None, None)] and stores no ATR.  With period 0 the very
    first call returns a value, with an ATR of 0 that is the mean of no true
    range. *)
Lemma C1_counterexample :
  let flat := Indicator.mkCandle 100 100 100 in
  (let before := Indicator.state_after 102 4 (repeat flat 102) in
   let call := Indicator.add_candle before 100 100 100 in
   (102 < Py.len (repeat flat 102) + 1)%Z
   /\ (exists v sig,
         nth_error (Indicator.outputs 102 4 (repeat flat 102)) 101
         = Some (Py.Ok (Some (v, sig))))
   /\ snd call = Py.Ok None
   /\ Indicator.atr_values (fst call) = Indicator.atr_values before)
  /\ (exists v sig, Indicator.outputs 0 4 [flat] = [Py.Ok (Some (v, sig))])
  /\ Indicator.atr_values (Indicator.state_after 0 4 [flat]) = [0].
Proof.
  cbv zeta. split; [| split].
  - split; [vm_compute; reflexivity |].
    split; [vm_compute; eauto |].
    split; vm_compute; reflexivity.
  - vm_compute. eauto.
  - vm_compute. reflexivity.
Qed.

(** C2 (as amended).  With period 7 and multiplier 4, seven candles with
    high = low = close = 100 give no output six times and then the first
    output: every true range is 0, the ATR is 0, both bands are 100, the
    value is 100, and since the close is not above the upper band the
    direction is -1, signal RED. *)
Theorem C2_flat_candles_first_emission_is_red :
  let cs := repeat (Indicator.mkCandle 100 100 100) 7 in
  exists v atr b,
    Indicator.outputs 7 4 cs
    = repeat (Py.Ok None) 6 ++ [Py.Ok (Some (v, Indicator.RED))]
    /\ v == 100
    /\ Forall (fun tr => tr == 0) (Indicator.true_ranges cs)
    /\ Indicator.atr_values (Indicator.state_after 7 4 cs) = [atr]
    /\ atr == 0
    /\ Indicator.supertrend_values (Indicator.state_after 7 4 cs) = [b]
    /\ Indicator.upper b == 100 /\ Indicator.lower b == 100
    /\ Indicator.value b == 100 /\ Indicator.direction b = (-1)%Z.
Proof.
  intros cs. subst cs. do 3 eexists.
  split; [vm_compute; reflexivity |].
  split; [vm_compute; reflexivity |].
  split; [repeat constructor |].
  split; [vm_compute; reflexivity |].
  split; [vm_compute; reflexivity |].
  split; [vm_compute; reflexivity |].
  repeat split; vm_compute; reflexivity.
Qed.

(** C2 as stated fails: the first output of the seven flat
    candles is not GREEN. *)
Lemma C2_counterexample :
  ~ exists v,
      nth_error (Indicator.outputs 7 4 (repeat (Indicator.mkCandle 100 100 100) 7)) 6
      = Some (Py.Ok (Some (v, Indicator.GREEN))).
Proof.
  intros [v H]. vm_compute in H. discriminate.
Qed.

(** C9, at the failing input.  With period 102 the trim changes the
    output: on 103 flat candles the computation that keeps the full history
    returns a value for candle 103, and [add_candle], whose buffer was cut to
    100 candles after candle 102, returns [(None, None)]. *)
Theorem C9_trim_changes_output_beyond_101 :
  let cs := repeat (Indicator.mkCandle 100 100 100) 103 in
  firstn 102 (Indicator.outputs 102 4 cs)
  = firstn 102 (Indicator.outputs_full_history 102 4 cs)
  /\ nth_error (Indicator.outputs 102 4 cs) 102 = Some (Py.Ok None)
  /\ (exists v sig,
        nth_error (Indicator.outputs_full_history 102 4 cs) 102
        = Some (Py.Ok (Some (v, sig))))
  /\ Indicator.outputs 102 4 cs <> Indicator.outputs_full_history 102 4 cs.
Proof.
  intros cs. subst cs. split; [vm_compute; reflexivity |].
  split; [vm_compute; reflexivity |].
  split; [vm_compute; eauto |].
  intros E.
  assert (H : nth_error (Indicator.outputs 102 4
                           (repeat (Indicator.mkCandle 100 100 100) 103)) 102
              = nth_error (Indicator.outputs_full_history 102 4
                             (repeat (Indicator.mkCandle 100 100 100) 103)) 102)
    by (rewrite E; reflexivity).
  vm_compute in H. discriminate.
Qed.

(** ** The trailing stop *)

Section TrailingStop.

Import Bot.

Variable cfg : Config.

Lemma stop_le_refl (a : option Q) : stop_le a a.
Proof. destruct a; simpl; [apply Qle_refl | exact I]. Qed.

Lemma stop_le_trans (a b c : option Q) : stop_le a b -> stop_le b c -> stop_le a c.
Proof.
  destruct a, b, c; simpl; try tauto. apply Qle_trans.
Qed.

(** One call never lowers the stop, whether it returns or raises. *)
Lemma check_trailing_sl_stop_le (ltp : Q) (w : World) :
  stop_le (trailing_sl (self w)) (trailing_sl (self (fst (check_trailing_sl cfg ltp w)))).
Proof.
  unfold check_trailing_sl.
  destruct w as [[d pos e sl hp st lx] bs lv log].
  cbn [self current_position entry_price highest_profit trailing_sl with_self
       set_highest_profit].
  destruct pos as [p |]; [| apply stop_le_refl].
  destruct sl as [sl |];
    repeat break_match; simpl in *; try exact I; try apply Qle_refl; try discriminate;
    match goal with H : Some _ = Some _ |- _ => injection H as -> end;
    apply Qlt_le_weak; assumption.
Qed.

End TrailingStop.

(** C3. Over any sequence of option prices passed to [check_trailing_sl],
    the stop level never decreases and, once set, stays set: each stop of the
    sequence is below all the later ones. *)
Theorem C3_trailing_stop_monotone (cfg : Bot.Config) (prices : list Q) (w : Bot.World) :
  StronglySorted Bot.stop_le
    (Bot.trailing_sl (Bot.self w) :: Bot.stops_after cfg prices w)
  /\ forall ltp : Q,
       Bot.stop_le (Bot.trailing_sl (Bot.self w))
         (Bot.trailing_sl (Bot.self (fst (Bot.check_trailing_sl cfg ltp w)))).
Proof.
  split; [| intros ltp; apply check_trailing_sl_stop_le].
  revert w. induction prices as [| ltp prices IH]; intros w.
  - constructor; constructor.
  - cbn [Bot.stops_after].
    specialize (IH (fst (Bot.check_trailing_sl cfg ltp w))).
    constructor; [exact IH |].
    pose proof (check_trailing_sl_stop_le cfg ltp w) as Hstep.
    apply StronglySorted_inv in IH. destruct IH as [_ Hall].
    constructor; [exact Hstep |].
    eapply Forall_impl; [| exact Hall].
    intros a Ha. eapply stop_le_trans; eassumption.
Qed.

(** ** The level of the trailing stop and its breach *)

Lemma int_floor (q : Q) : 0 <= q -> Py.int q = Qfloor q.
Proof.
  intros H. destruct q as [n d]. unfold Py.int, Qfloor. cbn [Qnum Qden].
  apply Z.quot_div_nonneg; [| reflexivity].
  unfold Qle in H. simpl in H. lia.
Qed.

Lemma div_nonzero (a b : Q) : ~ b == 0 -> Py.div a b = Py.Ok (a / b).
Proof.
  intros H. unfold Py.div. destruct (Qeq_bool b 0) eqn:E; [| reflexivity].
  apply Qeq_bool_eq in E. contradiction.
Qed.

Ltac bot_cbn :=
  cbn [fst snd Bot.self Bot.bot_state Bot.loop Bot.store
       Bot.dhan Bot.current_position Bot.entry_price Bot.trailing_sl Bot.highest_profit
       Bot.supertrend Bot.last_exit_candle_time
       Bot.with_self Bot.with_bot_state Bot.with_loop Bot.record
       Bot.set_highest_profit Bot.set_trailing_sl Bot.set_supertrend
       Bot.set_last_exit_candle_time Bot.set_position
       Bot.set_bs_trailing_sl Bot.set_index_ltp Bot.set_current_option_ltp Bot.set_signal
       Bot.mode Bot.bs_current_position Bot.daily_trades Bot.daily_pnl
       Bot.daily_max_loss_triggered Bot.last_supertrend_signal Bot.index_ltp
       Bot.supertrend_value Bot.bs_trailing_sl Bot.bs_entry_price Bot.current_option_ltp
       Bot.max_drawdown Bot.candle_start_time Bot.candle_high Bot.candle_low
       Bot.candle_close] in *.

Section TrailingFormula.

Import Bot.

Variable cfg : Config.
Hypothesis Hstep : 0 < trail_step cfg.

Lemma levels_mono (a b : Q) :
  a <= b ->
  (Qfloor ((a - trail_start_profit cfg) / trail_step cfg)
   <= Qfloor ((b - trail_start_profit cfg) / trail_step cfg))%Z.
Proof.
  intros H. apply Qfloor_resp_le. unfold Qdiv.
  apply Qmult_le_compat_r; [lra |].
  apply Qlt_le_weak, Qinv_lt_0_compat, Hstep.
Qed.

Lemma levels_nonneg (a : Q) :
  trail_start_profit cfg <= a -> 0 <= (a - trail_start_profit cfg) / trail_step cfg.
Proof.
  intros H. unfold Qdiv. apply Qmult_le_0_compat; [lra |].
  apply Qlt_le_weak, Qinv_lt_0_compat, Hstep.
Qed.

Lemma check_trailing_sl_formula (ltp : Q) (w : World) :
  current_position (self w) <> None ->
  stop_formula cfg w ->
  let r := check_trailing_sl cfg ltp w in
  snd r = Py.Ok tt
  /\ stop_formula cfg (fst r)
  /\ entry_price (self (fst r)) = entry_price (self w)
  /\ current_position (self (fst r)) = current_position (self w)
  /\ (trailing_sl (self w) = None ->
      (trailing_sl (self (fst r)) <> None
       <-> trail_start_profit cfg <= ltp - entry_price (self w))).
Proof.
  intros Hpos Hinv r. subst r. unfold check_trailing_sl, stop_formula in *.
  destruct w as [[d pos e sl hp st lx] bs lv log].
  cbn [self current_position entry_price highest_profit trailing_sl] in *.
  destruct pos as [p |]; [| contradiction].
  assert (Hnz : ~ trail_step cfg == 0) by lra.
  destruct (Qlt_le_dec hp (ltp - e)) as [Hhp | Hhp];
    destruct (Qlt_le_dec (ltp - e) (trail_start_profit cfg)) as [Hlow | Hhigh];
    bot_cbn.
  - split; [reflexivity |]. split; [| split; [reflexivity | split; [reflexivity |]]].
    + destruct sl as [s |]; [| exact I]. destruct Hinv as [H1 _]. lra.
    + intros ->. split; [intros H; contradiction | intros H; lra].
  - rewrite (div_nonzero _ Hnz). bot_cbn.
    pose proof (levels_nonneg Hhigh) as Hq.
    rewrite (int_floor Hq).
    destruct sl as [s |].
    + destruct Hinv as [H1 H2].
      destruct (Qlt_le_dec s _) as [Hlt | Hge]; bot_cbn;
        (split; [reflexivity |]; split; [| split; [reflexivity | split; [reflexivity |]]]);
        try (intros; discriminate).
      * split; lra.
      * split; [lra |].
        pose proof (@levels_mono hp (ltp - e) ltac:(lra)) as Hm.
        set (n1 := Qfloor ((hp - trail_start_profit cfg) / trail_step cfg)) in *.
        set (n2 := Qfloor ((ltp - e - trail_start_profit cfg) / trail_step cfg)) in *.
        assert (Hle : inject_Z n2 <= inject_Z n1).
        { apply (Qmult_le_l _ _ (trail_step cfg) Hstep). lra. }
        rewrite <- Zle_Qle in Hle. assert (E : n1 = n2) by lia. rewrite <- E. exact H2.
    + bot_cbn.
      split; [reflexivity |]. split; [| split; [reflexivity | split; [reflexivity |]]].
      * split; lra.
      * intros _. split; [intros _; lra | intros _; discriminate].
  - split; [reflexivity |]. split; [| split; [reflexivity | split; [reflexivity |]]].
    + exact Hinv.
    + intros ->. split; [intros H; contradiction | intros H; lra].
  - rewrite (div_nonzero _ Hnz). bot_cbn.
    assert (Hs : trail_start_profit cfg <= hp) by lra.
    pose proof (levels_nonneg Hs) as Hq.
    rewrite (int_floor Hq).
    destruct sl as [s |].
    + destruct Hinv as [H1 H2].
      destruct (Qlt_le_dec s _) as [Hlt | Hge]; bot_cbn;
        (split; [reflexivity |]; split; [| split; [reflexivity | split; [reflexivity |]]]);
        try (intros; discriminate).
      * split; lra.
      * split; [lra | exact H2].
    + bot_cbn.
      split; [reflexivity |]. split; [| split; [reflexivity | split; [reflexivity |]]].
      * split; lra.
      * intros _. split; [intros _; lra | intros _; discriminate].
Qed.

Lemma after_prices_formula (prices : list Q) (w : World) :
  current_position (self w) <> None ->
  stop_formula cfg w ->
  stop_formula cfg (after_prices cfg prices w)
  /\ entry_price (self (after_prices cfg prices w)) = entry_price (self w)
  /\ current_position (self (after_prices cfg prices w)) = current_position (self w).
Proof.
  revert w. induction prices as [| ltp prices IH]; intros w Hpos Hinv.
  - repeat split; assumption.
  - cbn [after_prices fold_left].
    destruct (@check_trailing_sl_formula ltp w Hpos Hinv) as [_ [H1 [H2 [H3 _]]]].
    destruct (IH (fst (check_trailing_sl cfg ltp w))) as [I1 [I2 I3]].
    + rewrite H3. exact Hpos.
    + exact H1.
    + unfold after_prices in *. repeat split; [exact I1 | congruence | congruence].
Qed.

Lemma formula_stop_positive (w : World) (sl : Q) :
  stop_formula cfg w -> 0 < entry_price (self w) ->
  trailing_sl (self w) = Some sl -> Py.truthy sl = true.
Proof.
  unfold stop_formula. intros Hinv He Hsl. rewrite Hsl in Hinv.
  destruct Hinv as [H1 H2].
  pose proof (levels_nonneg H1) as Hq.
  apply Qfloor_resp_le in Hq. change (Qfloor 0) with 0%Z in Hq.
  rewrite Zle_Qle in Hq. change (inject_Z 0) with 0 in Hq.
  assert (0 <= trail_step cfg * inject_Z (Qfloor ((highest_profit (self w)
             - trail_start_profit cfg) / trail_step cfg))).
  { apply Qmult_le_0_compat; [lra | exact Hq]. }
  unfold Py.truthy. destruct (Qeq_bool sl 0) eqn:E; [| reflexivity].
  apply Qeq_bool_eq in E. lra.
Qed.

Lemma check_trailing_sl_on_close_breach (ltp : Q) (w : World) :
  current_position (self w) <> None ->
  stop_formula cfg w -> 0 < entry_price (self w) ->
  let updated := fst (check_trailing_sl cfg ltp w) in
  let on_close := check_trailing_sl_on_close cfg ltp w in
  (snd on_close = Py.Ok true
   <-> exists sl, trailing_sl (self updated) = Some sl /\ ltp <= sl)
  /\ (snd on_close = Py.Ok true -> current_position (self (fst on_close)) = None)
  /\ (snd on_close = Py.Ok true \/ snd on_close = Py.Ok false /\ fst on_close = updated).
Proof.
  intros Hpos Hinv He updated on_close. subst updated on_close.
  destruct (@check_trailing_sl_formula ltp w Hpos Hinv) as [Hok [H1 [H2 [H3 _]]]].
  unfold check_trailing_sl_on_close, bind.
  destruct (current_position (self w)) as [p |] eqn:Ep; [| contradiction].
  destruct (check_trailing_sl cfg ltp w) as [w1 r] eqn:E1.
  cbn [fst snd] in *. subst r.
  unfold sl_breached.
  destruct (trailing_sl (self w1)) as [sl |] eqn:Esl.
  - rewrite (@formula_stop_positive w1 sl H1) by (rewrite ?H2; assumption).
    cbn [andb].
    destruct (Qlt_le_dec sl ltp) as [Hlt | Hle]; cbn [fst snd].
    + split; [| split].
      * split; [discriminate |]. intros [sl' [E Hle]]. injection E as <-. lra.
      * discriminate.
      * right. split; reflexivity.
    + split; [| split].
      * split; [| reflexivity]. intros _. exists sl. split; [reflexivity | exact Hle].
      * intros _. unfold close_position. rewrite H3. reflexivity.
      * left. reflexivity.
  - cbn [fst snd]. split; [| split].
    + split; [discriminate |]. intros [sl' [E _]]. discriminate.
    + discriminate.
    + right. split; reflexivity.
Qed.

End TrailingFormula.

(** The scenario of the specification: entry 50, activation at a profit
    of 10, step 5. *)
Lemma scenario_stops :
  exists s1 s2 s3,
    Bot.stops_after Bot.default_config [60; 67; 53] (Bot.holding Bot.default_config Bot.CE Bot.SecSim 50)
    = [Some s1; Some s2; Some s3]
    /\ s1 == 50 /\ s2 == 55 /\ s3 == 55.
Proof.
  do 3 eexists. split; [vm_compute; reflexivity |].
  repeat split; vm_compute; reflexivity.
Qed.

Lemma scenario_stop_after_67 :
  exists s,
    Bot.trailing_sl
      (Bot.self (Bot.after_prices Bot.default_config [60; 67]
                   (Bot.holding Bot.default_config Bot.CE Bot.SecSim 50))) = Some s
    /\ s == 55.
Proof. eexists. split; vm_compute; reflexivity. Qed.

Lemma scenario_exit (p : Q) :
  p <= 55 ->
  snd (Bot.check_trailing_sl_on_close Bot.default_config p
         (Bot.after_prices Bot.default_config [60; 67]
            (Bot.holding Bot.default_config Bot.CE Bot.SecSim 50)))
  = Py.Ok true.
Proof.
  intros Hle.
  assert (Hs : 0 < Bot.trail_step Bot.default_config) by reflexivity.
  assert (Ho : Bot.current_position (Bot.self (Bot.holding Bot.default_config Bot.CE Bot.SecSim 50))
               <> None) by discriminate.
  assert (Hi : Bot.stop_formula Bot.default_config (Bot.holding Bot.default_config Bot.CE Bot.SecSim 50))
    by exact I.
  destruct (@after_prices_formula Bot.default_config Hs [60; 67] _ Ho Hi)
    as [Hi2 [He2 Hp2]].
  destruct scenario_stop_after_67 as [s [Hs2 Hs55]].
  remember (Bot.after_prices Bot.default_config [60; 67]
              (Bot.holding Bot.default_config Bot.CE Bot.SecSim 50)) as w2 eqn:Ew2.
  assert (Ho2 : Bot.current_position (Bot.self w2) <> None)
    by (rewrite Hp2; exact Ho).
  assert (He3 : 0 < Bot.entry_price (Bot.self w2)) by (rewrite He2; reflexivity).
  destruct (@check_trailing_sl_on_close_breach Bot.default_config Hs p w2 Ho2 Hi2 He3)
    as [Hbr _].
  apply Hbr.
  pose proof (check_trailing_sl_stop_le Bot.default_config p w2) as Hmono.
  rewrite Hs2 in Hmono.
  destruct (Bot.trailing_sl
              (Bot.self (fst (Bot.check_trailing_sl Bot.default_config p w2))))
    as [sl |]; [| contradiction].
  exists sl. split; [reflexivity |].
  unfold Bot.stop_le in Hmono. clear - Hmono Hs55 Hle. lra.
Qed.

(** C4. From a freshly entered position ([trailing_sl] unset) with a
    positive entry price and a positive step, after any sequence of prices:
    an unset stop becomes set exactly when the profit of the price reaches
    [trail_start_profit]; a set stop is
    entry_price + trail_step * floor((highest_profit - trail_start_profit) / trail_step);
    [check_trailing_sl_on_close] exits exactly when, after the update, the
    stop is set and the price is at or below it, and it never raises.  In the
    scenario (entry 50, start 10, step 5) the prices 60, 67, 53 give the
    stops 50, 55, 55, and after 60 and 67 every price at or below 55 exits. *)
Theorem C4_trailing_stop_level_and_breach (cfg : Bot.Config) (w0 : Bot.World)
    (prices : list Q) (ltp : Q)
    (Hstep : 0 < Bot.trail_step cfg)
    (Hentry : 0 < Bot.entry_price (Bot.self w0))
    (Hopen : Bot.current_position (Bot.self w0) <> None)
    (Hunset : Bot.trailing_sl (Bot.self w0) = None) :
  let entry := Bot.entry_price (Bot.self w0) in
  let w := Bot.after_prices cfg prices w0 in
  let updated := fst (Bot.check_trailing_sl cfg ltp w) in
  let on_close := Bot.check_trailing_sl_on_close cfg ltp w in
  (Bot.trailing_sl (Bot.self w) = None ->
     (Bot.trailing_sl (Bot.self updated) <> None
      <-> Bot.trail_start_profit cfg <= ltp - entry))
  /\ (forall sl, Bot.trailing_sl (Bot.self updated) = Some sl ->
        sl == entry + Bot.trail_step cfg
                      * inject_Z (Qfloor ((Bot.highest_profit (Bot.self updated)
                                           - Bot.trail_start_profit cfg)
                                          / Bot.trail_step cfg)))
  /\ (snd on_close = Py.Ok true
      <-> exists sl, Bot.trailing_sl (Bot.self updated) = Some sl /\ ltp <= sl)
  /\ (snd on_close = Py.Ok true ->
        Bot.current_position (Bot.self (fst on_close)) = None)
  /\ (snd on_close = Py.Ok true \/ snd on_close = Py.Ok false /\ fst on_close = updated)
  /\ (let w50 := Bot.holding Bot.default_config Bot.CE Bot.SecSim 50 in
      (exists s1 s2 s3,
         Bot.stops_after Bot.default_config [60; 67; 53] w50 = [Some s1; Some s2; Some s3]
         /\ s1 == 50 /\ s2 == 55 /\ s3 == 55)
      /\ forall p : Q, p <= 55 ->
           snd (Bot.check_trailing_sl_on_close Bot.default_config p
                  (Bot.after_prices Bot.default_config [60; 67] w50))
           = Py.Ok true).
Proof.
  intros entry w updated on_close.
  assert (Hinv0 : Bot.stop_formula cfg w0).
  { unfold Bot.stop_formula. rewrite Hunset. exact I. }
  destruct (@after_prices_formula cfg Hstep prices w0 Hopen Hinv0) as [Hinv [He Hp]].
  fold w in Hinv, He, Hp.
  assert (Hopen' : Bot.current_position (Bot.self w) <> None) by (rewrite Hp; exact Hopen).
  destruct (@check_trailing_sl_formula cfg Hstep ltp w Hopen' Hinv)
    as [_ [Hinv1 [He1 [_ Hact]]]].
  fold updated in Hinv1, He1, Hact.
  destruct (@check_trailing_sl_on_close_breach cfg Hstep ltp w Hopen' Hinv)
    as [Hb1 [Hb2 Hb3]]; [rewrite He; exact Hentry |].
  fold updated on_close in Hb1, Hb2, Hb3.
  split; [| split; [| split; [| split; [| split]]]].
  - intros Hn. rewrite (Hact Hn), He. reflexivity.
  - intros sl Hsl. unfold Bot.stop_formula in Hinv1. rewrite Hsl in Hinv1.
    destruct Hinv1 as [_ H]. rewrite He1, He in H. exact H.
  - exact Hb1.
  - exact Hb2.
  - exact Hb3.
  - intros w50. split; [exact scenario_stops | exact scenario_exit].
Qed.

Lemma C4_trailing_stop_level_and_breach_witness :
  let w := Bot.after_prices Bot.default_config [60; 67]
             (Bot.holding Bot.default_config Bot.CE Bot.SecSim 50) in
  snd (Bot.check_trailing_sl_on_close Bot.default_config 53 w) = Py.Ok true
  /\ Bot.current_position
       (Bot.self (fst (Bot.check_trailing_sl_on_close Bot.default_config 53 w))) = None.
Proof.
  intros w.
  assert (Hstep : 0 < Bot.trail_step Bot.default_config) by reflexivity.
  assert (Hentry : 0 < Bot.entry_price (Bot.self (Bot.holding Bot.default_config Bot.CE Bot.SecSim 50)))
    by reflexivity.
  assert (Hopen : Bot.current_position (Bot.self (Bot.holding Bot.default_config Bot.CE Bot.SecSim 50))
                  <> None) by discriminate.
  destruct (@C4_trailing_stop_level_and_breach Bot.default_config
              (Bot.holding Bot.default_config Bot.CE Bot.SecSim 50) [60; 67] 53
              Hstep Hentry Hopen eq_refl) as [_ [_ [Hb [Hc _]]]].
  assert (H : snd (Bot.check_trailing_sl_on_close Bot.default_config 53 w) = Py.Ok true).
  { apply scenario_exit. discriminate. }
  split; [exact H | exact (Hc H)].
Defined.

(** Outside the domain of C4: with an entry price of 0 the first stop is
    0.0, which [self.trailing_sl and ...] reads as unset, so a price of 0
    does not exit although the stop is set and the price is not above it. *)
Lemma zero_stop_is_not_breached :
  let w := Bot.after_prices Bot.default_config [10]
             (Bot.holding Bot.default_config Bot.CE (Bot.SecBroker 4242) 0) in
  (exists s, Bot.trailing_sl (Bot.self w) = Some s /\ s == 0)
  /\ snd (Bot.check_trailing_sl_on_close Bot.default_config 0 w) = Py.Ok false.
Proof.
  cbv zeta. split; [eexists; split; vm_compute; reflexivity |].
  vm_compute. reflexivity.
Qed.

(** ** The ledger over one iteration of the loop *)

Section Ledger.

Import Bot.

Variable cfg : Config.

Ltac open_world w :=
  destruct w as [[d pos e sl hp st lx] [md bpos dt dp fl sg il sv bsl be col mdd] lv log].

Lemma close_position_ledger (px pnl : Q) (r : ExitReason) (w : World) (p : Position) :
  current_position (self w) = Some p ->
  let w' := close_position cfg px pnl r w in
  store w' = Exited (trade_id p) px pnl r :: store w
  /\ current_position (self w') = None
  /\ trailing_sl (self w') = None
  /\ last_exit_candle_time (self w') = last_exit_candle_time (self w)
  /\ daily_trades (bot_state w') = daily_trades (bot_state w)
  /\ daily_pnl (bot_state w') = daily_pnl (bot_state w) + pnl
  /\ daily_max_loss_triggered (bot_state w')
     = (if Qlt_le_dec (daily_pnl (bot_state w) + pnl) (- daily_max_loss cfg)
        then true else daily_max_loss_triggered (bot_state w)).
Proof.
  intros Hp w'. subst w'. unfold close_position. rewrite Hp.
  open_world w. repeat split.
Qed.

Lemma check_trailing_sl_ledger (ltp : Q) (w : World) :
  ledger_view (fst (check_trailing_sl cfg ltp w)) = ledger_view w.
Proof.
  unfold check_trailing_sl. open_world w. bot_cbn.
  destruct pos as [p |]; [| reflexivity].
  repeat break_match; reflexivity.
Qed.

Lemma check_trailing_sl_on_close_ledger (ltp : Q) (w : World) :
  let r := check_trailing_sl_on_close cfg ltp w in
  (snd r = Py.Ok true
   /\ (exists id pnl, store (fst r) = Exited id ltp pnl TrailingSLHit :: store w)
   /\ current_position (self w) <> None
   /\ current_position (self (fst r)) = None
   /\ last_exit_candle_time (self (fst r)) = last_exit_candle_time (self w)
   /\ daily_trades (bot_state (fst r)) = daily_trades (bot_state w))
  \/ (snd r <> Py.Ok true /\ ledger_view (fst r) = ledger_view w).
Proof.
  intros r. subst r. unfold check_trailing_sl_on_close, bind.
  destruct (current_position (self w)) as [p |] eqn:Ep.
  - pose proof (check_trailing_sl_ledger ltp w) as Hv.
    destruct (check_trailing_sl cfg ltp w) as [w1 r1]. cbn [fst] in Hv.
    unfold ledger_view in Hv. injection Hv as H1 H2 H3 H4 H5.
    destruct r1 as [[] | ex]; cbn [fst snd].
    + destruct (sl_breached ltp w1); cbn [fst snd].
      * left.
        assert (Hp1 : current_position (self w1) = Some p) by congruence.
        destruct (@close_position_ledger ltp
                    ((ltp - entry_price (self w1)) * inject_Z (qty cfg))
                    TrailingSLHit w1 p Hp1) as [C1 [C2 [_ [C4 [C5 _]]]]].
        split; [reflexivity |]. split; [do 2 eexists; rewrite C1, H1; reflexivity |].
        split; [discriminate |]. split; [exact C2 |]. split; congruence.
      * right. split; [discriminate |]. unfold ledger_view. congruence.
    + right. split; [discriminate |]. unfold ledger_view. congruence.
  - right. cbn [fst snd]. split; [discriminate | reflexivity].
Qed.

Lemma enter_position_ledger (env : Env) (ot : OptionType) (k : Z) (ltp : Q) (w : World) :
  let w' := enter_position cfg env ot k ltp w in
  w' = w
  \/ exists p e q,
       store w' = Entered p e q :: store w
       /\ current_position (self w') = Some p
       /\ daily_max_loss_triggered (bot_state w') = daily_max_loss_triggered (bot_state w)
       /\ last_exit_candle_time (self w') = last_exit_candle_time (self w)
       /\ daily_trades (bot_state w') = (daily_trades (bot_state w) + 1)%Z.
Proof.
  intros w'. subst w'. unfold enter_position. open_world w. bot_cbn.
  repeat break_match; try (left; reflexivity);
    right; do 3 eexists; repeat split.
Qed.

Lemma process_signal_on_close_ledger (env : Env) (sig : Indicator.Signal) (ltp : Q)
    (w : World) :
  let r := process_signal_on_close cfg env sig ltp w in
  (snd r = true
   /\ (exists id px pnl, store (fst r) = Exited id px pnl SuperTrendReversal :: store w)
   /\ current_position (self w) <> None
   /\ current_position (self (fst r)) = None
   /\ daily_trades (bot_state (fst r)) = daily_trades (bot_state w))
  \/ (snd r = false /\ fst r = w)
  \/ (snd r = false
      /\ current_position (self w) = None
      /\ can_take_new_trade env = true
      /\ (daily_trades (bot_state w) < max_trades_per_day cfg)%Z
      /\ exists p e q,
           store (fst r) = Entered p e q :: store w
           /\ current_position (self (fst r)) = Some p
           /\ daily_max_loss_triggered (bot_state (fst r))
              = daily_max_loss_triggered (bot_state w)
           /\ last_exit_candle_time (self (fst r)) = last_exit_candle_time (self w)
           /\ daily_trades (bot_state (fst r)) = (daily_trades (bot_state w) + 1)%Z).
Proof.
  intros r. subst r. unfold process_signal_on_close.
  destruct (current_position (self w)) as [p |] eqn:Ep.
  - assert (Hrev : forall px pnl,
              let w' := close_position cfg px pnl SuperTrendReversal w in
              (exists id px pnl, store w' = Exited id px pnl SuperTrendReversal :: store w)
              /\ Some p <> None
              /\ current_position (self w') = None
              /\ daily_trades (bot_state w') = daily_trades (bot_state w)).
    { intros px pnl w'. subst w'.
      destruct (@close_position_ledger px pnl SuperTrendReversal w p Ep)
        as [C1 [C2 [_ [_ [C5 _]]]]].
      split; [eauto |]. split; [discriminate |]. split; assumption. }
    destruct (option_type p), sig; cbn [fst snd];
      try (right; left; split; reflexivity);
      left; (split; [reflexivity | apply Hrev]).
  - destruct (can_take_new_trade env) eqn:Ec; cbn [negb];
      [| right; left; split; reflexivity].
    destruct (Z.leb_spec (max_trades_per_day cfg) (daily_trades (bot_state w)));
      [right; left; split; reflexivity |].
    cbn [fst snd].
    match goal with |- context [enter_position cfg env ?ot ?k ltp w] =>
      destruct (@enter_position_ledger env ot k ltp w) as [Hsame | Hent] end.
    + right; left. split; [reflexivity | exact Hsame].
    + right; right. repeat split; try assumption; try lia.
Qed.

Lemma ledger_step_pre (env : Env) (now : Q) (w0 w w' : World) :
  ledger_view w0 = ledger_view w ->
  ledger_step cfg env now w0 w' -> ledger_step cfg env now w w'.
Proof.
  unfold ledger_view. intros Hv Hs. injection Hv as H1 H2 H3 H4 H5.
  destruct Hs as [Hi | id px pnl r E1 E2 E3 E4 E5 E6 | p e q E1 E2 E3 E4 E5 E6 E7 E8 E9].
  - apply ledger_idle. unfold ledger_view in *. congruence.
  - apply (@ledger_exit cfg env now w w' id px pnl r); congruence.
  - apply (@ledger_entry cfg env now w w' p e q); try congruence.
    unfold cooldown_over in *. rewrite <- H3. exact E6.
Qed.

Lemma ledger_step_post (env : Env) (now : Q) (w w1 w' : World) :
  ledger_step cfg env now w w1 ->
  ledger_view w' = ledger_view w1 -> ledger_step cfg env now w w'.
Proof.
  unfold ledger_view. intros Hs Hv. injection Hv as H1 H2 H3 H4 H5.
  destruct Hs as [Hi | id px pnl r E1 E2 E3 E4 E5 E6 | p e q E1 E2 E3 E4 E5 E6 E7 E8 E9].
  - apply ledger_idle. unfold ledger_view in *. congruence.
  - apply (@ledger_exit cfg env now w w' id px pnl r); congruence.
  - apply (@ledger_entry cfg env now w w' p e q); congruence.
Qed.

Lemma daily_reset_ledger (env : Env) (w : World) :
  store (daily_reset env w) = store w
  /\ current_position (self (daily_reset env w)) = current_position (self w)
  /\ trailing_sl (self (daily_reset env w)) = trailing_sl (self w)
  /\ highest_profit (self (daily_reset env w)) = highest_profit (self w)
  /\ (at_daily_reset env = true ->
        daily_max_loss_triggered (bot_state (daily_reset env w)) = false
        /\ daily_trades (bot_state (daily_reset env w)) = 0%Z
        /\ daily_pnl (bot_state (daily_reset env w)) = 0
        /\ last_exit_candle_time (self (daily_reset env w)) = None)
  /\ (at_daily_reset env = false ->
        daily_reset env w = w).
Proof.
  unfold daily_reset.
  destruct (at_daily_reset env); repeat split; discriminate.
Qed.

Lemma squareoff_ledger (env : Env) (w : World) :
  squareoff cfg env w = w
  \/ exists p px pnl,
       current_position (self w) = Some p
       /\ store (squareoff cfg env w) = Exited (trade_id p) px pnl ForceSquareOff :: store w
       /\ current_position (self (squareoff cfg env w)) = None
       /\ trailing_sl (self (squareoff cfg env w)) = None
       /\ last_exit_candle_time (self (squareoff cfg env w))
          = last_exit_candle_time (self w)
       /\ daily_trades (bot_state (squareoff cfg env w)) = daily_trades (bot_state w).
Proof.
  unfold squareoff.
  destruct (current_position (self w)) as [p |] eqn:Ep; [| left; reflexivity].
  assert (Hc : forall px pnl,
            exists p0 px0 pnl0,
              Some p = Some p0
              /\ store (close_position cfg px pnl ForceSquareOff w)
                 = Exited (trade_id p0) px0 pnl0 ForceSquareOff :: store w
              /\ current_position (self (close_position cfg px pnl ForceSquareOff w)) = None
              /\ trailing_sl (self (close_position cfg px pnl ForceSquareOff w)) = None
              /\ last_exit_candle_time (self (close_position cfg px pnl ForceSquareOff w))
                 = last_exit_candle_time (self w)
              /\ daily_trades (bot_state (close_position cfg px pnl ForceSquareOff w))
                 = daily_trades (bot_state w)).
  { intros px pnl.
    destruct (@close_position_ledger px pnl ForceSquareOff w p Ep)
      as [C1 [C2 [C3 [C4 [C5 _]]]]].
    exists p, px, pnl. repeat split; assumption. }
  destruct (mode (bot_state w)); [right; apply Hc |].
  destruct (dhan (self w) && order_accepted (sell_order env));
    [right; apply Hc | left; reflexivity].
Qed.

Lemma force_squareoff_ledger (env : Env) (w : World) :
  force_squareoff cfg env w = w
  \/ should_force_squareoff env = true
     /\ exists p px pnl,
          current_position (self w) = Some p
          /\ store (force_squareoff cfg env w)
             = Exited (trade_id p) px pnl ForceSquareOff :: store w
          /\ current_position (self (force_squareoff cfg env w)) = None
          /\ trailing_sl (self (force_squareoff cfg env w)) = None
          /\ last_exit_candle_time (self (force_squareoff cfg env w))
             = last_exit_candle_time (self w)
          /\ daily_trades (bot_state (force_squareoff cfg env w))
             = daily_trades (bot_state w).
Proof.
  unfold force_squareoff.
  destruct (should_force_squareoff env); [| left; reflexivity].
  destruct (squareoff_ledger env w) as [H | H].
  - left. destruct (current_position (self w)); [exact H | reflexivity].
  - right. split; [reflexivity |].
    destruct H as [p [px [pnl [Hp H]]]]. rewrite Hp. exists p, px, pnl.
    split; [reflexivity | exact H].
Qed.

Lemma fetch_market_data_ledger (env : Env) (w : World) :
  self (fetch_market_data env w) = self w
  /\ store (fetch_market_data env w) = store w
  /\ daily_max_loss_triggered (bot_state (fetch_market_data env w))
     = daily_max_loss_triggered (bot_state w)
  /\ daily_trades (bot_state (fetch_market_data env w)) = daily_trades (bot_state w)
  /\ candle_start_time (loop (fetch_market_data env w)) = candle_start_time (loop w).
Proof.
  unfold fetch_market_data. open_world w. bot_cbn.
  repeat break_match; repeat split.
Qed.

Lemma simulate_paper_ltp_ledger (env : Env) (w : World) :
  self (simulate_paper_ltp env w) = self w
  /\ ledger_view (simulate_paper_ltp env w) = ledger_view w.
Proof.
  unfold simulate_paper_ltp. open_world w. bot_cbn.
  repeat break_match; split; reflexivity.
Qed.


Lemma force_squareoff_loop (env : Env) (w : World) :
  loop (force_squareoff cfg env w) = loop w.
Proof.
  unfold force_squareoff, squareoff, close_position.
  repeat break_match; reflexivity.
Qed.

(** An iteration that crosses no candle boundary leaves the attributes of
    the bot as the reset and the forced square-off left them. *)
Lemma run_loop_iteration_no_boundary (env : Env) (w : World) :
  boundary_crossed cfg env w = false ->
  let w1 := force_squareoff cfg env (daily_reset env w) in
  self (run_loop_iteration cfg env w) = self w1
  /\ store (run_loop_iteration cfg env w) = store w1.
Proof.
  intros Hb w1. unfold run_loop_iteration, run_loop_body. fold w1.
  destruct (is_market_open env); cbn [negb fst]; [| split; reflexivity].
  destruct (daily_max_loss_triggered (bot_state w1)); cbn [fst]; [split; reflexivity |].
  destruct (fetch_market_data_ledger env w1) as [F1 [F2 [_ [_ F5]]]].
  set (w2 := fetch_market_data env w1) in *.
  assert (Hb2 : boundary_crossed cfg env w2 = false).
  { unfold boundary_crossed in *. rewrite F5. subst w1.
    rewrite force_squareoff_loop.
    replace (loop (daily_reset env w)) with (loop w); [exact Hb |].
    unfold daily_reset. destruct (at_daily_reset env); reflexivity. }
  unfold bind, lift, candle_block. rewrite Hb2. cbn [fst].
  destruct (simulate_paper_ltp_ledger env w2) as [S1 S2].
  rewrite S1, F1. split; [reflexivity |].
  unfold ledger_view in S2. injection S2 as T1 _ _ _ _. rewrite T1. exact F2.
Qed.

(** *** At most one open trade *)

Lemma consistent_same (w w' : World) :
  store w' = store w -> current_position (self w') = current_position (self w) ->
  ledger_consistent w -> ledger_consistent w'.
Proof. unfold ledger_consistent. intros -> ->. tauto. Qed.

Lemma consistent_view (w w' : World) :
  ledger_view w' = ledger_view w -> ledger_consistent w -> ledger_consistent w'.
Proof.
  unfold ledger_view. intros Hv. injection Hv as H1 H2 _ _ _.
  apply consistent_same; assumption.
Qed.

Lemma consistent_exit (w w' : World) id px pnl r :
  ledger_consistent w -> current_position (self w) <> None ->
  store w' = Exited id px pnl r :: store w ->
  current_position (self w') = None ->
  ledger_consistent w'.
Proof.
  unfold ledger_consistent. intros [H1 H2] Hp Hs Hp'. rewrite Hs, Hp'.
  destruct (current_position (self w)); [| contradiction].
  cbn [at_most_one_open open_trades]. rewrite H2. cbn [pred]. repeat split; [lia | exact H1].
Qed.

Lemma consistent_entry (w w' : World) p e q :
  ledger_consistent w -> current_position (self w) = None ->
  store w' = Entered p e q :: store w ->
  current_position (self w') = Some p ->
  ledger_consistent w'.
Proof.
  unfold ledger_consistent. intros [H1 H2] Hp Hs Hp'. rewrite Hs, Hp'.
  rewrite Hp in H2.
  cbn [at_most_one_open open_trades]. rewrite H2. repeat split; [lia | exact H1].
Qed.

Lemma squareoff_consistent (env : Env) (w : World) :
  ledger_consistent w -> ledger_consistent (squareoff cfg env w).
Proof.
  intros H. destruct (squareoff_ledger env w) as [E | [p [px [pnl [Hp [Hs [Hp' _]]]]]]].
  - rewrite E. exact H.
  - eapply consistent_exit; try eassumption. rewrite Hp. discriminate.
Qed.

Lemma force_squareoff_consistent (env : Env) (w : World) :
  ledger_consistent w -> ledger_consistent (force_squareoff cfg env w).
Proof.
  intros H. unfold force_squareoff.
  destruct (should_force_squareoff env); [| exact H].
  destruct (current_position (self w)); [| exact H].
  apply squareoff_consistent. exact H.
Qed.

Lemma process_signal_on_close_consistent (env : Env) (sig : Indicator.Signal) (c : Q)
    (w : World) :
  ledger_consistent w ->
  ledger_consistent (fst (process_signal_on_close cfg env sig c w)).
Proof.
  intros H.
  pose proof (process_signal_on_close_ledger env sig c w) as L. cbv zeta in L.
  destruct L as [[_ [[id [px [pnl Hst]]] [Hp [Hp' _]]]] | [[_ Hsame] | Hent]].
  - eapply consistent_exit; eassumption.
  - rewrite Hsame. exact H.
  - destruct Hent as [_ [Hp [_ [_ [p [e [q [E1 [E2 _]]]]]]]]].
    eapply consistent_entry; eassumption.
Qed.

Lemma trading_logic_consistent (env : Env) (now : Q) (sig : Indicator.Signal) (c : Q)
    (w : World) :
  ledger_consistent w -> ledger_consistent (fst (trading_logic cfg env now sig c w)).
Proof.
  intros H. unfold trading_logic.
  assert (Hgo : ledger_consistent
            (fst (let '(w1, exited) := process_signal_on_close cfg env sig c w in
                  (if exited : bool
                   then with_self (set_last_exit_candle_time (Some now)) w1 else w1,
                   Py.Ok tt)))).
  { pose proof (@process_signal_on_close_consistent env sig c w H) as Hc.
    destruct (process_signal_on_close cfg env sig c w) as [w1 exited].
    cbn [fst] in *. destruct exited; [| exact Hc].
    eapply consistent_same; [| | exact Hc]; reflexivity. }
  destruct (last_exit_candle_time (self w)) as [t |]; [| exact Hgo].
  destruct (Qlt_le_dec (now - t) (inject_Z (candle_interval cfg))); [exact H | exact Hgo].
Qed.

Lemma trailing_check_consistent (now : Q) (w : World) :
  ledger_consistent w -> ledger_consistent (fst (trailing_check cfg now w)).
Proof.
  intros H. unfold trailing_check, bind, lift, ret.
  destruct (current_position (self w)) as [p |] eqn:Ep; [| exact H].
  pose proof (check_trailing_sl_on_close_ledger (current_option_ltp (bot_state w)) w) as L.
  cbv zeta in L.
  destruct (check_trailing_sl_on_close cfg (current_option_ltp (bot_state w)) w) as [w1 r].
  cbn [fst snd] in *.
  assert (H1 : ledger_consistent w1).
  { destruct L as [[_ [[id [pnl Hst]] [Hp [Hp' _]]]] | [_ Hv]].
    - eapply consistent_exit; eassumption.
    - eapply consistent_view; eassumption. }
  destruct r as [[|] | ex]; cbn [fst]; exact H1.
Qed.

Lemma on_signal_consistent (env : Env) (now v : Q) (sig : Indicator.Signal) (c : Q)
    (w : World) :
  ledger_consistent w -> ledger_consistent (fst (on_signal cfg env now v sig c w)).
Proof.
  intros H. unfold on_signal, bind, lift.
  set (w0 := with_bot_state (set_signal v sig) w).
  assert (H0 : ledger_consistent w0) by exact H.
  pose proof (@trailing_check_consistent now w0 H0) as H1.
  destruct (trailing_check cfg now w0) as [w1 r]. cbn [fst] in *.
  destruct r as [[] | ex]; [| exact H1].
  apply trading_logic_consistent. exact H1.
Qed.

Lemma on_candle_consistent (env : Env) (now h l c : Q) (w : World) :
  ledger_consistent w -> ledger_consistent (fst (on_candle cfg env now h l c w)).
Proof.
  intros H. unfold on_candle.
  destruct (Indicator.add_candle (supertrend (self w)) h l c) as [st r].
  set (w0 := with_self (set_supertrend st) w).
  assert (H0 : ledger_consistent w0) by exact H.
  destruct r as [[[v sig] |] | ex]; cbn [fst]; try exact H0.
  destruct (Py.truthy v); cbn [fst]; [| exact H0].
  apply on_signal_consistent. exact H0.
Qed.

Lemma candle_block_consistent (env : Env) (w : World) :
  ledger_consistent w -> ledger_consistent (fst (candle_block cfg env w)).
Proof.
  intros H. unfold candle_block.
  destruct (boundary_crossed cfg env w); cbn [fst]; [| exact H].
  unfold bind, lift, ret.
  destruct (candle_low (loop w)) as [l |];
    [destruct (Qlt_le_dec 0 (candle_high (loop w))) |]; try exact H.
  pose proof (@on_candle_consistent env (now_candle env) (candle_high (loop w)) l
                (candle_close (loop w)) w H) as H1.
  destruct (on_candle cfg env (now_candle env) (candle_high (loop w)) l
              (candle_close (loop w)) w) as [w1 r].
  cbn [fst] in *. destruct r as [[] | ex]; exact H1.
Qed.

Lemma run_loop_iteration_consistent (env : Env) (w : World) :
  ledger_consistent w -> ledger_consistent (run_loop_iteration cfg env w).
Proof.
  intros H. unfold run_loop_iteration, run_loop_body.
  assert (H0 : ledger_consistent (daily_reset env w)).
  { destruct (daily_reset_ledger env w) as [R1 [R2 _]].
    eapply consistent_same; eassumption. }
  pose proof (@force_squareoff_consistent env _ H0) as H1.
  set (w1 := force_squareoff cfg env (daily_reset env w)) in *.
  destruct (is_market_open env); cbn [negb fst]; [| exact H1].
  destruct (daily_max_loss_triggered (bot_state w1)); cbn [fst]; [exact H1 |].
  destruct (fetch_market_data_ledger env w1) as [F1 [F2 _]].
  set (w2 := fetch_market_data env w1) in *.
  assert (H2 : ledger_consistent w2).
  { eapply consistent_same; [exact F2 | rewrite F1; reflexivity | exact H1]. }
  pose proof (@candle_block_consistent env w2 H2) as H3.
  unfold bind, lift.
  destruct (candle_block cfg env w2) as [w3 r]. cbn [fst] in *.
  destruct r as [[] | ex]; cbn [fst]; [| exact H3].
  destruct (simulate_paper_ltp_ledger env w3) as [_ S2].
  eapply consistent_view; eassumption.
Qed.

Lemma reachable_consistent (m : Mode) (t0 : Q) (w : World) :
  reachable cfg m t0 w -> ledger_consistent w.
Proof.
  induction 1 as [| env w _ IH | env w _ IH].
  - unfold ledger_consistent. simpl. split; [exact I | reflexivity].
  - apply run_loop_iteration_consistent. exact IH.
  - apply squareoff_consistent. exact IH.
Qed.

Hypothesis Hinterval : (0 < candle_interval cfg)%Z.

Lemma trading_logic_ledger (env : Env) (now : Q) (sig : Indicator.Signal) (c : Q)
    (w : World) :
  ledger_step cfg env now w (fst (trading_logic cfg env now sig c w)).
Proof.
  unfold trading_logic.
  assert (Hgo : cooldown_over cfg now w ->
            ledger_step cfg env now w
              (fst (let '(w1, exited) := process_signal_on_close cfg env sig c w in
                    (if exited : bool
                     then with_self (set_last_exit_candle_time (Some now)) w1 else w1,
                     Py.Ok tt)))).
  { intros Hcool.
    pose proof (process_signal_on_close_ledger env sig c w) as H. cbv zeta in H.
    destruct (process_signal_on_close cfg env sig c w) as [w1 exited].
    cbn [fst snd] in *.
    destruct H as [[Hx [[id [px [pnl Hst]]] [Hp [Hp' Hd]]]] | [[Hx Hsame] | Hent]].
    - subst exited. cbn [fst].
      eapply ledger_exit with (reason := SuperTrendReversal);
        bot_cbn; try eassumption; try discriminate; reflexivity.
    - subst exited w1. apply ledger_idle. reflexivity.
    - destruct Hent as [Hx [Hp [Hc [Hd [p [e [q [E1 [E2 [E3 [E4 E5]]]]]]]]]]].
      subst exited. cbn [fst]. eapply ledger_entry; eassumption. }
  destruct (last_exit_candle_time (self w)) as [t |] eqn:Et.
  - destruct (Qlt_le_dec (now - t) (inject_Z (candle_interval cfg))) as [Hlt | Hge].
    + apply ledger_idle. reflexivity.
    + apply Hgo. unfold cooldown_over. rewrite Et. exact Hge.
  - apply Hgo. unfold cooldown_over. rewrite Et. exact I.
Qed.

Lemma interval_positive : 0 < inject_Z (candle_interval cfg).
Proof. change 0 with (inject_Z 0). rewrite <- Zlt_Qlt. exact Hinterval. Qed.

Lemma on_signal_ledger (env : Env) (now v : Q) (sig : Indicator.Signal) (c : Q)
    (w : World) :
  ledger_step cfg env now w (fst (on_signal cfg env now v sig c w)).
Proof.
  unfold on_signal, bind, lift.
  set (w0 := with_bot_state (set_signal v sig) w).
  apply (@ledger_step_pre env now w0 w); [reflexivity |].
  unfold trailing_check, bind, lift, ret.
  destruct (current_position (self w0)) as [p |] eqn:Ep.
  - pose proof (check_trailing_sl_on_close_ledger (current_option_ltp (bot_state w0)) w0)
      as H. cbv zeta in H.
    destruct (check_trailing_sl_on_close cfg (current_option_ltp (bot_state w0)) w0)
      as [w1 r].
    cbn [fst snd] in *.
    destruct H as [[Hr [[id [pnl Hst]] [Hp [Hp' [Hl Hd]]]]] | [Hr Hv]].
    + subst r.
      pose proof interval_positive as Hpos.
      unfold trading_logic. bot_cbn.
      destruct (Qlt_le_dec (now - now) (inject_Z (candle_interval cfg))) as [_ | Hge];
        [| lra].
      cbn [fst].
      eapply ledger_exit with (reason := TrailingSLHit);
        bot_cbn; try eassumption; try discriminate; reflexivity.
    + destruct r as [[|] | ex]; cbn [fst].
      * contradiction.
      * eapply ledger_step_pre; [exact Hv |]. apply trading_logic_ledger.
      * apply ledger_idle. exact Hv.
  - apply trading_logic_ledger.
Qed.

Lemma on_candle_ledger (env : Env) (now h l c : Q) (w : World) :
  ledger_step cfg env now w (fst (on_candle cfg env now h l c w)).
Proof.
  unfold on_candle.
  destruct (Indicator.add_candle (supertrend (self w)) h l c) as [st r].
  set (w0 := with_self (set_supertrend st) w).
  assert (Hv : ledger_view w0 = ledger_view w) by reflexivity.
  destruct r as [[[v sig] |] | ex]; cbn [fst];
    try (apply ledger_idle; exact Hv).
  destruct (Py.truthy v); cbn [fst]; [| apply ledger_idle; exact Hv].
  eapply ledger_step_pre; [exact Hv |]. apply on_signal_ledger.
Qed.

Lemma candle_block_ledger (env : Env) (w : World) :
  ledger_step cfg env (now_candle env) w (fst (candle_block cfg env w)).
Proof.
  unfold candle_block.
  destruct (boundary_crossed cfg env w); cbn [fst];
    [| apply ledger_idle; reflexivity].
  unfold bind, lift, ret.
  destruct (candle_low (loop w)) as [l |];
    [destruct (Qlt_le_dec 0 (candle_high (loop w))) |];
    try (apply ledger_idle; reflexivity).
  pose proof (on_candle_ledger env (now_candle env) (candle_high (loop w)) l
                (candle_close (loop w)) w) as H.
  destruct (on_candle cfg env (now_candle env) (candle_high (loop w)) l
              (candle_close (loop w)) w) as [w1 r].
  cbn [fst] in *.
  destruct r as [[] | ex]; cbn [fst]; [| exact H].
  eapply ledger_step_post; [exact H | reflexivity].
Qed.

(** One iteration: the reset and the forced square-off come first; past
    the two gates, the candle block makes one ledger step. *)
Lemma run_loop_iteration_ledger (env : Env) (w : World) :
  let w1 := force_squareoff cfg env (daily_reset env w) in
  let w' := run_loop_iteration cfg env w in
  ledger_step cfg env (now_candle env) w1 w'
  /\ (is_market_open env = false \/ daily_max_loss_triggered (bot_state w1) = true ->
      w' = w1).
Proof.
  intros w1 w'. subst w'. unfold run_loop_iteration, run_loop_body.
  fold w1.
  destruct (is_market_open env); cbn [negb fst];
    [| split; [apply ledger_idle; reflexivity | reflexivity]].
  destruct (daily_max_loss_triggered (bot_state w1)) eqn:Ef; cbn [fst];
    [split; [apply ledger_idle; reflexivity | reflexivity] |].
  destruct (fetch_market_data_ledger env w1) as [F1 [F2 [F3 [F4 F5]]]].
  set (w2 := fetch_market_data env w1) in *.
  assert (Hv2 : ledger_view w2 = ledger_view w1).
  { unfold ledger_view. rewrite F1, F2, F3, F4. reflexivity. }
  pose proof (candle_block_ledger env w2) as Hstep.
  unfold bind, lift.
  destruct (candle_block cfg env w2) as [w3 r]. cbn [fst] in *.
  destruct (simulate_paper_ltp_ledger env w3) as [S1 S2].
  split.
  - eapply ledger_step_pre; [exact Hv2 |].
    destruct r as [[] | ex]; cbn [fst]; [| exact Hstep].
    eapply ledger_step_post; [exact Hstep | exact S2].
  - intros [H | H]; discriminate.
Qed.

End Ledger.

(** ** The recorded exit and the clock *)

Section ExitTime.

Import Bot.

Variable cfg : Config.

Ltac open_world w :=
  destruct w as [[d pos e sl hp st lx] [md bpos dt dp fl sg il sv bsl be col mdd] lv log].

Lemma check_trailing_sl_on_close_clock (ltp : Q) (w : World) :
  loop (fst (check_trailing_sl_on_close cfg ltp w)) = loop w
  /\ last_exit_candle_time (self (fst (check_trailing_sl_on_close cfg ltp w)))
     = last_exit_candle_time (self w).
Proof.
  unfold check_trailing_sl_on_close, bind, check_trailing_sl, sl_breached, close_position.
  open_world w. bot_cbn.
  destruct pos as [p |]; [| split; reflexivity].
  repeat break_match; bot_cbn; split; try reflexivity;
    repeat match goal with
           | H : (_, _) = (_, _) |- _ => injection H as <- <-
           end; try reflexivity; try discriminate.
Qed.

Lemma process_signal_on_close_clock (env : Env) (sig : Indicator.Signal) (c : Q)
    (w : World) :
  loop (fst (process_signal_on_close cfg env sig c w)) = loop w
  /\ last_exit_candle_time (self (fst (process_signal_on_close cfg env sig c w)))
     = last_exit_candle_time (self w).
Proof.
  unfold process_signal_on_close, close_position, enter_position.
  open_world w. bot_cbn.
  repeat break_match; bot_cbn; split; reflexivity.
Qed.

Lemma trailing_check_clock (now : Q) (w : World) :
  exit_time_step now w (trailing_check cfg now w).
Proof.
  unfold exit_time_step, trailing_check, bind, lift, ret.
  destruct (current_position (self w)) as [p |]; [| split; [| left]; reflexivity].
  destruct (check_trailing_sl_on_close_clock (current_option_ltp (bot_state w)) w)
    as [H1 H2].
  destruct (check_trailing_sl_on_close cfg (current_option_ltp (bot_state w)) w)
    as [w1 r].
  cbn [fst] in *.
  destruct r as [[|] | ex]; cbn [fst snd]; bot_cbn.
  - split; [exact H1 | right; split; reflexivity].
  - split; [exact H1 | left; exact H2].
  - split; [exact H1 | left; exact H2].
Qed.

Lemma trading_logic_clock (env : Env) (now : Q) (sig : Indicator.Signal) (c : Q)
    (w : World) :
  exit_time_step now w (trading_logic cfg env now sig c w)
  /\ snd (trading_logic cfg env now sig c w) = Py.Ok tt.
Proof.
  unfold exit_time_step, trading_logic.
  assert (Hgo : let r := (let '(w1, exited) := process_signal_on_close cfg env sig c w in
                          (if exited : bool
                           then with_self (set_last_exit_candle_time (Some now)) w1
                           else w1, Py.Ok tt)) in
                (loop (fst r) = loop w
                 /\ (last_exit_candle_time (self (fst r)) = last_exit_candle_time (self w)
                     \/ last_exit_candle_time (self (fst r)) = Some now
                        /\ snd r = Py.Ok tt))
                /\ snd r = Py.Ok tt).
  { cbv zeta.
    destruct (process_signal_on_close_clock env sig c w) as [H1 H2].
    destruct (process_signal_on_close cfg env sig c w) as [w1 exited].
    cbn [fst] in *. destruct exited; cbn [fst snd]; bot_cbn.
    - split; [split; [exact H1 | right; split; reflexivity] | reflexivity].
    - split; [split; [exact H1 | left; exact H2] | reflexivity]. }
  cbv zeta in Hgo.
  destruct (last_exit_candle_time (self w)) as [t |] eqn:Et; [| exact Hgo].
  destruct (Qlt_le_dec (now - t) (inject_Z (candle_interval cfg))); [| exact Hgo].
  cbn [fst snd]. rewrite Et. split; [split; [| left]; reflexivity | reflexivity].
Qed.

Lemma on_signal_clock (env : Env) (now v : Q) (sig : Indicator.Signal) (c : Q)
    (w : World) :
  exit_time_step now w (on_signal cfg env now v sig c w).
Proof.
  unfold on_signal, bind, lift.
  set (w0 := with_bot_state (set_signal v sig) w).
  pose proof (trailing_check_clock now w0) as H1. unfold exit_time_step in *.
  change (loop w0) with (loop w) in H1.
  change (last_exit_candle_time (self w0)) with (last_exit_candle_time (self w)) in H1.
  destruct (trailing_check cfg now w0) as [w1 r]. cbn [fst snd] in *.
  destruct H1 as [L1 E1].
  destruct r as [[] | ex]; cbn [fst snd].
  - destruct (trading_logic_clock env now sig c w1) as [[L2 E2] Hok].
    split; [congruence |].
    destruct E2 as [E2 | [E2 _]].
    + destruct E1 as [E1 | [E1 _]].
      * left. congruence.
      * right. split; [congruence | exact Hok].
    + right. split; [exact E2 | exact Hok].
  - split; [exact L1 |]. destruct E1 as [E1 | [_ E1]]; [left; exact E1 | discriminate].
Qed.

Lemma on_candle_clock (env : Env) (now h l c : Q) (w : World) :
  exit_time_step now w (on_candle cfg env now h l c w).
Proof.
  unfold on_candle.
  destruct (Indicator.add_candle (supertrend (self w)) h l c) as [st r].
  set (w0 := with_self (set_supertrend st) w).
  assert (Hidle : forall r0, exit_time_step now w (w0, r0)).
  { intros r0. split; [| left]; reflexivity. }
  destruct r as [[[v sig] |] | ex]; try apply Hidle.
  destruct (Py.truthy v); [| apply Hidle].
  pose proof (on_signal_clock env now v sig c w0) as H.
  unfold exit_time_step in *.
  change (loop w0) with (loop w) in H.
  change (last_exit_candle_time (self w0)) with (last_exit_candle_time (self w)) in H.
  exact H.
Qed.

(** The candle block either leaves the candle and the recorded exit as
    they are, or restarts the candle at [now_reset]; it records an exit only
    in the second case, and then at [now_candle]. *)
Lemma candle_block_clock (env : Env) (w : World) :
  let w' := fst (candle_block cfg env w) in
  candle_start_time (loop w') = candle_start_time (loop w)
  /\ last_exit_candle_time (self w') = last_exit_candle_time (self w)
  \/ boundary_crossed cfg env w = true
     /\ candle_start_time (loop w') = now_reset env
     /\ (last_exit_candle_time (self w') = last_exit_candle_time (self w)
         \/ last_exit_candle_time (self w') = Some (now_candle env)).
Proof.
  intros w'. subst w'. unfold candle_block.
  destruct (boundary_crossed cfg env w); [| left; split; reflexivity].
  unfold bind, lift, ret.
  destruct (candle_low (loop w)) as [l |];
    [destruct (Qlt_le_dec 0 (candle_high (loop w))) |];
    try (right; split; [reflexivity |]; split; [| left]; reflexivity).
  pose proof (on_candle_clock env (now_candle env) (candle_high (loop w)) l
                (candle_close (loop w)) w) as H.
  unfold exit_time_step in H.
  destruct (on_candle cfg env (now_candle env) (candle_high (loop w)) l
              (candle_close (loop w)) w) as [w1 r].
  cbn [fst snd] in *. destruct H as [L E].
  destruct r as [[] | ex]; cbn [fst].
  - right. split; [reflexivity |]. split; [reflexivity |]. bot_cbn.
    destruct E as [E | [E _]]; [left | right]; exact E.
  - left. split; [congruence |].
    destruct E as [E | [_ E]]; [exact E | discriminate].
Qed.

Hypothesis Hinterval : (0 < candle_interval cfg)%Z.

Lemma run_loop_iteration_exit_before_candle (env : Env) (w : World) :
  clock_ordered env -> exit_before_candle w ->
  exit_before_candle (run_loop_iteration cfg env w).
Proof.
  intros [Hc1 Hc2] HJ. unfold run_loop_iteration, run_loop_body.
  assert (H0 : exit_before_candle (daily_reset env w)).
  { unfold daily_reset. destruct (at_daily_reset env); [exact I | exact HJ]. }
  assert (H1 : exit_before_candle (force_squareoff cfg env (daily_reset env w))).
  { unfold exit_before_candle. rewrite force_squareoff_loop.
    destruct (force_squareoff_ledger cfg env (daily_reset env w))
      as [E | [_ [p [px [pnl [_ [_ [_ [_ [Hl _]]]]]]]]]].
    - rewrite E. exact H0.
    - rewrite Hl. exact H0. }
  set (w1 := force_squareoff cfg env (daily_reset env w)) in *.
  destruct (is_market_open env); cbn [negb fst]; [| exact H1].
  destruct (daily_max_loss_triggered (bot_state w1)); cbn [fst]; [exact H1 |].
  destruct (fetch_market_data_ledger env w1) as [F1 [_ [_ [_ F5]]]].
  set (w2 := fetch_market_data env w1) in *.
  assert (H2 : exit_before_candle w2).
  { unfold exit_before_candle. rewrite F1, F5. exact H1. }
  pose proof (candle_block_clock env w2) as Hcb. cbv zeta in Hcb.
  unfold bind, lift.
  assert (H3 : exit_before_candle (fst (candle_block cfg env w2))).
  { unfold exit_before_candle in *.
    destruct Hcb as [[C1 C2] | [Hb [C1 C2]]].
    - rewrite C1, C2. exact H2.
    - rewrite C1.
      assert (Hstart : candle_start_time (loop w2) <= now_reset env).
      { unfold boundary_crossed in Hb.
        destruct (Qlt_le_dec (now_elapsed env - candle_start_time (loop w2))
                    (inject_Z (candle_interval cfg))) as [_ | Hge]; [discriminate |].
        pose proof (@interval_positive cfg Hinterval). lra. }
      destruct C2 as [C2 | C2]; rewrite C2.
      + destruct (last_exit_candle_time (self w2)); [lra | exact I].
      + exact Hc2. }
  destruct (candle_block cfg env w2) as [w3 r]. cbn [fst] in *.
  destruct r as [[] | ex]; cbn [fst]; [| exact H3].
  assert (S : self (simulate_paper_ltp env w3) = self w3
              /\ loop (simulate_paper_ltp env w3) = loop w3).
  { unfold simulate_paper_ltp. repeat break_match; split; reflexivity. }
  destruct S as [S1 S2]. unfold exit_before_candle. rewrite S1, S2. exact H3.
Qed.

Lemma steadily_reachable_exit_before_candle (m : Mode) (t0 : Q) (w : World) :
  steadily_reachable cfg m t0 w -> exit_before_candle w.
Proof.
  induction 1 as [| env w _ IH Hc | env w _ IH].
  - exact I.
  - apply run_loop_iteration_exit_before_candle; assumption.
  - assert (Hloop : loop (squareoff cfg env w) = loop w).
    { unfold squareoff, close_position. repeat break_match; reflexivity. }
    unfold exit_before_candle. rewrite Hloop.
    destruct (squareoff_ledger cfg env w) as [E | [p [px [pnl [_ [_ [_ [_ [Hl _]]]]]]]]].
    + rewrite E. exact IH.
    + rewrite Hl. exact IH.
Qed.

(** With a clock that does not go backwards, a candle time inside the
    cool-down is not a candle boundary at all. *)
Lemma inside_cooldown_no_boundary (env : Env) (w : World) (T : Q) :
  exit_before_candle w -> clock_ordered env ->
  last_exit_candle_time (self w) = Some T ->
  now_candle env - T < inject_Z (candle_interval cfg) ->
  boundary_crossed cfg env w = false.
Proof.
  unfold exit_before_candle, clock_ordered, boundary_crossed.
  intros HJ [Hc1 _] Hl Hin. rewrite Hl in HJ.
  destruct (Qlt_le_dec (now_elapsed env - candle_start_time (loop w))
              (inject_Z (candle_interval cfg))) as [_ | Hge]; [reflexivity | lra].
Qed.

End ExitTime.

(** ** The position, the daily loss limit and the cool-down *)

Lemma entries_exited (id : string) (px pnl : Q) (r : Bot.ExitReason) (st : list Bot.Event) :
  Bot.entries (Bot.Exited id px pnl r :: st) = Bot.entries st.
Proof. reflexivity. Qed.

Lemma entries_entered (p : Bot.Position) (e : Q) (q : Z) (st : list Bot.Event) :
  Bot.entries (Bot.Entered p e q :: st) = S (Bot.entries st).
Proof. reflexivity. Qed.

Lemma cons_neq {A : Type} (x : A) (l : list A) : x :: l <> l.
Proof.
  intros E. apply (f_equal (@List.length A)) in E. simpl in E. lia.
Qed.

(** The reset and the forced square-off add no entry to the store. *)
Lemma prelude_entries (cfg : Bot.Config) (env : Bot.Env) (w : Bot.World) :
  Bot.entries (Bot.store (Bot.force_squareoff cfg env (Bot.daily_reset env w)))
  = Bot.entries (Bot.store w)
  /\ Bot.last_exit_candle_time (Bot.self (Bot.force_squareoff cfg env (Bot.daily_reset env w)))
     = Bot.last_exit_candle_time (Bot.self (Bot.daily_reset env w)).
Proof.
  destruct (daily_reset_ledger env w) as [R1 _].
  destruct (force_squareoff_ledger cfg env (Bot.daily_reset env w))
    as [E | [_ [p [px [pnl [_ [Hs [_ [_ [Hl _]]]]]]]]]].
  - rewrite E, R1. split; reflexivity.
  - rewrite Hs, entries_exited, R1. split; [reflexivity | exact Hl].
Qed.

(** C5. In every state the bot can reach, the trade store never held two
    open trades and holds one exactly when the position slot is filled; a
    call of [process_signal_on_close] keeps it so, enters nothing while a
    position exists (it leaves the bot unchanged or closes the position), and
    from a flat state either changes nothing or records one entry and fills
    the slot with it. *)
Theorem C5_at_most_one_open_position (cfg : Bot.Config) (m : Bot.Mode) (t0 : Q)
    (w : Bot.World) (Hreach : Bot.reachable cfg m t0 w) :
  Bot.at_most_one_open (Bot.store w)
  /\ Bot.open_trades (Bot.store w)
     = match Bot.current_position (Bot.self w) with Some _ => 1%nat | None => 0%nat end
  /\ forall (env : Bot.Env) (signal : Indicator.Signal) (index_price : Q),
       let r := Bot.process_signal_on_close cfg env signal index_price w in
       Bot.ledger_consistent (fst r)
       /\ (Bot.current_position (Bot.self w) <> None ->
             Bot.entries (Bot.store (fst r)) = Bot.entries (Bot.store w)
             /\ (fst r = w \/ Bot.current_position (Bot.self (fst r)) = None))
       /\ (Bot.current_position (Bot.self w) = None ->
             fst r = w
             \/ exists p e q,
                  Bot.store (fst r) = Bot.Entered p e q :: Bot.store w
                  /\ Bot.current_position (Bot.self (fst r)) = Some p).
Proof.
  pose proof (reachable_consistent Hreach) as Hc.
  split; [exact (proj1 Hc) |]. split; [exact (proj2 Hc) |].
  intros env signal index_price r. subst r.
  split; [apply process_signal_on_close_consistent; exact Hc |].
  pose proof (process_signal_on_close_ledger cfg env signal index_price w) as L.
  cbv zeta in L.
  destruct L as [[_ [[id [px [pnl Hst]]] [Hp [Hp' _]]]] | [[_ Hsame] | Hent]].
  - split.
    + intros _. rewrite Hst, entries_exited. split; [reflexivity | right; exact Hp'].
    + intros Hn. contradiction.
  - rewrite Hsame. split; [intros _; split; [reflexivity | left; reflexivity] |].
    intros _. left. reflexivity.
  - destruct Hent as [_ [Hp [_ [_ [p [e [q [E1 [E2 _]]]]]]]]].
    split; [intros Hn; contradiction |].
    intros _. right. exists p, e, q. split; assumption.
Qed.

Lemma first_iteration_enters :
  Bot.current_position
    (Bot.self (Bot.run_loop_iteration Bot.fast_config (Bot.quiet_env 5 24337 0)
                 (Bot.initial Bot.fast_config Bot.Paper 0))) <> None.
Proof. vm_compute. discriminate. Qed.

Lemma C5_at_most_one_open_position_witness :
  let w := Bot.run_loop_iteration Bot.fast_config (Bot.quiet_env 5 24337 0)
             (Bot.initial Bot.fast_config Bot.Paper 0) in
  Bot.current_position (Bot.self w) <> None
  /\ Bot.at_most_one_open (Bot.store w)
  /\ Bot.open_trades (Bot.store w)
     = match Bot.current_position (Bot.self w) with Some _ => 1%nat | None => 0%nat end.
Proof.
  intros w.
  pose proof (@C5_at_most_one_open_position Bot.fast_config Bot.Paper 0 w
                (Bot.reach_iteration (Bot.quiet_env 5 24337 0)
                   (Bot.reach_initial Bot.fast_config Bot.Paper 0))) as H.
  split; [exact first_iteration_enters |].
  split; [exact (proj1 H) | exact (proj1 (proj2 H))].
Defined.

Lemma force_squareoff_flag (cfg : Bot.Config) (env : Bot.Env) (w : Bot.World) :
  Bot.daily_max_loss_triggered (Bot.bot_state w) = true ->
  Bot.daily_max_loss_triggered (Bot.bot_state (Bot.force_squareoff cfg env w)) = true.
Proof.
  intros Hf. unfold Bot.force_squareoff, Bot.squareoff.
  destruct (Bot.should_force_squareoff env); [| exact Hf].
  destruct (Bot.current_position (Bot.self w)) as [p |] eqn:Ep; [| exact Hf].
  assert (Hc : forall px pnl,
            Bot.daily_max_loss_triggered
              (Bot.bot_state (Bot.close_position cfg px pnl Bot.ForceSquareOff w)) = true).
  { intros px pnl.
    destruct (@close_position_ledger cfg px pnl Bot.ForceSquareOff w p Ep)
      as [_ [_ [_ [_ [_ [_ C]]]]]].
    rewrite C, Hf. destruct (Qlt_le_dec _ _); reflexivity. }
  destruct (Bot.mode (Bot.bot_state w)); [apply Hc |].
  destruct (Bot.dhan (Bot.self w) && Bot.order_accepted (Bot.sell_order env));
    [apply Hc | exact Hf].
Qed.

(** The scenario of the specification: a limit of 2000 and two losing
    exits of -1200 and -900. *)
Lemma scenario_daily_loss :
  let cfg := Bot.default_config in
  let w0 := Bot.holding cfg Bot.CE Bot.SecSim 50 in
  let w1 := Bot.close_position cfg 26 (-1200) Bot.TrailingSLHit w0 in
  let w2 := Bot.enter_position cfg (Bot.quiet_env 0 24337 0) Bot.CE 24350 24337 w1 in
  let w3 := Bot.close_position cfg 32 (-900) Bot.SuperTrendReversal w2 in
  Bot.daily_max_loss_triggered (Bot.bot_state w1) = false
  /\ Bot.daily_pnl (Bot.bot_state w1) == -1200
  /\ Bot.current_position (Bot.self w2) <> None
  /\ Bot.daily_max_loss_triggered (Bot.bot_state w3) = true
  /\ Bot.daily_pnl (Bot.bot_state w3) == -2100.
Proof.
  cbv zeta. split; [vm_compute; reflexivity |].
  split; [vm_compute; reflexivity |].
  split; [vm_compute; discriminate |].
  split; vm_compute; reflexivity.
Qed.

(** C6. (1) [close_position] adds the PnL to [daily_pnl] and leaves the
    flag set exactly when it was set already or the new [daily_pnl] is
    strictly below [-daily_max_loss]. (2) While the flag is set and no daily
    reset occurs, an iteration keeps it set and enters nothing: it does no
    more than the forced square-off. (3) No iteration that ends with the flag
    set has entered a position. (4) An iteration sets the flag only by
    recording an exit. (5) The daily reset clears the flag. (6) With a limit
    of 2000, exits of -1200 and -900 leave the flag unset, then set with
    [daily_pnl] = -2100, and every later iteration without a reset refuses
    to enter. *)
Theorem C6_daily_loss_limit_is_sticky (cfg : Bot.Config)
    (Hinterval : (0 < Bot.candle_interval cfg)%Z) :
  (forall (w : Bot.World) (px pnl : Q) (reason : Bot.ExitReason),
     Bot.current_position (Bot.self w) <> None ->
     let w' := Bot.close_position cfg px pnl reason w in
     Bot.daily_pnl (Bot.bot_state w') = Bot.daily_pnl (Bot.bot_state w) + pnl
     /\ (Bot.daily_max_loss_triggered (Bot.bot_state w') = true
         <-> Bot.daily_max_loss_triggered (Bot.bot_state w) = true
             \/ Bot.daily_pnl (Bot.bot_state w') < - Bot.daily_max_loss cfg))
  /\ (forall (env : Bot.Env) (w : Bot.World),
        Bot.daily_max_loss_triggered (Bot.bot_state w) = true ->
        Bot.at_daily_reset env = false ->
        let w' := Bot.run_loop_iteration cfg env w in
        Bot.daily_max_loss_triggered (Bot.bot_state w') = true
        /\ Bot.entries (Bot.store w') = Bot.entries (Bot.store w)
        /\ w' = Bot.force_squareoff cfg env w)
  /\ (forall (env : Bot.Env) (w : Bot.World),
        let w' := Bot.run_loop_iteration cfg env w in
        Bot.daily_max_loss_triggered (Bot.bot_state w') = true ->
        Bot.entries (Bot.store w') = Bot.entries (Bot.store w))
  /\ (forall (env : Bot.Env) (w : Bot.World),
        let w' := Bot.run_loop_iteration cfg env w in
        Bot.daily_max_loss_triggered (Bot.bot_state w) = false ->
        Bot.daily_max_loss_triggered (Bot.bot_state w') = true ->
        exists id px pnl reason older,
          Bot.store w' = Bot.Exited id px pnl reason :: older)
  /\ (forall (env : Bot.Env) (w : Bot.World),
        Bot.at_daily_reset env = true ->
        Bot.daily_max_loss_triggered (Bot.bot_state (Bot.daily_reset env w)) = false)
  /\ (let w0 := Bot.holding Bot.default_config Bot.CE Bot.SecSim 50 in
      let w1 := Bot.close_position Bot.default_config 26 (-1200) Bot.TrailingSLHit w0 in
      let w2 := Bot.enter_position Bot.default_config (Bot.quiet_env 0 24337 0)
                  Bot.CE 24350 24337 w1 in
      let w3 := Bot.close_position Bot.default_config 32 (-900)
                  Bot.SuperTrendReversal w2 in
      Bot.daily_max_loss_triggered (Bot.bot_state w1) = false
      /\ Bot.daily_pnl (Bot.bot_state w1) == -1200
      /\ Bot.current_position (Bot.self w2) <> None
      /\ Bot.daily_max_loss_triggered (Bot.bot_state w3) = true
      /\ Bot.daily_pnl (Bot.bot_state w3) == -2100).
Proof.
  split; [| split; [| split; [| split; [| split]]]].
  - intros w px pnl reason Hp w'. subst w'.
    destruct (Bot.current_position (Bot.self w)) as [p |] eqn:Ep; [| contradiction].
    destruct (@close_position_ledger cfg px pnl reason w p Ep)
      as [_ [_ [_ [_ [_ [C6 C7]]]]]].
    split; [exact C6 |]. rewrite C7, C6.
    destruct (Qlt_le_dec (Bot.daily_pnl (Bot.bot_state w) + pnl) (- Bot.daily_max_loss cfg))
      as [Hlt | Hge].
    + split; [intros _; right; exact Hlt | reflexivity].
    + split; [intros H; left; exact H |].
      intros [H | H]; [exact H | lra].
  - intros env w Hf Hr w'. subst w'.
    destruct (daily_reset_ledger env w) as [_ [_ [_ [_ [_ R]]]]].
    specialize (R Hr).
    destruct (@run_loop_iteration_ledger cfg Hinterval env w) as [_ Hg].
    rewrite R in Hg.
    pose proof (@force_squareoff_flag cfg env w Hf) as Hf1.
    rewrite (Hg (or_intror Hf1)). split; [exact Hf1 |].
    split; [| reflexivity].
    destruct (prelude_entries cfg env w) as [E _]. rewrite R in E. exact E.
  - intros env w w' Hf. subst w'.
    destruct (@run_loop_iteration_ledger cfg Hinterval env w) as [Hs Hg].
    destruct (prelude_entries cfg env w) as [E _].
    set (w1 := Bot.force_squareoff cfg env (Bot.daily_reset env w)) in *.
    destruct Hs as [Hi | id px pnl r E1 _ _ _ _ _ | p e q E1 _ _ E4 _ _ _ _ _].
    + unfold Bot.ledger_view in Hi. injection Hi as H1 _ _ _ _. rewrite H1. exact E.
    + rewrite E1, entries_exited. exact E.
    + rewrite Hf in E4. symmetry in E4.
      rewrite (Hg (or_intror E4)) in E1. exfalso. exact (cons_neq (eq_sym E1)).
  - intros env w w' Hf Hf'. subst w'.
    destruct (@run_loop_iteration_ledger cfg Hinterval env w) as [Hs Hg].
    set (w1 := Bot.force_squareoff cfg env (Bot.daily_reset env w)) in *.
    destruct Hs as [Hi | id px pnl r E1 _ _ _ _ _ | p e q E1 _ _ E4 _ _ _ _ _].
    + unfold Bot.ledger_view in Hi. injection Hi as H1 _ _ H4 _.
      rewrite Hf' in H4. rewrite H1. subst w1.
      destruct (force_squareoff_ledger cfg env (Bot.daily_reset env w))
        as [E | [_ [p [px [pnl [_ [Hs _]]]]]]].
      * exfalso. rewrite E in H4.
        destruct (daily_reset_ledger env w) as [_ [_ [_ [_ [Rt Rf]]]]].
        destruct (Bot.at_daily_reset env).
        -- destruct (Rt eq_refl) as [Rt1 _]. congruence.
        -- rewrite (Rf eq_refl) in H4. congruence.
      * rewrite Hs. eauto 6.
    + rewrite E1. eauto 6.
    + rewrite Hf' in E4. symmetry in E4.
      rewrite (Hg (or_intror E4)) in E1. exfalso. exact (cons_neq (eq_sym E1)).
  - intros env w Hr.
    destruct (daily_reset_ledger env w) as [_ [_ [_ [_ [Rt _]]]]].
    exact (proj1 (Rt Hr)).
  - exact scenario_daily_loss.
Qed.

Lemma C6_daily_loss_limit_is_sticky_witness :
  let cfg := Bot.default_config in
  let w0 := Bot.holding cfg Bot.CE Bot.SecSim 50 in
  let w1 := Bot.close_position cfg 26 (-1200) Bot.TrailingSLHit w0 in
  let w2 := Bot.enter_position cfg (Bot.quiet_env 0 24337 0) Bot.CE 24350 24337 w1 in
  let w3 := Bot.close_position cfg 32 (-900) Bot.SuperTrendReversal w2 in
  let env := Bot.quiet_env 6 24337 0 in
  Bot.daily_max_loss_triggered (Bot.bot_state (Bot.run_loop_iteration cfg env w3)) = true
  /\ Bot.entries (Bot.store (Bot.run_loop_iteration cfg env w3))
     = Bot.entries (Bot.store w3).
Proof.
  intros cfg w0 w1 w2 w3 env.
  assert (Hi : (0 < Bot.candle_interval Bot.default_config)%Z) by reflexivity.
  destruct (@C6_daily_loss_limit_is_sticky Bot.default_config Hi)
    as [_ [Hsticky [_ [_ [_ Hsc]]]]].
  cbv zeta in Hsc. destruct Hsc as [_ [_ [_ [Hf _]]]].
  destruct (Hsticky env w3 Hf eq_refl) as [H1 [H2 _]].
  split; [exact H1 | exact H2].
Defined.

Lemma trading_logic_enters (cfg : Bot.Config) (env : Bot.Env) (now : Q)
    (sig : Indicator.Signal) (c : Q) (w : Bot.World) :
  Bot.current_position (Bot.self w) = None ->
  Bot.cooldown_over cfg now w ->
  Bot.can_take_new_trade env = true ->
  (Bot.daily_trades (Bot.bot_state w) < Bot.max_trades_per_day cfg)%Z ->
  Bot.mode (Bot.bot_state w) = Bot.Paper ->
  exists p e q,
    Bot.store (fst (Bot.trading_logic cfg env now sig c w)) = Bot.Entered p e q :: Bot.store w
    /\ Bot.current_position (Bot.self (fst (Bot.trading_logic cfg env now sig c w))) = Some p.
Proof.
  intros Hp Hcool Hcan Hlt Hm.
  unfold Bot.trading_logic, Bot.cooldown_over in *.
  assert (Hgo : exists p e q,
            Bot.store (fst (let '(w1, exited) :=
                              Bot.process_signal_on_close cfg env sig c w in
                            (if exited : bool
                             then Bot.with_self (Bot.set_last_exit_candle_time (Some now)) w1
                             else w1, Py.Ok tt)))
            = Bot.Entered p e q :: Bot.store w
            /\ Bot.current_position
                 (Bot.self (fst (let '(w1, exited) :=
                                   Bot.process_signal_on_close cfg env sig c w in
                                 (if exited : bool
                                  then Bot.with_self
                                         (Bot.set_last_exit_candle_time (Some now)) w1
                                  else w1, Py.Ok tt)))) = Some p).
  { unfold Bot.process_signal_on_close. rewrite Hp, Hcan. cbn [negb].
    destruct (Z.leb_spec (Bot.max_trades_per_day cfg) (Bot.daily_trades (Bot.bot_state w)));
      [lia |].
    cbn [fst]. unfold Bot.enter_position. rewrite Hm.
    do 3 eexists. split; reflexivity. }
  destruct (Bot.last_exit_candle_time (Bot.self w)) as [t |]; [| exact Hgo].
  destruct (Qlt_le_dec (now - t) (inject_Z (Bot.candle_interval cfg))) as [Hlt' | _];
    [lra | exact Hgo].
Qed.

(** The cool-down at work: an exit recorded at candle time 100 and the
    candle restarted at 100; a boundary whose candle time reads 104 enters
    nothing, the boundary at 105 enters. *)
Lemma scenario_cooldown :
  let w := Bot.after_exit Bot.fast_config 100 in
  Bot.boundary_crossed Bot.fast_config (Bot.clock_env 105 104 105 24337) w = true
  /\ Bot.entries
       (Bot.store (Bot.run_loop_iteration Bot.fast_config
                     (Bot.clock_env 105 104 105 24337) w)) = 0%nat
  /\ Bot.entries
       (Bot.store (Bot.run_loop_iteration Bot.fast_config
                     (Bot.clock_env 105 105 105 24337) w)) = 1%nat.
Proof. cbv zeta. repeat split; vm_compute; reflexivity. Qed.

(** C7. With a positive candle interval: (1) an iteration that finds an
    exit recorded at candle time T (the daily reset not having cleared it)
    and whose candle time is before T plus the interval enters no position,
    whatever the other entry conditions; (2) when the clock does not go
    backwards, a candle time before T plus the interval is not a candle
    boundary at all, so nothing is entered there, reset or not; (3) an exit
    by trailing stop or reversal is recorded with the candle time of its
    iteration, and that iteration enters nothing; (4) inside the cool-down
    the trading logic does nothing at all; (5) once the candle time is at or
    after T plus the interval, the trading logic of a flat bot in paper mode
    enters as soon as the cut-off and the trade cap allow; (6) after an exit
    at 100 with an interval of 5, a boundary read at 104 enters nothing and
    the boundary at 105 enters. *)
Theorem C7_no_entry_inside_cooldown (cfg : Bot.Config)
    (Hinterval : (0 < Bot.candle_interval cfg)%Z) :
  (forall (env : Bot.Env) (w : Bot.World) (T : Q),
     Bot.last_exit_candle_time (Bot.self (Bot.daily_reset env w)) = Some T ->
     Bot.now_candle env - T < inject_Z (Bot.candle_interval cfg) ->
     Bot.entries (Bot.store (Bot.run_loop_iteration cfg env w))
     = Bot.entries (Bot.store w))
  /\ (forall (m : Bot.Mode) (t0 : Q) (env : Bot.Env) (w : Bot.World) (T : Q),
        Bot.steadily_reachable cfg m t0 w ->
        Bot.clock_ordered env ->
        Bot.last_exit_candle_time (Bot.self w) = Some T ->
        Bot.now_candle env - T < inject_Z (Bot.candle_interval cfg) ->
        Bot.boundary_crossed cfg env w = false
        /\ Bot.entries (Bot.store (Bot.run_loop_iteration cfg env w))
           = Bot.entries (Bot.store w))
  /\ (forall (env : Bot.Env) (w : Bot.World) id px pnl reason,
        reason <> Bot.ForceSquareOff ->
        Bot.store (Bot.run_loop_iteration cfg env w)
        = Bot.Exited id px pnl reason
          :: Bot.store (Bot.force_squareoff cfg env (Bot.daily_reset env w)) ->
        Bot.last_exit_candle_time (Bot.self (Bot.run_loop_iteration cfg env w))
        = Some (Bot.now_candle env)
        /\ Bot.entries (Bot.store (Bot.run_loop_iteration cfg env w))
           = Bot.entries (Bot.store w))
  /\ (forall (env : Bot.Env) (now : Q) (sig : Indicator.Signal) (c : Q)
             (w : Bot.World) (T : Q),
        Bot.last_exit_candle_time (Bot.self w) = Some T ->
        now - T < inject_Z (Bot.candle_interval cfg) ->
        Bot.trading_logic cfg env now sig c w = (w, Py.Ok tt))
  /\ (forall (env : Bot.Env) (now : Q) (sig : Indicator.Signal) (c : Q)
             (w : Bot.World) (T : Q),
        Bot.last_exit_candle_time (Bot.self w) = Some T ->
        inject_Z (Bot.candle_interval cfg) <= now - T ->
        Bot.current_position (Bot.self w) = None ->
        Bot.can_take_new_trade env = true ->
        (Bot.daily_trades (Bot.bot_state w) < Bot.max_trades_per_day cfg)%Z ->
        Bot.mode (Bot.bot_state w) = Bot.Paper ->
        exists p e q,
          Bot.store (fst (Bot.trading_logic cfg env now sig c w))
          = Bot.Entered p e q :: Bot.store w)
  /\ (let w := Bot.after_exit Bot.fast_config 100 in
      Bot.boundary_crossed Bot.fast_config (Bot.clock_env 105 104 105 24337) w = true
      /\ Bot.entries
           (Bot.store (Bot.run_loop_iteration Bot.fast_config
                         (Bot.clock_env 105 104 105 24337) w)) = 0%nat
      /\ Bot.entries
           (Bot.store (Bot.run_loop_iteration Bot.fast_config
                         (Bot.clock_env 105 105 105 24337) w)) = 1%nat).
Proof.
  split; [| split; [| split; [| split; [| split]]]].
  - intros env w T Hl Hin.
    destruct (@run_loop_iteration_ledger cfg Hinterval env w) as [Hs _].
    destruct (prelude_entries cfg env w) as [E El].
    set (w1 := Bot.force_squareoff cfg env (Bot.daily_reset env w)) in *.
    destruct Hs as [Hi | id px pnl r E1 _ _ _ _ _ | p e q _ _ _ _ _ Hcool _ _ _].
    + unfold Bot.ledger_view in Hi. injection Hi as H1 _ _ _ _. rewrite H1. exact E.
    + rewrite E1, entries_exited. exact E.
    + unfold Bot.cooldown_over in Hcool. rewrite El, Hl in Hcool. lra.
  - intros m t0 env w T Hreach Hclock Hl Hin.
    pose proof (@steadily_reachable_exit_before_candle cfg Hinterval m t0 w Hreach) as HJ.
    pose proof (@inside_cooldown_no_boundary cfg env w T HJ Hclock Hl Hin) as Hnb.
    split; [exact Hnb |].
    destruct (@run_loop_iteration_no_boundary cfg env w Hnb) as [_ Hst].
    rewrite Hst. exact (proj1 (prelude_entries cfg env w)).
  - intros env w id px pnl reason Hr Hst.
    destruct (@run_loop_iteration_ledger cfg Hinterval env w) as [Hs _].
    destruct (prelude_entries cfg env w) as [E _].
    set (w1 := Bot.force_squareoff cfg env (Bot.daily_reset env w)) in *.
    destruct Hs as [Hi | id' px' pnl' r' E1 _ _ _ E5 _ | p e q E1 _ _ _ _ _ _ _ _].
    + unfold Bot.ledger_view in Hi. injection Hi as H1 _ _ _ _.
      rewrite H1 in Hst. exfalso. exact (cons_neq (eq_sym Hst)).
    + split; [exact E5 |]. rewrite E1, entries_exited. exact E.
    + rewrite E1 in Hst. discriminate.
  - intros env now sig c w T Hl Hin. unfold Bot.trading_logic. rewrite Hl.
    destruct (Qlt_le_dec (now - T) (inject_Z (Bot.candle_interval cfg))) as [_ | Hge];
      [reflexivity | lra].
  - intros env now sig c w T Hl Hge Hp Hcan Hlt Hm.
    destruct (@trading_logic_enters cfg env now sig c w Hp) as [p [e [q [H _]]]];
      try assumption.
    + unfold Bot.cooldown_over. rewrite Hl. exact Hge.
    + eauto.
  - exact scenario_cooldown.
Qed.

Lemma C7_no_entry_inside_cooldown_witness :
  let w := Bot.after_exit Bot.fast_config 100 in
  let env := Bot.clock_env 105 104 105 24337 in
  Bot.boundary_crossed Bot.fast_config env w = true
  /\ Bot.entries (Bot.store (Bot.run_loop_iteration Bot.fast_config env w))
     = Bot.entries (Bot.store w).
Proof.
  intros w env.
  assert (Hi : (0 < Bot.candle_interval Bot.fast_config)%Z) by reflexivity.
  destruct (@C7_no_entry_inside_cooldown Bot.fast_config Hi) as [Hgate _].
  split; [reflexivity |].
  apply (Hgate env w 100); reflexivity.
Defined.

(** ** The trailing stop inside the loop *)

Lemma force_squareoff_ratchet (cfg : Bot.Config) (env : Bot.Env) (w : Bot.World) :
  Bot.force_squareoff cfg env w = w
  \/ Bot.should_force_squareoff env = true
     /\ Bot.current_position (Bot.self (Bot.force_squareoff cfg env w)) = None
     /\ Bot.trailing_sl (Bot.self (Bot.force_squareoff cfg env w)) = None
     /\ Bot.highest_profit (Bot.self (Bot.force_squareoff cfg env w)) = 0.
Proof.
  unfold Bot.force_squareoff, Bot.squareoff, Bot.close_position.
  destruct (Bot.should_force_squareoff env); [| left; reflexivity].
  destruct (Bot.current_position (Bot.self w)) as [p |]; [| left; reflexivity].
  destruct (Bot.mode (Bot.bot_state w)); [right; repeat split |].
  destruct (Bot.dhan (Bot.self w) && Bot.order_accepted (Bot.sell_order env));
    [right; repeat split | left; reflexivity].
Qed.

(** A boundary at which the ratchet is updated: a put held at 50 whose
    option trades at 70 when the candle closes. *)
Lemma scenario_ratchet_at_boundary :
  let w := Bot.holding Bot.fast_config Bot.PE (Bot.SecBroker 4242) 50 in
  let env := Bot.quiet_env 5 24337 70 in
  let w' := Bot.run_loop_iteration Bot.fast_config env w in
  Bot.boundary_crossed Bot.fast_config env w = true
  /\ Bot.highest_profit (Bot.self w') == 20
  /\ exists s, Bot.trailing_sl (Bot.self w') = Some s /\ s == 60.
Proof.
  cbv zeta. split; [vm_compute; reflexivity |].
  split; [vm_compute; reflexivity |].
  eexists. split; vm_compute; reflexivity.
Qed.

(** An iteration that does not reach the body of [if st_value and signal:]
    leaves the position, its entry price, the ratchet and the trade store as
    the daily reset and the forced square-off left them. *)
Lemma run_loop_iteration_without_signal (cfg : Bot.Config) (env : Bot.Env) (w : Bot.World) :
  Bot.signal_at_close cfg env w = None ->
  let w1 := Bot.force_squareoff cfg env (Bot.daily_reset env w) in
  let w' := Bot.run_loop_iteration cfg env w in
  Bot.current_position (Bot.self w') = Bot.current_position (Bot.self w1)
  /\ Bot.entry_price (Bot.self w') = Bot.entry_price (Bot.self w1)
  /\ Bot.highest_profit (Bot.self w') = Bot.highest_profit (Bot.self w1)
  /\ Bot.trailing_sl (Bot.self w') = Bot.trailing_sl (Bot.self w1)
  /\ Bot.store w' = Bot.store w1.
Proof.
  unfold Bot.signal_at_close, Bot.run_loop_iteration, Bot.run_loop_body.
  cbv zeta.
  set (w1 := Bot.force_squareoff cfg env (Bot.daily_reset env w)). clearbody w1.
  destruct (negb (Bot.is_market_open env)); [repeat split |].
  destruct (Bot.daily_max_loss_triggered (Bot.bot_state w1)); [repeat split |].
  set (w2 := Bot.fetch_market_data env w1).
  assert (H2 : Bot.current_position (Bot.self w2) = Bot.current_position (Bot.self w1)
               /\ Bot.entry_price (Bot.self w2) = Bot.entry_price (Bot.self w1)
               /\ Bot.highest_profit (Bot.self w2) = Bot.highest_profit (Bot.self w1)
               /\ Bot.trailing_sl (Bot.self w2) = Bot.trailing_sl (Bot.self w1)
               /\ Bot.store w2 = Bot.store w1).
  { subst w2. unfold Bot.fetch_market_data. destruct w1 as [s bs lv st].
    repeat break_match; cbn; auto 10. }
  assert (Hsim : forall w3,
            Bot.current_position (Bot.self (Bot.simulate_paper_ltp env w3))
              = Bot.current_position (Bot.self w3)
            /\ Bot.entry_price (Bot.self (Bot.simulate_paper_ltp env w3))
               = Bot.entry_price (Bot.self w3)
            /\ Bot.highest_profit (Bot.self (Bot.simulate_paper_ltp env w3))
               = Bot.highest_profit (Bot.self w3)
            /\ Bot.trailing_sl (Bot.self (Bot.simulate_paper_ltp env w3))
               = Bot.trailing_sl (Bot.self w3)
            /\ Bot.store (Bot.simulate_paper_ltp env w3) = Bot.store w3).
  { intros w3. unfold Bot.simulate_paper_ltp. destruct w3 as [s bs lv st].
    repeat break_match; cbn; auto 10. }
  destruct H2 as (A1 & A2 & A3 & A4 & A5).
  unfold Bot.bind, Bot.lift, Bot.candle_block.
  destruct (Bot.boundary_crossed cfg env w2).
  - unfold Bot.bind, Bot.lift, Bot.ret.
    destruct (Bot.candle_low (Bot.loop w2)) as [l |].
    + destruct (Qlt_le_dec 0 (Bot.candle_high (Bot.loop w2))).
      * unfold Bot.on_candle.
        destruct (Indicator.add_candle (Bot.supertrend (Bot.self w2))
                    (Bot.candle_high (Bot.loop w2)) l (Bot.candle_close (Bot.loop w2)))
          as [st r].
        cbn [snd].
        destruct r as [[[v sig] |] | e].
        -- destruct (Py.truthy v); [discriminate |].
           intros _. cbn [fst].
           match goal with |- context [Bot.simulate_paper_ltp env ?w3] =>
             destruct (Hsim w3) as (B1 & B2 & B3 & B4 & B5) end.
           rewrite B1, B2, B3, B4, B5. cbn. auto.
        -- intros _. cbn [fst].
           match goal with |- context [Bot.simulate_paper_ltp env ?w3] =>
             destruct (Hsim w3) as (B1 & B2 & B3 & B4 & B5) end.
           rewrite B1, B2, B3, B4, B5. cbn. auto.
        -- intros _. cbn [fst]. cbn. auto.
      * intros _. cbn [fst].
        match goal with |- context [Bot.simulate_paper_ltp env ?w3] =>
          destruct (Hsim w3) as (B1 & B2 & B3 & B4 & B5) end.
        rewrite B1, B2, B3, B4, B5. cbn. auto.
    + intros _. cbn [fst].
      match goal with |- context [Bot.simulate_paper_ltp env ?w3] =>
        destruct (Hsim w3) as (B1 & B2 & B3 & B4 & B5) end.
      rewrite B1, B2, B3, B4, B5. cbn. auto.
  - intros _. cbn [fst].
    destruct (Hsim w2) as (B1 & B2 & B3 & B4 & B5).
    rewrite B1, B2, B3, B4, B5. auto.
Qed.

(** Without a candle boundary there is no signal. *)
Lemma no_boundary_no_signal (cfg : Bot.Config) (env : Bot.Env) (w : Bot.World) :
  Bot.boundary_crossed cfg env w = false -> Bot.signal_at_close cfg env w = None.
Proof.
  intros Hnb. unfold Bot.signal_at_close. cbv zeta.
  destruct (negb (Bot.is_market_open env)); [reflexivity |].
  match goal with |- context [Bot.daily_max_loss_triggered ?b] =>
    destruct (Bot.daily_max_loss_triggered b) end; [reflexivity |].
  assert (Hb : forall w0, Bot.boundary_crossed cfg env w0
                          = if Qlt_le_dec (Bot.now_elapsed env
                                           - Bot.candle_start_time (Bot.loop w0))
                                 (inject_Z (Bot.candle_interval cfg))
                            then false else true) by reflexivity.
  set (w1 := Bot.force_squareoff cfg env (Bot.daily_reset env w)).
  assert (Hl : Bot.candle_start_time (Bot.loop (Bot.fetch_market_data env w1))
               = Bot.candle_start_time (Bot.loop w)).
  { assert (H1 : Bot.loop w1 = Bot.loop w).
    { subst w1. rewrite force_squareoff_loop.
      unfold Bot.daily_reset. destruct (Bot.at_daily_reset env); reflexivity. }
    rewrite <- H1. clearbody w1. unfold Bot.fetch_market_data. destruct w1 as [s bs lv st].
    repeat break_match; reflexivity. }
  rewrite Hb, Hl, <- Hb, Hnb. reflexivity.
Qed.

(** What [enter_position] of server.py stores. *)
Lemma legacy_enter_position_ids (cfg : Bot.Config) (env : Bot.Env) (ot : Bot.OptionType)
    (k : Z) (ltp : Q) (w : Bot.World) :
  let r := Bot.Legacy.enter_position cfg env ot k ltp w in
  fst r = w
  \/ exists p,
       Bot.current_position (Bot.self (fst r)) = Some p
       /\ (Bot.pos_security_id p = Bot.SecSim \/ Bot.pos_security_id p = Bot.SecNone)
       /\ Bot.trailing_sl (Bot.self (fst r)) = None
       /\ Bot.highest_profit (Bot.self (fst r)) = 0.
Proof.
  unfold Bot.Legacy.enter_position.
  destruct (Bot.mode (Bot.bot_state w)).
  - right. eexists. cbn. repeat split. left. reflexivity.
  - destruct (Bot.dhan (Bot.self w)); [| left; reflexivity].
    destruct (Bot.has_order_id (Bot.buy_order env)); [| left; reflexivity].
    right. eexists. cbn. repeat split. right. reflexivity.
Qed.

Lemma legacy_update_without_listed_id (cfg : Bot.Config) (env : Bot.Env) (w : Bot.World) :
  match Bot.current_position (Bot.self w) with
  | Some p => Bot.pos_security_id p = Bot.SecSim \/ Bot.pos_security_id p = Bot.SecNone
  | None => True
  end ->
  Bot.Legacy.update_position_pnl cfg env w = (w, Py.Ok tt).
Proof.
  intros H. unfold Bot.Legacy.update_position_pnl, Bot.Legacy.get_option_ltp.
  destruct (Bot.current_position (Bot.self w)) as [p |]; [| reflexivity].
  destruct H as [-> | ->]; [| reflexivity].
  destruct (Bot.dhan (Bot.self w)); [| reflexivity].
  destruct (Qlt_le_dec 0 0) as [H | _]; [| reflexivity].
  exfalso. revert H. apply Qlt_irrefl.
Qed.

(** C8 (as amended).  In the loop of trading_bot.py the ratchet is
    updated only in an iteration that crosses a candle boundary at which the
    indicator returned a value.  In every other iteration (no boundary
    crossed, market closed, daily-loss flag set, a candle without a price, a
    boundary during the warm-up of the indicator, a value that is falsy, an
    exception raised by [add_candle]) the position, [highest_profit] and
    [trailing_sl] are what the daily reset and the forced square-off left:
    unchanged, or cleared by a forced square-off.  An iteration has such a
    value only if the boundary is crossed, the market is open, the flag is not
    set, the candle has a price and [add_candle] returned a truthy value;
    without a boundary all attributes of the bot are what the forced
    square-off left.  The ratchet is updated at such a boundary (example: a
    put held at 50 with the option at 70 gets highest profit 20 and stop 60).
    In the loop of server.py the last block of every iteration calls
    [check_trailing_sl] when the position has a listed security id, the broker
    is set and a positive option price is fetched, and does nothing for a
    simulated or empty id; [enter_position] of server.py, the only place of
    server.py that fills [self.current_position], stores only a simulated id
    (paper mode) or an empty id (live mode), with the stop unset and the
    highest profit 0, so for a position it has opened the block does
    nothing. *)
Theorem C8_ratchet_waits_for_candle_close (cfg : Bot.Config) (env : Bot.Env) (w : Bot.World) :
  let w1 := Bot.force_squareoff cfg env (Bot.daily_reset env w) in
  let w2 := Bot.fetch_market_data env w1 in
  let w' := Bot.run_loop_iteration cfg env w in
  (Bot.signal_at_close cfg env w = None ->
     Bot.current_position (Bot.self w') = Bot.current_position (Bot.self w1)
     /\ Bot.highest_profit (Bot.self w') = Bot.highest_profit (Bot.self w1)
     /\ Bot.trailing_sl (Bot.self w') = Bot.trailing_sl (Bot.self w1)
     /\ (Bot.highest_profit (Bot.self w') = Bot.highest_profit (Bot.self w)
         /\ Bot.trailing_sl (Bot.self w') = Bot.trailing_sl (Bot.self w)
         \/ Bot.should_force_squareoff env = true
            /\ Bot.current_position (Bot.self w') = None
            /\ Bot.trailing_sl (Bot.self w') = None
            /\ Bot.highest_profit (Bot.self w') = 0))
  /\ (forall v sig,
        Bot.signal_at_close cfg env w = Some (v, sig) ->
        Bot.boundary_crossed cfg env w = true
        /\ Bot.is_market_open env = true
        /\ Bot.daily_max_loss_triggered (Bot.bot_state w1) = false
        /\ Py.truthy v = true
        /\ exists l,
             Bot.candle_low (Bot.loop w2) = Some l
             /\ 0 < Bot.candle_high (Bot.loop w2)
             /\ snd (Indicator.add_candle (Bot.supertrend (Bot.self w2))
                       (Bot.candle_high (Bot.loop w2)) l (Bot.candle_close (Bot.loop w2)))
                = Py.Ok (Some (v, sig)))
  /\ (Bot.boundary_crossed cfg env w = false ->
      Bot.signal_at_close cfg env w = None /\ Bot.self w' = Bot.self w1)
  /\ (let w := Bot.holding Bot.fast_config Bot.PE (Bot.SecBroker 4242) 50 in
      let env := Bot.quiet_env 5 24337 70 in
      let w' := Bot.run_loop_iteration Bot.fast_config env w in
      Bot.boundary_crossed Bot.fast_config env w = true
      /\ Bot.highest_profit (Bot.self w') == 20
      /\ exists s, Bot.trailing_sl (Bot.self w') = Some s /\ s == 60)
  /\ (forall (cfg0 : Bot.Config) (env0 : Bot.Env) (w0 : Bot.World) (p : Bot.Position) (n : Z),
        Bot.current_position (Bot.self w0) = Some p ->
        Bot.pos_security_id p = Bot.SecBroker n ->
        Bot.dhan (Bot.self w0) = true ->
        0 < Bot.fetched_option_ltp env0 ->
        Bot.Legacy.update_position_pnl cfg0 env0 w0
        = Bot.Legacy.check_trailing_sl cfg0 (Bot.fetched_option_ltp env0)
            (Bot.with_bot_state
               (Bot.set_current_option_ltp (Bot.fetched_option_ltp env0)) w0))
  /\ (forall (cfg0 : Bot.Config) (env0 : Bot.Env) (w0 : Bot.World) (p : Bot.Position),
        Bot.current_position (Bot.self w0) = Some p ->
        Bot.pos_security_id p = Bot.SecSim \/ Bot.pos_security_id p = Bot.SecNone ->
        Bot.Legacy.update_position_pnl cfg0 env0 w0 = (w0, Py.Ok tt))
  /\ (forall (cfg0 : Bot.Config) (env0 : Bot.Env) (ot : Bot.OptionType) (k : Z) (ltp : Q)
             (w0 : Bot.World),
        let r := Bot.Legacy.enter_position cfg0 env0 ot k ltp w0 in
        (fst r = w0
         \/ exists p,
              Bot.current_position (Bot.self (fst r)) = Some p
              /\ (Bot.pos_security_id p = Bot.SecSim
                  \/ Bot.pos_security_id p = Bot.SecNone)
              /\ Bot.trailing_sl (Bot.self (fst r)) = None
              /\ Bot.highest_profit (Bot.self (fst r)) = 0)
        /\ (Bot.current_position (Bot.self w0) = None ->
            forall env1 : Bot.Env,
              Bot.Legacy.update_position_pnl cfg0 env1 (fst r) = (fst r, Py.Ok tt))).
Proof.
  intros w1 w2 w'.
  split; [| split; [| split; [| split; [| split; [| split]]]]].
  - intros Hs.
    destruct (@run_loop_iteration_without_signal cfg env w Hs) as (A1 & _ & A3 & A4 & _).
    fold w1 w' in A1, A3, A4.
    split; [exact A1 |]. split; [exact A3 |]. split; [exact A4 |].
    destruct (daily_reset_ledger env w) as [_ [_ [R3 [R4 _]]]].
    destruct (force_squareoff_ratchet cfg env (Bot.daily_reset env w)) as [E | H].
    + left. rewrite A3, A4. subst w1. rewrite E. split; assumption.
    + right. destruct H as (H0 & H1 & H2 & H3). fold w1 in H1, H2, H3.
      rewrite A1, A3, A4. auto.
  - intros v sig Hs.
    destruct (Bot.boundary_crossed cfg env w) eqn:Hb.
    2:{ rewrite (no_boundary_no_signal cfg env w Hb) in Hs. discriminate. }
    split; [reflexivity |].
    unfold Bot.signal_at_close in Hs. cbv zeta in Hs. fold w1 in Hs. fold w2 in Hs.
    destruct (Bot.is_market_open env); [| discriminate]. cbn [negb] in Hs.
    destruct (Bot.daily_max_loss_triggered (Bot.bot_state w1)); [discriminate |].
    split; [reflexivity |]. split; [reflexivity |].
    destruct (Bot.boundary_crossed cfg env w2); [| discriminate].
    destruct (Bot.candle_low (Bot.loop w2)) as [l |]; [| discriminate].
    destruct (Qlt_le_dec 0 (Bot.candle_high (Bot.loop w2))) as [Hh |]; [| discriminate].
    destruct (snd (Indicator.add_candle (Bot.supertrend (Bot.self w2))
                     (Bot.candle_high (Bot.loop w2)) l (Bot.candle_close (Bot.loop w2))))
      as [[[v0 sig0] |] | e] eqn:Ea; try discriminate.
    destruct (Py.truthy v0) eqn:Et; [| discriminate].
    injection Hs as <- <-. split; [exact Et |]. exists l.
    split; [reflexivity |]. split; [exact Hh | exact Ea].
  - intros Hnb. split; [exact (no_boundary_no_signal cfg env w Hnb) |].
    destruct (@run_loop_iteration_no_boundary cfg env w Hnb) as [Hself _]. exact Hself.
  - exact scenario_ratchet_at_boundary.
  - intros cfg0 env0 w0 p n Hp Hsid Hd Hpos.
    unfold Bot.Legacy.update_position_pnl, Bot.Legacy.get_option_ltp.
    rewrite Hp, Hsid, Hd.
    destruct (Qlt_le_dec 0 (Bot.fetched_option_ltp env0)) as [_ | Hle]; [reflexivity | lra].
  - intros cfg0 env0 w0 p Hp Hsid.
    apply legacy_update_without_listed_id. rewrite Hp. exact Hsid.
  - intros cfg0 env0 ot k ltp w0 r.
    pose proof (legacy_enter_position_ids cfg0 env0 ot k ltp w0) as Hids.
    cbv zeta in Hids. fold r in Hids.
    split; [exact Hids |].
    intros Hflat env1. apply legacy_update_without_listed_id.
    destruct Hids as [E | (p & Hp & Hid & _)].
    + rewrite E, Hflat. exact I.
    + rewrite Hp. exact Hid.
Qed.

Lemma C8_ratchet_waits_for_candle_close_witness :
  let w := Bot.with_bot_state (Bot.set_current_option_ltp 70)
             (Bot.holding Bot.default_config Bot.CE (Bot.SecBroker 4242) 50) in
  let inside := Bot.quiet_env 1 24337 70 in
  let warming := Bot.quiet_env 5 24337 70 in
  (Bot.boundary_crossed Bot.default_config inside w = false
   /\ Bot.highest_profit (Bot.self (Bot.run_loop_iteration Bot.default_config inside w))
      = Bot.highest_profit (Bot.self w)
   /\ Bot.trailing_sl (Bot.self (Bot.run_loop_iteration Bot.default_config inside w))
      = Bot.trailing_sl (Bot.self w))
  /\ (Bot.boundary_crossed Bot.default_config warming w = true
      /\ Bot.signal_at_close Bot.default_config warming w = None
      /\ Bot.highest_profit (Bot.self (Bot.run_loop_iteration Bot.default_config warming w))
         = Bot.highest_profit (Bot.self w)
      /\ Bot.trailing_sl (Bot.self (Bot.run_loop_iteration Bot.default_config warming w))
         = Bot.trailing_sl (Bot.self w)).
Proof.
  intros w inside warming.
  assert (Hnb : Bot.boundary_crossed Bot.default_config inside w = false) by reflexivity.
  assert (Hb : Bot.boundary_crossed Bot.default_config warming w = true) by reflexivity.
  assert (Hs : Bot.signal_at_close Bot.default_config warming w = None)
    by (vm_compute; reflexivity).
  split.
  - split; [exact Hnb |].
    destruct (@C8_ratchet_waits_for_candle_close Bot.default_config inside w) as [H1 [_ [H3 _]]].
    destruct (H1 (proj1 (H3 Hnb))) as (_ & _ & _ & [H | [Hf _]]);
      [exact H | discriminate Hf].
  - split; [exact Hb |]. split; [exact Hs |].
    destruct (@C8_ratchet_waits_for_candle_close Bot.default_config warming w) as [H1 _].
    destruct (H1 Hs) as (_ & _ & _ & [H | [Hf _]]); [exact H | discriminate Hf].
Defined.

(** C8 as stated fails on the loop of trading_bot.py: a call
    bought at 50 trades at 70 on an iteration inside the candle; the position
    stays open, the option price is stored, and the ratchet is not updated
    (highest profit 0, no stop), although [check_trailing_sl] at that price
    would give a highest profit of 20 and a stop of 60. *)
Lemma C8_counterexample :
  let w := Bot.with_bot_state (Bot.set_current_option_ltp 70)
             (Bot.holding Bot.default_config Bot.CE (Bot.SecBroker 4242) 50) in
  let env := Bot.quiet_env 1 24337 70 in
  let w' := Bot.run_loop_iteration Bot.default_config env w in
  Bot.boundary_crossed Bot.default_config env w = false
  /\ Bot.current_position (Bot.self w') <> None
  /\ Bot.current_option_ltp (Bot.bot_state w') == 70
  /\ Bot.highest_profit (Bot.self w') == 0
  /\ Bot.trailing_sl (Bot.self w') = None
  /\ Bot.highest_profit (Bot.self (fst (Bot.check_trailing_sl Bot.default_config 70 w')))
     == 20
  /\ (exists s,
        Bot.trailing_sl (Bot.self (fst (Bot.check_trailing_sl Bot.default_config 70 w')))
        = Some s /\ s == 60)
  /\ ~ Bot.highest_profit (Bot.self w')
       == Bot.highest_profit
            (Bot.self (fst (Bot.check_trailing_sl Bot.default_config 70 w'))).
Proof.
  cbv zeta. split; [vm_compute; reflexivity |].
  split; [vm_compute; discriminate |].
  split; [vm_compute; reflexivity |].
  split; [vm_compute; reflexivity |].
  split; [vm_compute; reflexivity |].
  split; [vm_compute; reflexivity |].
  split; [eexists; split; vm_compute; reflexivity |].
  vm_compute. discriminate.
Qed.

(** * Further properties of the code

    The properties below are read off the source beyond what the
    specification claims. *)

Import Indicator Bot.

(** ** The buffers and bands of the indicator *)

Section MoreIndicatorFacts.

Lemma max2_ge_right (a b : Q) : b <= Py.max2 a b.
Proof. unfold Py.max2. destruct (Qlt_le_dec a b); lra. Qed.

Lemma max2_ge_left (a b : Q) : a <= Py.max2 a b.
Proof. unfold Py.max2. destruct (Qlt_le_dec a b); lra. Qed.

Lemma true_range_nonneg (h l pc : Q) : 0 <= true_range h l pc.
Proof.
  unfold true_range, Py.max3.
  pose proof (max2_ge_right (Py.max2 (h - l) (Qabs (h - pc))) (Qabs (l - pc))).
  pose proof (Qabs_nonneg (l - pc)). lra.
Qed.

Lemma current_tr_nonneg (cs : list Candle) (h l : Q) : 0 <= current_tr cs h l.
Proof.
  unfold current_tr, Py.max3.
  match goal with |- _ <= Py.max2 ?a ?b =>
    pose proof (max2_ge_right a b) as H; assert (0 <= b); [| lra] end.
  repeat break_match; try lra; apply Qabs_nonneg.
Qed.

Lemma Forall_keep_last {A : Type} (P : A -> Prop) (n : nat) (xs : list A) :
  Forall P xs -> Forall P (Py.keep_last n xs).
Proof.
  intros H. unfold Py.keep_last.
  rewrite <- (firstn_skipn (List.length xs - n) xs) in H.
  apply Forall_app in H. tauto.
Qed.

Lemma sum_from_nonneg (xs : list Q) (a : Q) :
  0 <= a -> Forall (fun x => 0 <= x) xs -> 0 <= fold_left Qplus xs a.
Proof.
  revert a. induction xs as [| x xs IH]; intros a Ha H; cbn; [exact Ha |].
  inversion H; subst. apply IH; [lra | assumption].
Qed.

Lemma bootstrap_atr_nonneg (trs : list Q) :
  Forall (fun x => 0 <= x) trs -> 0 <= bootstrap_atr trs.
Proof.
  intros H. unfold bootstrap_atr. destruct trs as [| t trs]; [lra |].
  pose proof (@sum_from_nonneg (t :: trs) 0 ltac:(lra) H) as Hs.
  fold (Py.sum (t :: trs)) in Hs.
  assert (Hl : 0 < inject_Z (Py.len (t :: trs))).
  { unfold Py.len. cbn [List.length]. change 0 with (inject_Z 0).
    rewrite <- Zlt_Qlt. lia. }
  apply Qle_shift_div_l; [exact Hl | lra].
Qed.



Lemma bootstrap_trs_nonneg (cs : list Candle) (p : Z) :
  Forall ordered cs -> Forall (fun x => 0 <= x) (bootstrap_trs cs p).
Proof.
  intros H. unfold bootstrap_trs. apply Forall_map. apply Forall_forall.
  intros i _. unfold tr_val.
  destruct (0 <? i)%Z.
  - repeat break_match; try lra. apply true_range_nonneg.
  - unfold Py.item. destruct (nth_error cs (Z.to_nat i)) as [k |] eqn:E; [| lra].
    apply nth_error_In in E. rewrite Forall_forall in H.
    specialize (H k E). unfold ordered in H. lra.
Qed.

Lemma item_neg_In {A : Type} (xs : list A) (n : nat) (x : A) :
  Py.item_neg xs n = Some x -> In x xs.
Proof.
  unfold Py.item_neg. destruct (n <=? List.length xs)%nat; [| discriminate].
  apply nth_error_In.
Qed.

Lemma wilder_nonneg (prev tr : Q) (p : Z) :
  (1 <= p)%Z -> 0 <= prev -> 0 <= tr ->
  0 <= (prev * inject_Z (p - 1) + tr) / inject_Z p.
Proof.
  intros Hp Hprev Htr.
  assert (H1 : 0 <= inject_Z (p - 1)).
  { change 0 with (inject_Z 0). rewrite <- Zle_Qle. lia. }
  assert (H2 : 0 < inject_Z p).
  { change 0 with (inject_Z 0). rewrite <- Zlt_Qlt. lia. }
  apply Qle_shift_div_l; [exact H2 |].
  pose proof (Qmult_le_0_compat _ _ Hprev H1). lra.
Qed.

Lemma compute_atr_nonneg (s : SuperTrend) (h l c : Q) :
  (1 <= period s)%Z -> l <= h ->
  Forall ordered (candles s) -> Forall (fun a => 0 <= a) (atr_values s) ->
  Forall ordered (candles (fst (add_candle_compute s h l c)))
  /\ Forall (fun a => 0 <= a) (atr_values (fst (add_candle_compute s h l c))).
Proof.
  intros Hp Hlh Hcs Hatr.
  assert (Hcs' : Forall ordered (candles s ++ [mkCandle h l c])).
  { apply Forall_app. split; [exact Hcs |]. constructor; [exact Hlh | constructor]. }
  assert (Hnew : 0 <= stored_atr s h l c).
  { unfold stored_atr. destruct (Py.item_neg (atr_values s) 1) as [a |] eqn:Ea.
    - apply wilder_nonneg; [exact Hp | | apply current_tr_nonneg].
      apply item_neg_In in Ea. rewrite Forall_forall in Hatr. exact (Hatr a Ea).
    - apply bootstrap_atr_nonneg, bootstrap_trs_nonneg, Hcs'. }
  assert (Hatr' : Forall (fun a => 0 <= a) (atr_values s ++ [stored_atr s h l c])).
  { apply Forall_app. split; [exact Hatr |]. constructor; [exact Hnew | constructor]. }
  unfold stored_atr in Hatr'.
  unfold add_candle_compute.
  cbn [period multiplier candles atr_values supertrend_values self_direction].
  destruct (Py.len (candles s ++ [mkCandle h l c]) <? period s)%Z;
    [cbn; tauto |].
  destruct (Py.item_neg (atr_values s) 1) as [a |] eqn:Ea.
  - rewrite div_inject_Z by lia.
    repeat break_match; cbn [fst candles atr_values]; tauto.
  - repeat break_match; cbn [fst candles atr_values]; tauto.
Qed.

Lemma add_candle_atr_nonneg (s : SuperTrend) (h l c : Q) :
  (1 <= period s)%Z -> l <= h ->
  Forall ordered (candles s) -> Forall (fun a => 0 <= a) (atr_values s) ->
  Forall ordered (candles (fst (add_candle s h l c)))
  /\ Forall (fun a => 0 <= a) (atr_values (fst (add_candle s h l c))).
Proof.
  intros Hp Hlh Hcs Hatr.
  pose proof (@compute_atr_nonneg s h l c Hp Hlh Hcs Hatr) as [H1 H2].
  unfold add_candle.
  destruct (add_candle_compute s h l c) as [s' [[out |] | e]]; cbn [fst] in *;
    try tauto.
  unfold keep_last_100. destruct (100 <? Py.len (candles s'))%Z; [| tauto].
  cbn [candles atr_values]. split; apply Forall_keep_last; assumption.
Qed.

Lemma add_candle_period (s : SuperTrend) (h l c : Q) :
  period (fst (add_candle s h l c)) = period s.
Proof.
  pose proof (compute_period s h l c) as H. unfold add_candle.
  destruct (add_candle_compute s h l c) as [s' [[out |] | e]]; cbn [fst] in *;
    try exact H.
  rewrite <- H. apply keep_last_100_last.
Qed.

Lemma feed_atr_nonneg (cs : list Candle) (s : SuperTrend) :
  (1 <= period s)%Z -> Forall ordered cs ->
  Forall ordered (candles s) -> Forall (fun a => 0 <= a) (atr_values s) ->
  Forall (fun a => 0 <= a) (atr_values (fst (feed add_candle s cs))).
Proof.
  revert s. induction cs as [| k cs IH]; intros s Hp Hks Hcs Hatr; [exact Hatr |].
  inversion Hks as [| k' cs' Hk Hks']; subst.
  cbn [feed].
  pose proof (@add_candle_atr_nonneg s (high k) (low k) (close k) Hp Hk Hcs Hatr) as [H1 H2].
  pose proof (add_candle_period s (high k) (low k) (close k)) as H3.
  destruct (add_candle s (high k) (low k) (close k)) as [s1 r]. cbn [fst] in *.
  specialize (IH s1 ltac:(lia) Hks' H1 H2).
  destruct (feed add_candle s1 cs) as [s2 rs]. exact IH.
Qed.

(** What an emitting call stores. *)
Lemma compute_emit_shape (s s' : SuperTrend) (h l c : Q) (out : Q * Signal) :
  add_candle_compute s h l c = (s', Py.Ok (Some out)) ->
  exists atr fu fl,
    let bu := (h + l) / 2 + multiplier s * atr in
    let bl := (h + l) / 2 - multiplier s * atr in
    let dir := next_direction (Py.item_neg (supertrend_values s) 1) c fu fl in
    s' = mkSuperTrend (period s) (multiplier s) (candles s ++ [mkCandle h l c])
           (atr_values s ++ [atr])
           (supertrend_values s ++ [mkBand fu fl (if (dir =? 1)%Z then fl else fu) dir])
           dir
    /\ out = (if (dir =? 1)%Z then fl else fu, if (dir =? 1)%Z then GREEN else RED)
    /\ match Py.item_neg (supertrend_values s) 1 with
       | None => fu = bu /\ fl = bl
       | Some prev =>
           exists pc, Py.item_neg (candles s) 1 = Some pc
             /\ fu = final_upper_band bu (upper prev) (close pc)
             /\ fl = final_lower_band bl (lower prev) (close pc)
       end.
Proof.
  unfold add_candle_compute.
  cbn [period multiplier candles atr_values supertrend_values self_direction].
  rewrite item_neg_second.
  destruct (Py.len (candles s ++ [mkCandle h l c]) <? period s)%Z; [discriminate |].
  match goal with |- context [match ?r with Py.Ok _ => _ | Py.Raise _ => _ end] =>
    destruct r as [atr | e] eqn:Eatr end; [| discriminate].
  destruct (Py.item_neg (supertrend_values s) 1) as [prev |] eqn:Eprev.
  - destruct (Py.item_neg (candles s) 1) as [pc |] eqn:Epc; [| discriminate].
    intros H. inversion H; subst. eexists atr, _, _. cbv zeta.
    split; [reflexivity |]. split; [reflexivity |].
    exists pc. repeat split.
  - intros H. inversion H; subst. eexists atr, _, _. cbv zeta.
    split; [reflexivity |]. split; [reflexivity |]. split; reflexivity.
Qed.

Lemma next_direction_sign (prev : option Band) (c fu fl : Q) :
  next_direction prev c fu fl = 1%Z \/ next_direction prev c fu fl = (-1)%Z.
Proof. unfold next_direction. repeat break_match; auto. Qed.

Lemma add_candle_emit_inv (s s' : SuperTrend) (h l c : Q) (out : Q * Signal) :
  add_candle s h l c = (s', Py.Ok (Some out)) ->
  exists s1, add_candle_compute s h l c = (s1, Py.Ok (Some out))
             /\ s' = keep_last_100 s1.
Proof.
  unfold add_candle.
  destruct (add_candle_compute s h l c) as [s1 [[o |] | e]]; intros H;
    inversion H; subst. eauto.
Qed.

Lemma add_candle_bounded (s : SuperTrend) (h l c : Q) :
  (1 <= period s)%Z -> bounded s -> bounded (fst (add_candle s h l c)).
Proof.
  intros Hp (Ha & Hs & Hc & Ha100 & Hs100).
  unfold add_candle.
  destruct (Z.lt_ge_cases (Py.len (candles s) + 1) (period s)) as [Hw | He].
  - rewrite (compute_warmup s h l c Hw). cbn [fst]. unfold bounded.
    cbn [period candles atr_values supertrend_values].
    rewrite len_app_one, length_app. cbn [List.length]. repeat split; lia.
  - destruct (@compute_emits s h l c) as [b Hb]; [lia | right; lia | |].
    { destruct (candles s); [left | right; discriminate].
      destruct (supertrend_values s); [reflexivity | cbn in Hs; lia]. }
    rewrite Hb. cbn [fst]. unfold keep_last_100, bounded.
    cbn [period candles atr_values supertrend_values].
    rewrite len_app_one.
    destruct (Z.ltb_spec 100 (Py.len (candles s) + 1)) as [Ht | Ht];
      cbn [period candles atr_values supertrend_values].
    + rewrite !length_keep_last, !length_app. cbn [List.length].
      unfold Py.len in *. rewrite length_keep_last, length_app. cbn [List.length].
      repeat split; lia.
    + rewrite len_app_one, !length_app. cbn [List.length]. unfold Py.len in *.
      repeat split; lia.
Qed.

Lemma feed_bounded (cs : list Candle) (s : SuperTrend) :
  (1 <= period s)%Z -> bounded s -> bounded (fst (feed add_candle s cs)).
Proof.
  revert s. induction cs as [| k cs IH]; intros s Hp Hb; [exact Hb |].
  cbn [feed].
  pose proof (@add_candle_bounded s (high k) (low k) (close k) Hp Hb) as H1.
  pose proof (add_candle_period s (high k) (low k) (close k)) as H2.
  destruct (add_candle s (high k) (low k) (close k)) as [s1 r]. cbn [fst] in *.
  specialize (IH s1 ltac:(lia) H1).
  destruct (feed add_candle s1 cs) as [s2 rs]. exact IH.
Qed.

Lemma feed_period (cs : list Candle) (s : SuperTrend) :
  period (fst (feed add_candle s cs)) = period s.
Proof.
  revert s. induction cs as [| k cs IH]; intros s; [reflexivity |].
  cbn [feed].
  pose proof (add_candle_period s (high k) (low k) (close k)) as H2.
  destruct (add_candle s (high k) (low k) (close k)) as [s1 r]. cbn [fst] in *.
  specialize (IH s1).
  destruct (feed add_candle s1 cs) as [s2 rs]. cbn [fst] in *. congruence.
Qed.

Lemma zero_period_raises (s : SuperTrend) (h l c : Q) :
  period s = 0%Z -> atr_values s <> [] ->
  add_candle s h l c =
    (mkSuperTrend (period s) (multiplier s) (candles s ++ [mkCandle h l c])
       (atr_values s) (supertrend_values s) (self_direction s),
     Py.Raise Py.ZeroDivisionError).
Proof.
  intros Hp Hne. unfold add_candle, add_candle_compute.
  cbn [period multiplier candles atr_values supertrend_values self_direction].
  rewrite Hp.
  destruct (Z.ltb_spec (Py.len (candles s ++ [mkCandle h l c])) 0) as [Hlt | _].
  { unfold Py.len in Hlt. lia. }
  destruct (Py.item_neg (atr_values s) 1) as [a |] eqn:Ea.
  - reflexivity.
  - apply item_neg_none in Ea. contradiction.
Qed.

Lemma zero_period_feed (cs : list Candle) (s : SuperTrend) :
  period s = 0%Z -> atr_values s <> [] ->
  snd (feed add_candle s cs) = repeat (Py.Raise Py.ZeroDivisionError) (List.length cs)
  /\ candles (fst (feed add_candle s cs)) = candles s ++ cs
  /\ atr_values (fst (feed add_candle s cs)) = atr_values s.
Proof.
  revert s. induction cs as [| k cs IH]; intros s Hp Hne.
  - cbn. rewrite app_nil_r. auto.
  - cbn [feed]. rewrite (@zero_period_raises s (high k) (low k) (close k) Hp Hne).
    match goal with |- context [feed add_candle ?s1 cs] =>
      specialize (IH s1 Hp Hne); destruct (feed add_candle s1 cs) as [s2 rs] end.
    cbn [fst snd candles atr_values List.length repeat] in *.
    destruct IH as (I1 & I2 & I3). rewrite I1, I2, I3, <- app_assoc.
    destruct k. auto.
Qed.

Lemma zero_period_first (m h l c : Q) :
  exists s1 out,
    add_candle (init 0 m) h l c = (s1, Py.Ok (Some out))
    /\ period s1 = 0%Z /\ candles s1 = [mkCandle h l c]
    /\ List.length (atr_values s1) = 1%nat.
Proof.
  destruct (@compute_emits (init 0 m) h l c) as [b Hb];
    [cbn; lia | left; reflexivity | left; reflexivity |].
  unfold add_candle. rewrite Hb. eexists _, _. split; [reflexivity |].
  unfold keep_last_100. cbn [candles init app].
  change (100 <? Py.len [mkCandle h l c])%Z with false.
  cbn. auto.
Qed.

End MoreIndicatorFacts.

(** X1. With a period of at least 1, fed candles whose low is not above
    their high, the indicator never stores a negative ATR, whatever the
    closes are. *)
Theorem X1_atr_never_negative (p : Z) (m : Q) (cs : list Candle)
    (Hp : (1 <= p)%Z) (Hcs : Forall ordered cs) :
  Forall (fun a => 0 <= a) (atr_values (state_after p m cs)).
Proof.
  unfold state_after. apply feed_atr_nonneg; cbn; auto.
Qed.

Lemma X1_atr_never_negative_witness :
  let cs := [mkCandle 105 99 101; mkCandle 104 100 103; mkCandle 108 102 107] in
  Forall (fun a => 0 <= a) (atr_values (state_after 2 4 cs)).
Proof.
  intros cs. apply X1_atr_never_negative; [lia |].
  repeat constructor; unfold ordered; cbn; lra.
Defined.

(** X2. With a period of at least 1 the three buffers stay bounded after
    any number of calls: at most 100 ATR values and 100 bands, at most
    max(100, period - 1) candles, and never more ATR values or bands than
    candles. *)
Theorem X2_buffers_stay_bounded (p : Z) (m : Q) (cs : list Candle) (Hp : (1 <= p)%Z) :
  let s := state_after p m cs in
  (Py.len (candles s) <= Z.max 100 (p - 1))%Z
  /\ (Py.len (atr_values s) <= 100)%Z
  /\ (Py.len (supertrend_values s) <= 100)%Z
  /\ (Py.len (atr_values s) <= Py.len (candles s))%Z
  /\ (Py.len (supertrend_values s) <= Py.len (candles s))%Z.
Proof.
  intros s.
  assert (Hb : bounded s).
  { apply feed_bounded; [exact Hp |]. unfold bounded. cbn. repeat split; lia. }
  assert (Hper : period s = p) by apply feed_period.
  destruct Hb as (Ha & Hs & Hc & Ha100 & Hs100). rewrite Hper in Hc.
  unfold Py.len in *. repeat split; lia.
Qed.

Lemma X2_buffers_stay_bounded_witness :
  let s := state_after 7 4 (repeat (mkCandle 101 99 100) 120) in
  (Py.len (candles s) <= Z.max 100 (7 - 1))%Z
  /\ (Py.len (atr_values s) <= 100)%Z
  /\ (Py.len (supertrend_values s) <= 100)%Z
  /\ (Py.len (atr_values s) <= Py.len (candles s))%Z
  /\ (Py.len (supertrend_values s) <= Py.len (candles s))%Z.
Proof.
  apply (@X2_buffers_stay_bounded 7 4 (repeat (mkCandle 101 99 100) 120)). lia.
Defined.

(** X3. With a period of 0 the first call returns a value and every later
    call raises ZeroDivisionError after it has appended its candle: the
    candle buffer is never trimmed and holds every candle fed, while a
    single ATR value stays stored. *)
Theorem X3_zero_period_raises_and_grows (m : Q) (k : Candle) (cs : list Candle) :
  exists out,
    outputs 0 m (k :: cs)
    = Py.Ok (Some out) :: repeat (Py.Raise Py.ZeroDivisionError) (List.length cs)
    /\ candles (state_after 0 m (k :: cs)) = k :: cs
    /\ List.length (atr_values (state_after 0 m (k :: cs))) = 1%nat.
Proof.
  unfold outputs, state_after. cbn [feed].
  destruct (zero_period_first m (high k) (low k) (close k))
    as (s1 & out & E & Hp & Hc & Ha).
  rewrite E.
  destruct (@zero_period_feed cs s1 Hp) as (I1 & I2 & I3).
  { intros Hn. rewrite Hn in Ha. discriminate. }
  destruct (feed add_candle s1 cs) as [s2 rs].
  cbn [fst snd] in *.
  exists out. split; [rewrite I1; reflexivity |]. split.
  - rewrite I2, Hc. destruct k. reflexivity.
  - rewrite I3. exact Ha.
Qed.

(** X4. When [add_candle] returns a value and a signal, they are those of
    the band it has just stored, which stays the latest entry after the
    trim together with the new candle and the new ATR: the signal is GREEN
    and the value the lower band when the direction is 1, RED and the upper
    band when it is -1, and [self.direction] holds that direction.  On the
    first emission the bands are (high + low) / 2 plus and minus the
    multiplier times the ATR. *)
Theorem X4_emitted_value_is_latest_band (s s' : SuperTrend) (h l c v : Q) (sig : Signal)
    (Hemit : add_candle s h l c = (s', Py.Ok (Some (v, sig)))) :
  exists b atr,
    Py.item_neg (supertrend_values s') 1 = Some b
    /\ Py.item_neg (atr_values s') 1 = Some atr
    /\ Py.item_neg (candles s') 1 = Some (mkCandle h l c)
    /\ self_direction s' = direction b
    /\ value b = v
    /\ (direction b = 1%Z /\ sig = GREEN /\ v = lower b
        \/ direction b = (-1)%Z /\ sig = RED /\ v = upper b)
    /\ (supertrend_values s = [] ->
        upper b = (h + l) / 2 + multiplier s * atr
        /\ lower b = (h + l) / 2 - multiplier s * atr).
Proof.
  destruct (@add_candle_emit_inv _ _ _ _ _ _ Hemit) as [s1 [Hc ->]].
  destruct (@compute_emit_shape _ _ _ _ _ _ Hc) as (atr & fu & fl & Hs1 & Hout & Hprev).
  cbv zeta in *.
  set (dir := next_direction (Py.item_neg (supertrend_values s) 1) c fu fl) in *.
  destruct (keep_last_100_last s1) as (_ & _ & Kc & Ka & Ks & _).
  rewrite Kc, Ka, Ks.
  assert (Hdir : self_direction (keep_last_100 s1) = dir).
  { unfold keep_last_100. destruct (100 <? Py.len (candles s1))%Z; subst s1; reflexivity. }
  rewrite Hdir. subst s1.
  cbn [supertrend_values atr_values candles].
  rewrite !item_neg_last.
  eexists _, atr. split; [reflexivity |]. split; [reflexivity |]. split; [reflexivity |].
  cbn [direction value upper lower]. split; [reflexivity |].
  injection Hout as Hv Hsig. split; [congruence |]. split.
  - destruct (next_direction_sign (Py.item_neg (supertrend_values s) 1) c fu fl) as [E | E];
      fold dir in E; rewrite E in *; cbn in Hv, Hsig; [left | right]; auto.
  - intros Hnil. rewrite Hnil in Hprev. cbn in Hprev. exact Hprev.
Qed.

Lemma X4_emitted_value_is_latest_band_witness :
  exists s' v sig,
    add_candle (init 1 4) 101 99 100 = (s', Py.Ok (Some (v, sig)))
    /\ exists b atr,
         Py.item_neg (supertrend_values s') 1 = Some b
         /\ Py.item_neg (atr_values s') 1 = Some atr
         /\ Py.item_neg (candles s') 1 = Some (mkCandle 101 99 100)
         /\ self_direction s' = direction b
         /\ value b = v
         /\ (direction b = 1%Z /\ sig = GREEN /\ v = lower b
             \/ direction b = (-1)%Z /\ sig = RED /\ v = upper b)
         /\ (supertrend_values (init 1 4) = [] ->
             upper b = (101 + 99) / 2 + multiplier (init 1 4) * atr
             /\ lower b = (101 + 99) / 2 - multiplier (init 1 4) * atr).
Proof.
  assert (H : exists s' v sig,
            add_candle (init 1 4) 101 99 100 = (s', Py.Ok (Some (v, sig)))).
  { vm_compute. eauto. }
  destruct H as (s' & v & sig & H). exists s', v, sig. split; [exact H |].
  exact (@X4_emitted_value_is_latest_band (init 1 4) s' 101 99 100 v sig H).
Defined.

(** X5. Between two emitting calls the bands only tighten while the
    previous close stays inside them: the lower band does not fall if the
    previous close was at or above the previous lower band, and the upper
    band does not rise if the previous close was at or below the previous
    upper band.  The direction after an up-trend stays 1 exactly when the new
    close is at or above the new lower band, and after a down-trend it turns
    1 exactly when the new close is above the new upper band. *)
Theorem X5_bands_ratchet (s s' : SuperTrend) (h l c : Q) (out : Q * Signal)
    (pb : Band) (pc : Candle)
    (Hemit : add_candle s h l c = (s', Py.Ok (Some out)))
    (Hband : Py.item_neg (supertrend_values s) 1 = Some pb)
    (Hcandle : Py.item_neg (candles s) 1 = Some pc) :
  exists b,
    Py.item_neg (supertrend_values s') 1 = Some b
    /\ (lower pb <= close pc -> lower pb <= lower b)
    /\ (close pc <= upper pb -> upper b <= upper pb)
    /\ (direction pb = 1%Z -> (direction b = 1%Z <-> lower b <= c))
    /\ (direction pb <> 1%Z -> (direction b = 1%Z <-> upper b < c)).
Proof.
  destruct (@add_candle_emit_inv _ _ _ _ _ _ Hemit) as [s1 [Hc ->]].
  destruct (@compute_emit_shape _ _ _ _ _ _ Hc) as (atr & fu & fl & Hs1 & Hout & Hprev).
  cbv zeta in *. rewrite Hband in Hprev. destruct Hprev as (pc' & Hpc' & Hfu & Hfl).
  rewrite Hcandle in Hpc'. injection Hpc' as <-.
  destruct (keep_last_100_last s1) as (_ & _ & Kc & Ka & Ks & _).
  rewrite Ks. subst s1. cbn [supertrend_values atr_values candles].
  rewrite !item_neg_last.
  eexists. split; [reflexivity |]. cbn [direction value upper lower].
  split; [| split; [| split]].
  - intros Hle. rewrite Hfl. unfold final_lower_band. repeat break_match; lra.
  - intros Hle. rewrite Hfu. unfold final_upper_band. repeat break_match; lra.
  - intros Hd. rewrite Hband. unfold next_direction.
    apply Z.eqb_eq in Hd. rewrite Hd.
    destruct (Qlt_le_dec c fl); split; intros; try lra; try reflexivity; try discriminate.
  - intros Hd. rewrite Hband. unfold next_direction.
    apply Z.eqb_neq in Hd. rewrite Hd.
    destruct (Qlt_le_dec fu c); split; intros; try lra; try reflexivity; try discriminate.
Qed.

Lemma X5_bands_ratchet_witness :
  let s := state_after 1 4 [mkCandle 105 99 101] in
  exists s' out pb pc,
    (add_candle s 104 100 103 = (s', Py.Ok (Some out))
     /\ Py.item_neg (supertrend_values s) 1 = Some pb
     /\ Py.item_neg (candles s) 1 = Some pc)
    /\ exists b,
         Py.item_neg (supertrend_values s') 1 = Some b
         /\ (lower pb <= close pc -> lower pb <= lower b)
         /\ (close pc <= upper pb -> upper b <= upper pb)
         /\ (direction pb = 1%Z -> (direction b = 1%Z <-> lower b <= 103))
         /\ (direction pb <> 1%Z -> (direction b = 1%Z <-> upper b < 103)).
Proof.
  intros s.
  assert (H : exists s' out pb pc,
            add_candle s 104 100 103 = (s', Py.Ok (Some out))
            /\ Py.item_neg (supertrend_values s) 1 = Some pb
            /\ Py.item_neg (candles s) 1 = Some pc).
  { vm_compute. eauto 10. }
  destruct H as (s' & out & pb & pc & H1 & H2 & H3).
  exists s', out, pb, pc. split; [auto |].
  exact (@X5_bands_ratchet s s' 104 100 103 out pb pc H1 H2 H3).
Defined.

(** X6. For every period up to 101 the trim of the buffers to their last
    100 entries is invisible: on every candle sequence [add_candle] returns,
    call by call, what the same computation returns when it keeps the full
    history. *)
Theorem X6_trim_invisible_up_to_101 (p : Z) (m : Q) (cs : list Candle)
    (Hp : (p <= 101)%Z) :
  outputs p m cs = outputs_full_history p m cs.
Proof. apply trim_preserves_outputs. exact Hp. Qed.

Lemma X6_trim_invisible_up_to_101_witness :
  let cs := repeat (mkCandle 101 99 100) 120 in
  outputs 7 4 cs = outputs_full_history 7 4 cs.
Proof.
  intros cs. apply X6_trim_invisible_up_to_101. lia.
Defined.

(** ** Rounding: strikes and ticks *)

Lemma round_comp (x y : Q) : x == y -> Py.round x = Py.round y.
Proof.
  intros H. unfold Py.round. rewrite (Qfloor_comp _ _ H).
  assert (E : Qcompare (x - inject_Z (Qfloor y)) (1 # 2)
              = Qcompare (y - inject_Z (Qfloor y)) (1 # 2)).
  { apply Qcompare_comp; [rewrite H; reflexivity | reflexivity]. }
  rewrite E. reflexivity.
Qed.

Lemma round_inject_Z (z : Z) : Py.round (inject_Z z) = z.
Proof.
  unfold Py.round. rewrite Qfloor_Z.
  assert (E : Qcompare (inject_Z z - inject_Z z) (1 # 2) = Lt).
  { apply (proj1 (Qlt_alt _ _)). generalize (inject_Z z). intros q. lra. }
  rewrite E. reflexivity.
Qed.

Lemma round_multiple_nearest (price : Q) (iv : Z) :
  (0 < iv)%Z ->
  Qabs (price - inject_Z (Py.round (price / inject_Z iv) * iv)) <= inject_Z iv / 2.
Proof.
  intros Hiv.
  assert (Hq : 0 < inject_Z iv).
  { change 0 with (inject_Z 0). rewrite <- Zlt_Qlt. exact Hiv. }
  rewrite inject_Z_mult.
  pose proof (round_nearest (price / inject_Z iv)) as Hr.
  set (r := inject_Z (Py.round (price / inject_Z iv))) in *.
  apply Qabs_Qle_condition in Hr. destruct Hr as [Hr1 Hr2].
  assert (Hp : price == (price / inject_Z iv) * inject_Z iv) by (field; lra).
  set (q := price / inject_Z iv) in *.
  set (v := inject_Z iv) in *.
  assert (H1 : (q - r) * v <= (1 # 2) * v) by (apply Qmult_le_compat_r; lra).
  assert (H2 : - (1 # 2) * v <= (q - r) * v) by (apply Qmult_le_compat_r; lra).
  apply Qabs_Qle_condition. split.
  - setoid_replace (price - r * v) with ((q - r) * v) by (rewrite Hp at 1; ring).
    setoid_replace (- (v / 2)) with (- (1 # 2) * v) by field. exact H2.
  - setoid_replace (price - r * v) with ((q - r) * v) by (rewrite Hp at 1; ring).
    setoid_replace (v / 2) with ((1 # 2) * v) by field. exact H1.
Qed.

Lemma get_index_config_known (index_name : string) :
  In (Indices.get_index_config index_name)
     [Indices.NIFTY; Indices.BANKNIFTY; Indices.SENSEX; Indices.FINNIFTY;
      Indices.MIDCPNIFTY].
Proof.
  unfold Indices.get_index_config, Py.dict_get_default, Indices.INDICES.
  cbn [Py.dict_get].
  repeat match goal with
  | |- context [String.eqb ?a ?b] => destruct (String.eqb a b)
  end; cbn; auto 10.
Qed.

Lemma strike_interval_known (index_name : string) :
  let iv := Indices.strike_interval (Indices.get_index_config index_name) in
  iv = 25%Z \/ iv = 50%Z \/ iv = 100%Z.
Proof.
  pose proof (get_index_config_known index_name) as H. cbn [In] in H.
  cbv zeta.
  destruct H as [H | [H | [H | [H | [H | []]]]]]; rewrite <- H; cbn; auto.
Qed.

Lemma round_to_strike_within_50 (price : Q) (index_name : string) :
  Qabs (price - inject_Z (Indices.round_to_strike price index_name)) <= 50.
Proof.
  pose proof (strike_interval_known index_name) as Hk. cbv zeta in Hk.
  unfold Indices.round_to_strike.
  set (interval := Indices.strike_interval (Indices.get_index_config index_name)) in *.
  eapply Qle_trans; [apply round_multiple_nearest; lia |].
  destruct Hk as [E | [E | E]]; rewrite E; vm_compute; discriminate.
Qed.

(** X7. For every index name, known or not, whatever its case,
    [round_to_strike] returns a multiple of the strike interval of the
    configuration the name resolves to (25, 50 or 100) that lies within half
    an interval of the price; the upper-cased name gives the same strike, and
    for NIFTY the result is the one of [round_to_nearest_50] of server.py. *)
Theorem X7_round_to_strike_nearest_multiple (price : Q) (index_name : string) :
  let interval := Indices.strike_interval (Indices.get_index_config index_name) in
  let strike := Indices.round_to_strike price index_name in
  (interval = 25 \/ interval = 50 \/ interval = 100)%Z
  /\ (strike mod interval = 0)%Z
  /\ Qabs (price - inject_Z strike) <= inject_Z interval / 2
  /\ Indices.round_to_strike price (Py.upper index_name) = strike
  /\ Indices.round_to_strike price "NIFTY" = Server.round_to_nearest_50 price.
Proof.
  intros interval strike.
  pose proof (strike_interval_known index_name) as Hk. cbv zeta in Hk. fold interval in Hk.
  split; [exact Hk |]. split; [| split; [| split]].
  - subst strike. unfold Indices.round_to_strike. fold interval.
    apply Z.mod_mul. lia.
  - subst strike. unfold Indices.round_to_strike. fold interval.
    apply round_multiple_nearest. lia.
  - subst strike. unfold Indices.round_to_strike, Indices.get_index_config.
    rewrite upper_idempotent. reflexivity.
  - reflexivity.
Qed.

Lemma to_tick_value (x : Q) :
  to_tick x == inject_Z (Py.round (x / (1 # 20))) * (1 # 20).
Proof.
  unfold to_tick, Py.round2.
  set (n := Py.round (x / (1 # 20))).
  assert (E : Py.round (inject_Z n * (1 # 20) * 100) = (5 * n)%Z).
  { rewrite <- (round_inject_Z (5 * n)). apply round_comp.
    rewrite inject_Z_mult. change (inject_Z 5) with 5. field. }
  rewrite E. rewrite inject_Z_mult. change (inject_Z 5) with 5. field.
Qed.

Lemma to_tick_close (x : Q) : Qabs (x - to_tick x) <= 1 # 40.
Proof.
  pose proof (to_tick_value x) as Hv.
  set (n := Py.round (x / (1 # 20))) in *.
  pose proof (round_nearest (x / (1 # 20))) as Hr. fold n in Hr.
  apply Qabs_Qle_condition in Hr. destruct Hr as [Hr1 Hr2].
  assert (Hx : x / (1 # 20) == x * 20) by field.
  rewrite Hv. apply Qabs_Qle_condition. split; lra.
Qed.

(** X8. The rounding [round(round(x / 0.05) * 0.05, 2)] that the loop and
    [enter_position] apply to option prices returns a multiple of 0.05 that
    lies within 0.025 of the price, leaves a rounded price unchanged, and
    keeps a non-negative price non-negative. *)
Theorem X8_tick_rounding (x : Q) :
  (exists n : Z, to_tick x == inject_Z n * (1 # 20))
  /\ Qabs (x - to_tick x) <= 1 # 40
  /\ to_tick (to_tick x) == to_tick x
  /\ (0 <= x -> 0 <= to_tick x).
Proof.
  pose proof (to_tick_value x) as Hv.
  set (n := Py.round (x / (1 # 20))) in *.
  pose proof (round_nearest (x / (1 # 20))) as Hr. fold n in Hr.
  apply Qabs_Qle_condition in Hr. destruct Hr as [Hr1 Hr2].
  assert (Hx : x / (1 # 20) == x * 20) by field.
  pose proof (to_tick_close x) as Hclose.
  split; [exists n; exact Hv |]. split; [exact Hclose |]. split.
  - rewrite (to_tick_value (to_tick x)).
    assert (E : Py.round (to_tick x / (1 # 20)) = n).
    { rewrite <- (round_inject_Z n). apply round_comp. rewrite Hv. field. }
    rewrite E. symmetry. exact Hv.
  - intros H0. rewrite Hv.
    assert (Hn : (0 <= n)%Z).
    { destruct (Z.lt_ge_cases n 0) as [Hneg | Hok]; [| lia].
      assert (inject_Z n <= inject_Z (-1)) by (rewrite <- Zle_Qle; lia).
      change (inject_Z (-1)) with (-1) in *. lra. }
    assert (0 <= inject_Z n) by (change 0 with (inject_Z 0); rewrite <- Zle_Qle; lia).
    lra.
Qed.

(** ** The engine, one write at a time *)

Section Writes.
Variable cfg : Config.

Lemma writes_trans (env : Env) (w1 w2 w3 : World) :
  writes cfg env w1 w2 -> writes cfg env w2 w3 -> writes cfg env w1 w3.
Proof.
  intros H12 H23. induction H23 as [| w2 w3 w4 _ IH Hp]; [exact H12 |].
  exact (writes_then (IH H12) Hp).
Qed.

Lemma writes_one (env : Env) (w w' : World) : primitive cfg env w w' -> writes cfg env w w'.
Proof. intros H. exact (writes_then (writes_none cfg env w) H). Qed.

Lemma writes_other (env : Env) (w w' : World) : core_view w' = core_view w -> writes cfg env w w'.
Proof. intros H. apply writes_one, prim_other, H. Qed.

Lemma close_position_writes (env : Env) (px pnl : Q) (r : ExitReason) (w : World) :
  writes cfg env w (close_position cfg px pnl r w).
Proof.
  destruct (current_position (self w)) as [p |] eqn:E.
  - apply writes_one. exact (prim_close cfg env px pnl r w E).
  - unfold close_position. rewrite E. apply writes_none.
Qed.

Lemma squareoff_writes (env : Env) (w : World) : writes cfg env w (squareoff cfg env w).
Proof.
  unfold squareoff.
  repeat break_match; try apply writes_none; apply close_position_writes.
Qed.

Lemma force_squareoff_writes (env : Env) (w : World) :
  writes cfg env w (force_squareoff cfg env w).
Proof.
  unfold force_squareoff.
  repeat break_match; try apply writes_none; apply squareoff_writes.
Qed.

Lemma fetch_market_data_writes (env : Env) (w : World) :
  writes cfg env w (fetch_market_data env w).
Proof.
  apply writes_other. unfold fetch_market_data.
  destruct w as [s bs lv st].
  repeat break_match; reflexivity.
Qed.

Lemma simulate_paper_ltp_writes (env : Env) (w : World) :
  writes cfg env w (simulate_paper_ltp env w).
Proof.
  apply writes_other. unfold simulate_paper_ltp.
  destruct w as [s bs lv st].
  repeat break_match; reflexivity.
Qed.

Lemma check_trailing_sl_on_close_writes (env : Env) (ltp : Q) (w : World) :
  writes cfg env w (fst (check_trailing_sl_on_close cfg ltp w)).
Proof.
  unfold check_trailing_sl_on_close.
  destruct (current_position (self w)) eqn:E; [| apply writes_none].
  unfold bind.
  pose proof (prim_ratchet cfg env ltp w) as Hr.
  destruct (check_trailing_sl cfg ltp w) as [w1 [[] | e]]; cbn [fst] in *.
  - destruct (sl_breached ltp w1); cbn [fst].
    + eapply writes_trans; [apply writes_one, Hr | apply close_position_writes].
    + apply writes_one, Hr.
  - apply writes_one, Hr.
Qed.

Lemma trailing_check_writes (env : Env) (now : Q) (w : World) :
  writes cfg env w (fst (trailing_check cfg now w)).
Proof.
  unfold trailing_check.
  destruct (current_position (self w)) eqn:E; [| apply writes_none].
  unfold bind.
  pose proof (check_trailing_sl_on_close_writes env (current_option_ltp (bot_state w)) w) as H.
  destruct (check_trailing_sl_on_close cfg (current_option_ltp (bot_state w)) w)
    as [w1 [[] | e]]; cbn [fst] in *; try exact H.
  eapply writes_trans; [exact H |].
  apply writes_other. destruct w1 as [s bs lv st]. reflexivity.
Qed.

Lemma process_signal_on_close_writes (env : Env) (sig : Signal) (c : Q) (w : World) :
  writes cfg env w (fst (process_signal_on_close cfg env sig c w)).
Proof.
  unfold process_signal_on_close.
  destruct (current_position (self w)) as [p |] eqn:E.
  - destruct (option_type p), sig; cbn [fst]; try apply writes_none;
      apply close_position_writes.
  - destruct (can_take_new_trade env) eqn:Ecan; cbn [negb]; [| apply writes_none].
    destruct (Z.leb_spec (max_trades_per_day cfg) (daily_trades (bot_state w)));
      [apply writes_none |].
    cbn [fst]. apply writes_one. apply prim_enter; assumption.
Qed.

Lemma trading_logic_writes (env : Env) (now : Q) (sig : Signal) (c : Q) (w : World) :
  writes cfg env w (fst (trading_logic cfg env now sig c w)).
Proof.
  unfold trading_logic.
  match goal with |- context [if ?b then _ else _] => destruct b end;
    [| apply writes_none].
  pose proof (process_signal_on_close_writes env sig c w) as H.
  destruct (process_signal_on_close cfg env sig c w) as [w1 [|]]; cbn [fst] in *;
    [| exact H].
  eapply writes_trans; [exact H |].
  apply writes_other. destruct w1 as [s bs lv st]. reflexivity.
Qed.

Lemma on_signal_writes (env : Env) (now v : Q) (sig : Signal) (c : Q) (w : World) :
  writes cfg env w (fst (on_signal cfg env now v sig c w)).
Proof.
  unfold on_signal, bind, lift.
  set (w0 := with_bot_state (set_signal v sig) w).
  assert (H0 : writes cfg env w w0).
  { apply writes_other. destruct w as [s bs lv st]. reflexivity. }
  pose proof (trailing_check_writes env now w0) as H1.
  destruct (trailing_check cfg now w0) as [w1 [[] | e]]; cbn [fst] in *.
  - eapply writes_trans; [exact H0 |]. eapply writes_trans; [exact H1 |].
    apply trading_logic_writes.
  - eapply writes_trans; [exact H0 | exact H1].
Qed.

Lemma on_candle_writes (env : Env) (now h l c : Q) (w : World) :
  writes cfg env w (fst (on_candle cfg env now h l c w)).
Proof.
  unfold on_candle.
  destruct (add_candle (supertrend (self w)) h l c) as [st r].
  set (w0 := with_self (set_supertrend st) w).
  assert (H0 : writes cfg env w w0).
  { apply writes_other. destruct w as [s bs lv sto]. reflexivity. }
  destruct r as [[[v sig] |] | e]; cbn [fst]; try exact H0.
  destruct (Py.truthy v); cbn [fst]; [| exact H0].
  eapply writes_trans; [exact H0 | apply on_signal_writes].
Qed.

Lemma candle_block_writes (env : Env) (w : World) :
  writes cfg env w (fst (candle_block cfg env w)).
Proof.
  unfold candle_block.
  destruct (boundary_crossed cfg env w); [| apply writes_none].
  unfold bind, lift, ret.
  assert (Hreset : forall w1, writes cfg env w1
            (with_loop (fun _ => mkLoopVars (now_reset env) 0 None 0) w1)).
  { intros w1. apply writes_other. destruct w1 as [s bs lv sto]. reflexivity. }
  destruct (candle_low (loop w)) as [l |]; [| apply Hreset].
  destruct (Qlt_le_dec 0 (candle_high (loop w))); [| apply Hreset].
  pose proof (on_candle_writes env (now_candle env) (candle_high (loop w)) l
                (candle_close (loop w)) w) as H.
  destruct (on_candle cfg env (now_candle env) (candle_high (loop w)) l
              (candle_close (loop w)) w) as [w1 [[] | e]]; cbn [fst] in *.
  - eapply writes_trans; [exact H | apply Hreset].
  - exact H.
Qed.

Lemma run_loop_iteration_writes (env : Env) (w : World) :
  writes cfg env (daily_reset env w) (run_loop_iteration cfg env w).
Proof.
  unfold run_loop_iteration, run_loop_body.
  set (w0 := daily_reset env w).
  pose proof (force_squareoff_writes env w0) as H1.
  set (w1 := force_squareoff cfg env w0) in *.
  destruct (negb (is_market_open env)); [exact H1 |].
  destruct (daily_max_loss_triggered (bot_state w1)); [exact H1 |].
  pose proof (fetch_market_data_writes env w1) as H2.
  set (w2 := fetch_market_data env w1) in *.
  unfold bind, lift.
  pose proof (candle_block_writes env w2) as H3.
  destruct (candle_block cfg env w2) as [w3 [[] | e]]; cbn [fst] in *.
  - eapply writes_trans; [exact H1 |]. eapply writes_trans; [exact H2 |].
    eapply writes_trans; [exact H3 |]. apply simulate_paper_ltp_writes.
  - eapply writes_trans; [exact H1 |]. eapply writes_trans; [exact H2 | exact H3].
Qed.

Lemma writes_invariant (P : World -> Prop) (env : Env) :
  (forall w w', primitive cfg env w w' -> P w -> P w') ->
  forall w w', writes cfg env w w' -> P w -> P w'.
Proof.
  intros Hstep w w' H. induction H as [| w1 w2 w3 _ IH Hp]; [tauto |].
  intros H1. exact (Hstep _ _ Hp (IH H1)).
Qed.

Lemma reachable_invariant (P : World -> Prop) (m : Mode) (t0 : Q) :
  P (initial cfg m t0) ->
  (forall env w, P w -> P (daily_reset env w)) ->
  (forall env w w', primitive cfg env w w' -> P w -> P w') ->
  forall w, reachable cfg m t0 w -> P w.
Proof.
  intros H0 Hreset Hstep w H. induction H as [| env w _ IH | env w _ IH].
  - exact H0.
  - exact (writes_invariant P (Hstep env) (run_loop_iteration_writes env w)
             (Hreset env w IH)).
  - exact (writes_invariant P (Hstep env) (squareoff_writes env w) IH).
Qed.

Lemma daily_reset_off (env : Env) (w : World) :
  at_daily_reset env = false -> daily_reset env w = w.
Proof. intros H. unfold daily_reset. rewrite H. reflexivity. Qed.

Lemma within_day_invariant (P : World -> Prop) (w0 : World) :
  P w0 ->
  (forall env w w', primitive cfg env w w' -> P w -> P w') ->
  forall w, reachable_within_day cfg w0 w -> P w.
Proof.
  intros H0 Hstep w H. induction H as [| env w _ IH Hoff | env w _ IH].
  - exact H0.
  - pose proof (run_loop_iteration_writes env w) as H.
    rewrite (daily_reset_off env w Hoff) in H.
    exact (writes_invariant P (Hstep env) H IH).
  - exact (writes_invariant P (Hstep env) (squareoff_writes env w) IH).
Qed.

End Writes.

Lemma core_view_fields (w w' : World) :
  core_view w' = core_view w ->
  store w' = store w
  /\ current_position (self w') = current_position (self w)
  /\ entry_price (self w') = entry_price (self w)
  /\ trailing_sl (self w') = trailing_sl (self w)
  /\ highest_profit (self w') = highest_profit (self w)
  /\ mode (bot_state w') = mode (bot_state w)
  /\ bs_current_position (bot_state w') = bs_current_position (bot_state w)
  /\ daily_trades (bot_state w') = daily_trades (bot_state w)
  /\ daily_pnl (bot_state w') = daily_pnl (bot_state w)
  /\ daily_max_loss_triggered (bot_state w') = daily_max_loss_triggered (bot_state w)
  /\ bs_trailing_sl (bot_state w') = bs_trailing_sl (bot_state w)
  /\ bs_entry_price (bot_state w') = bs_entry_price (bot_state w)
  /\ max_drawdown (bot_state w') = max_drawdown (bot_state w)
  /\ dhan (self w') = dhan (self w).
Proof.
  unfold core_view. intros H. injection H. intros. repeat split; assumption.
Qed.

Ltac core_same H :=
  destruct (core_view_fields H)
    as (Cst & Cpos & Centry & Csl & Chp & Cmode & Cbpos & Ctrades & Cpnl & Cflag
        & Cbsl & Cbentry & Cdd & Cdhan).

Section Invariants.
Variable cfg : Config.

(** What [enter_position] does: nothing, or the position is opened. *)
Lemma enter_position_cases (env : Env) (ot : OptionType) (k : Z) (ltp : Q) (w : World) :
  let w' := enter_position cfg env ot k ltp w in
  w' = w
  \/ exists p e,
       w' = record (Entered p e (qty cfg))
              (mkWorld (set_position (Some p) e (self w))
                 (mkBotState (mode (bot_state w)) (Some p)
                    (daily_trades (bot_state w) + 1)%Z (daily_pnl (bot_state w))
                    (daily_max_loss_triggered (bot_state w))
                    (last_supertrend_signal (bot_state w)) (index_ltp (bot_state w))
                    (supertrend_value (bot_state w)) (bs_trailing_sl (bot_state w))
                    e e (max_drawdown (bot_state w)))
                 (loop w) (store w))
       /\ option_type p = ot /\ strike p = k /\ pos_security_id p <> SecNone.
Proof.
  unfold enter_position.
  destruct (mode (bot_state w)).
  - right. eexists _, _. split; [reflexivity |]. cbn.
    split; [reflexivity |]. split; [reflexivity |].
    repeat break_match; congruence.
  - destruct (negb (dhan (self w))); [left; reflexivity |].
    destruct (if dhan (self w) then
                match atm_security_id env with Some sid => sid | None => SecNone end
              else SecNone) eqn:Esid; [left; reflexivity | |];
      (destruct (negb (order_accepted (buy_order env))); [left; reflexivity |]);
      right; eexists _, _; (split; [reflexivity |]); cbn;
      (split; [reflexivity |]); (split; [reflexivity |]); congruence.
Qed.


Lemma mirrored_step (env : Env) (w w' : World) :
  primitive cfg env w w' -> mirrored w -> mirrored w'.
Proof.
  intros Hp H. destruct Hp as [px pnl r w p Hpos | ot k ltp w Hflat Hcan Hlt | ltp w | w w' Hc].
  - unfold close_position. rewrite Hpos. unfold mirrored. cbn. tauto.
  - destruct (enter_position_cases env ot k ltp w) as [E | [p [e [E _]]]]; rewrite E.
    + exact H.
    + destruct H as [H1 [H2 [H3 H4]]]. destruct (H4 Hflat) as [H5 _].
      unfold mirrored. cbn. repeat split; try congruence; intros; discriminate.
  - destruct H as [H1 [H2 [H3 H4]]].
    unfold check_trailing_sl.
    destruct (current_position (self w)) eqn:Epos; [| unfold mirrored; cbn; rewrite Epos; tauto].
    unfold mirrored.
    repeat break_match; cbn; rewrite ?Epos;
      repeat split; try assumption; try reflexivity; try congruence; intros; try discriminate.
  - destruct H as [H1 [H2 [H3 H4]]]. core_same Hc. unfold mirrored.
    split; [congruence |]. split; [congruence |]. split; [congruence |].
    intros Hf. rewrite Cpos in Hf. destruct (H4 Hf) as [Ha [Hb Hz]].
    repeat split; congruence.
Qed.

End Invariants.

Section Accounting.

Variable cfg : Config.

Lemma books_step (env : Env) (w0 w w' : World) :
  primitive cfg env w w' ->
  (exists newer, books w0 w newer) -> exists newer, books w0 w' newer.
Proof.
  intros Hp [newer (Hst & Htr & Hpnl)].
  destruct Hp as [px pnl r w p Hpos | ot k ltp w Hflat Hcan Hlt | ltp w | w w' Hc].
  - exists (Exited (trade_id p) px pnl r :: newer).
    unfold close_position, books. rewrite Hpos. cbn.
    split; [rewrite Hst; reflexivity |].
    split; [exact Htr |].
    rewrite Hpnl. ring.
  - destruct (enter_position_cases cfg env ot k ltp w) as [E | [p [e [E _]]]]; rewrite E.
    + exists newer. repeat split; assumption.
    + exists (Entered p e (qty cfg) :: newer). unfold books. cbn.
      split; [rewrite Hst; reflexivity |].
      split; [unfold entries in *; cbn; rewrite Htr; lia | assumption].
  - exists newer. unfold books, check_trailing_sl.
    repeat break_match; cbn; repeat split; assumption.
  - exists newer. core_same Hc. unfold books.
    rewrite Cst, Ctrades, Cpnl. repeat split; assumption.
Qed.

Lemma drawdown_step (env : Env) (w0 w w' : World) :
  primitive cfg env w w' ->
  (exists newer, drawdown_books w0 w newer) -> exists newer, drawdown_books w0 w' newer.
Proof.
  intros Hp [newer (Hst & Hdd)].
  destruct Hp as [px pnl r w p Hpos | ot k ltp w Hflat Hcan Hlt | ltp w | w w' Hc].
  - exists (Exited (trade_id p) px pnl r :: newer).
    unfold close_position, drawdown_books. rewrite Hpos. cbn.
    split; [rewrite Hst; reflexivity |].
    unfold Py.max2 in *.
    destruct (Qlt_le_dec pnl 0) as [Hneg | Hpos0]; [| exact Hdd].
    assert (Habs : Qabs pnl == - pnl) by (apply Qabs_neg; lra).
    destruct (Qlt_le_dec (max_drawdown (bot_state w0)) (largest_loss newer));
      repeat break_match; lra.
  - destruct (enter_position_cases cfg env ot k ltp w) as [E | [p [e [E _]]]]; rewrite E.
    + exists newer. split; assumption.
    + exists (Entered p e (qty cfg) :: newer). unfold drawdown_books. cbn.
      split; [rewrite Hst; reflexivity | assumption].
  - exists newer. unfold drawdown_books, check_trailing_sl.
    repeat break_match; cbn; split; assumption.
  - exists newer. core_same Hc. unfold drawdown_books.
    rewrite Cst, Cdd. split; assumption.
Qed.

Lemma largest_loss_nonneg (st : list Event) : 0 <= largest_loss st.
Proof.
  induction st as [| e st IH]; cbn; [lra |].
  destruct e; [exact IH |]. repeat break_match; lra.
Qed.

End Accounting.

Section Flat.
Variable cfg : Config.

Lemma primitive_store (env : Env) (w w' : World) :
  primitive cfg env w w' -> exists newer, store w' = newer ++ store w.
Proof.
  intros Hp.
  destruct Hp as [px pnl r w p Hpos | ot k ltp w Hflat Hcan Hlt | ltp w | w w' Hc].
  - exists [Exited (trade_id p) px pnl r]. unfold close_position. rewrite Hpos. reflexivity.
  - destruct (enter_position_cases cfg env ot k ltp w) as [E | [p [e [E _]]]]; rewrite E.
    + exists []. reflexivity.
    + exists [Entered p e (qty cfg)]. reflexivity.
  - exists []. unfold check_trailing_sl. repeat break_match; reflexivity.
  - exists []. core_same Hc. exact Cst.
Qed.

Lemma writes_store (env : Env) (w w' : World) :
  writes cfg env w w' -> exists newer, store w' = newer ++ store w.
Proof.
  intros H. induction H as [| w1 w2 w3 _ [n1 IH] Hp]; [exists []; reflexivity |].
  destruct (primitive_store Hp) as [n2 Hn]. exists (n2 ++ n1).
  rewrite Hn, IH, app_assoc. reflexivity.
Qed.

(** Past the entry cut-off a flat bot stays flat and writes nothing. *)
Lemma writes_flat_after_cutoff (env : Env) (w w' : World) :
  writes cfg env w w' ->
  can_take_new_trade env = false -> current_position (self w) = None ->
  core_view w' = core_view w.
Proof.
  intros H Hcan Hflat. induction H as [| w1 w2 w3 _ IH Hp]; [reflexivity |].
  specialize (IH Hflat). rewrite <- IH.
  assert (Hflat2 : current_position (self w2) = None).
  { core_same IH. congruence. }
  destruct Hp as [px pnl r w2 p Hpos | ot k ltp w2 Hf Hc Hlt | ltp w2 | w2 w3 Hc].
  - congruence.
  - congruence.
  - unfold check_trailing_sl. rewrite Hflat2. reflexivity.
  - exact Hc.
Qed.

Lemma after_squareoff_writes (env : Env) (w : World) :
  writes cfg env (force_squareoff cfg env (daily_reset env w))
    (run_loop_iteration cfg env w).
Proof.
  unfold run_loop_iteration, run_loop_body.
  set (w1 := force_squareoff cfg env (daily_reset env w)).
  destruct (negb (is_market_open env)); [apply writes_none |].
  destruct (daily_max_loss_triggered (bot_state w1)); [apply writes_none |].
  pose proof (fetch_market_data_writes cfg env w1) as H2.
  set (w2 := fetch_market_data env w1) in *.
  unfold bind, lift.
  pose proof (candle_block_writes cfg env w2) as H3.
  destruct (candle_block cfg env w2) as [w3 [[] | e]]; cbn [fst] in *.
  - eapply writes_trans; [exact H2 |].
    eapply writes_trans; [exact H3 |]. apply simulate_paper_ltp_writes.
  - eapply writes_trans; [exact H2 | exact H3].
Qed.

End Flat.

(** ** The stop and the peak *)

Lemma check_trailing_sl_highest (cfg : Config) (ltp : Q) (w : World) :
  current_position (self w) <> None ->
  highest_profit (self (fst (check_trailing_sl cfg ltp w)))
  = if Qlt_le_dec (highest_profit (self w)) (ltp - entry_price (self w))
    then ltp - entry_price (self w) else highest_profit (self w).
Proof.
  intros Hpos. unfold check_trailing_sl.
  destruct (current_position (self w)); [| contradiction].
  destruct (Qlt_le_dec (highest_profit (self w)) (ltp - entry_price (self w)));
    repeat break_match; reflexivity.
Qed.

Lemma stop_formula_window (cfg : Config) (w : World) (sl : Q) :
  0 < trail_step cfg -> stop_formula cfg w -> trailing_sl (self w) = Some sl ->
  entry_price (self w) <= sl
  /\ sl <= entry_price (self w) + highest_profit (self w) - trail_start_profit cfg
  /\ entry_price (self w) + highest_profit (self w) - trail_start_profit cfg
       - trail_step cfg < sl.
Proof.
  intros Hstep Hinv Hsl. unfold stop_formula in Hinv. rewrite Hsl in Hinv.
  destruct Hinv as [Hge Heq].
  set (x := (highest_profit (self w) - trail_start_profit cfg) / trail_step cfg) in *.
  assert (Hx : x * trail_step cfg == highest_profit (self w) - trail_start_profit cfg).
  { subst x. field. lra. }
  assert (H0 : 0 <= x) by (apply (@levels_nonneg cfg Hstep); exact Hge).
  pose proof (Qfloor_le x) as Hlo.
  pose proof (Qlt_floor x) as Hhi.
  rewrite inject_Z_plus in Hhi. change (inject_Z 1) with 1 in Hhi.
  assert (Hf0 : 0 <= inject_Z (Qfloor x)).
  { apply Qfloor_resp_le in H0. change (Qfloor 0) with 0%Z in H0.
    rewrite Zle_Qle in H0. exact H0. }
  set (f := inject_Z (Qfloor x)) in *.
  set (s := trail_step cfg) in *.
  assert (H1 : 0 <= s * f) by (apply Qmult_le_0_compat; lra).
  assert (H2 : f * s <= x * s) by (apply Qmult_le_compat_r; lra).
  assert (H3 : x * s < (f + 1) * s) by (apply Qmult_lt_compat_r; lra).
  repeat split; lra.
Qed.

(** ** What the loop feeds the indicator *)

Section Feed.
Variable cfg : Config.

Lemma same_feed_refl (w : World) : same_feed w w.
Proof. split; reflexivity. Qed.

Lemma same_feed_trans (w1 w2 w3 : World) :
  same_feed w1 w2 -> same_feed w2 w3 -> same_feed w1 w3.
Proof. intros [A B] [C D]. split; congruence. Qed.

Lemma primitive_same_feed_close (px pnl : Q) (r : ExitReason) (w : World) :
  same_feed w (close_position cfg px pnl r w).
Proof. unfold close_position. destruct w as [s bs lv st]. repeat break_match; split; reflexivity. Qed.

Lemma enter_position_same_feed (env : Env) (ot : OptionType) (k : Z) (ltp : Q) (w : World) :
  same_feed w (enter_position cfg env ot k ltp w).
Proof.
  destruct (enter_position_cases cfg env ot k ltp w) as [E | [p [e [E _]]]]; rewrite E.
  - apply same_feed_refl.
  - split; reflexivity.
Qed.

Lemma check_trailing_sl_same_feed (ltp : Q) (w : World) :
  same_feed w (fst (check_trailing_sl cfg ltp w)).
Proof.
  unfold check_trailing_sl. destruct w as [s bs lv st].
  repeat break_match; split; reflexivity.
Qed.

Lemma daily_reset_same_feed (env : Env) (w : World) : same_feed w (daily_reset env w).
Proof. unfold daily_reset. destruct (at_daily_reset env); split; reflexivity. Qed.

Lemma squareoff_same_feed (env : Env) (w : World) : same_feed w (squareoff cfg env w).
Proof.
  unfold squareoff.
  repeat break_match; try apply same_feed_refl; apply primitive_same_feed_close.
Qed.

Lemma force_squareoff_same_feed (env : Env) (w : World) :
  same_feed w (force_squareoff cfg env w).
Proof.
  unfold force_squareoff.
  repeat break_match; try apply same_feed_refl; apply squareoff_same_feed.
Qed.

Lemma simulate_paper_ltp_same_feed (env : Env) (w : World) :
  same_feed w (simulate_paper_ltp env w).
Proof.
  unfold simulate_paper_ltp. destruct w as [s bs lv st].
  repeat break_match; split; reflexivity.
Qed.

Lemma check_trailing_sl_on_close_same_feed (ltp : Q) (w : World) :
  same_feed w (fst (check_trailing_sl_on_close cfg ltp w)).
Proof.
  unfold check_trailing_sl_on_close.
  destruct (current_position (self w)); [| apply same_feed_refl].
  unfold bind.
  pose proof (check_trailing_sl_same_feed ltp w) as H.
  destruct (check_trailing_sl cfg ltp w) as [w1 [[] | e]]; cbn [fst] in *; [| exact H].
  destruct (sl_breached ltp w1); cbn [fst]; [| exact H].
  eapply same_feed_trans; [exact H | apply primitive_same_feed_close].
Qed.

Lemma trailing_check_same_feed (now : Q) (w : World) :
  same_feed w (fst (trailing_check cfg now w)).
Proof.
  unfold trailing_check.
  destruct (current_position (self w)); [| apply same_feed_refl].
  unfold bind.
  pose proof (check_trailing_sl_on_close_same_feed (current_option_ltp (bot_state w)) w) as H.
  destruct (check_trailing_sl_on_close cfg (current_option_ltp (bot_state w)) w)
    as [w1 [[] | e]]; cbn [fst] in *; exact H.
Qed.

Lemma process_signal_on_close_same_feed (env : Env) (sig : Signal) (c : Q) (w : World) :
  same_feed w (fst (process_signal_on_close cfg env sig c w)).
Proof.
  unfold process_signal_on_close.
  repeat break_match; cbn [fst]; try apply same_feed_refl;
    try apply primitive_same_feed_close; apply enter_position_same_feed.
Qed.

Lemma trading_logic_same_feed (env : Env) (now : Q) (sig : Signal) (c : Q) (w : World) :
  same_feed w (fst (trading_logic cfg env now sig c w)).
Proof.
  unfold trading_logic.
  match goal with |- context [if ?b then _ else _] => destruct b end;
    [| apply same_feed_refl].
  pose proof (process_signal_on_close_same_feed env sig c w) as H.
  destruct (process_signal_on_close cfg env sig c w) as [w1 [|]]; cbn [fst] in *;
    [| exact H].
  eapply same_feed_trans; [exact H |]. split; reflexivity.
Qed.

Lemma on_signal_same_feed (env : Env) (now v : Q) (sig : Signal) (c : Q) (w : World) :
  same_feed w (fst (on_signal cfg env now v sig c w)).
Proof.
  unfold on_signal, bind, lift.
  set (w0 := with_bot_state (set_signal v sig) w).
  assert (H0 : same_feed w w0) by (split; reflexivity).
  pose proof (trailing_check_same_feed now w0) as H1.
  destruct (trailing_check cfg now w0) as [w1 [[] | e]]; cbn [fst] in *.
  - eapply same_feed_trans; [exact H0 |]. eapply same_feed_trans; [exact H1 |].
    apply trading_logic_same_feed.
  - eapply same_feed_trans; [exact H0 | exact H1].
Qed.

(** The candles of the indicator after a call. *)
Lemma add_candle_candles (s : SuperTrend) (h l c : Q) :
  let cs := candles s ++ [mkCandle h l c] in
  candles (fst (add_candle s h l c)) = cs
  \/ candles (fst (add_candle s h l c)) = Py.keep_last 100 cs.
Proof.
  cbv zeta. unfold add_candle.
  assert (Hc : candles (fst (add_candle_compute s h l c)) = candles s ++ [mkCandle h l c]).
  { unfold add_candle_compute.
    cbn [period multiplier candles atr_values supertrend_values self_direction].
    repeat break_match; reflexivity. }
  destruct (add_candle_compute s h l c) as [s1 [[out |] | e]]; cbn [fst] in *; auto.
  unfold keep_last_100. destruct (100 <? Py.len (candles s1))%Z; cbn [candles]; auto.
  right. congruence.
Qed.

Lemma same_feed_fed_well (w w' : World) : same_feed w w' -> fed_well cfg w -> fed_well cfg w'.
Proof. intros [A B] H. unfold fed_well in *. rewrite A, B. exact H. Qed.

Lemma well_formed_ordered (cs : list Candle) :
  Forall well_formed cs -> Forall ordered cs.
Proof.
  apply Forall_impl. intros k (H1 & H2 & H3). unfold ordered. lra.
Qed.

Lemma on_candle_fed_well (env : Env) (now h l c : Q) (w : World) :
  well_formed (mkCandle h l c) -> fed_well cfg w ->
  fed_well cfg (fst (on_candle cfg env now h l c w)).
Proof.
  intros Hk (Hl & Hc & Hp & Ha). unfold on_candle.
  pose proof (add_candle_candles (supertrend (self w)) h l c) as Hcs. cbv zeta in Hcs.
  pose proof (add_candle_period (supertrend (self w)) h l c) as Hper.
  assert (Hatr : (1 <= supertrend_period cfg)%Z ->
            Forall (fun a => 0 <= a)
              (atr_values (fst (add_candle (supertrend (self w)) h l c)))).
  { intros H1. apply add_candle_atr_nonneg; [lia | | apply well_formed_ordered, Hc | auto].
    destruct Hk as (K1 & K2 & K3). cbn in *. lra. }
  destruct (add_candle (supertrend (self w)) h l c) as [st r]. cbn [fst] in *.
  set (w0 := with_self (set_supertrend st) w).
  assert (H0 : fed_well cfg w0).
  { split; [exact Hl |]. cbn. split; [| split; [congruence | exact Hatr]].
    assert (Hall : Forall well_formed (candles (supertrend (self w)) ++ [mkCandle h l c])).
    { apply Forall_app. split; [exact Hc | constructor; [exact Hk | constructor]]. }
    destruct Hcs as [E | E]; rewrite E; [exact Hall | apply Forall_keep_last, Hall]. }
  destruct r as [[[v sig] |] | e]; cbn [fst]; try exact H0.
  destruct (Py.truthy v); cbn [fst]; [| exact H0].
  exact (same_feed_fed_well (on_signal_same_feed env now v sig c w0) H0).
Qed.

Lemma candle_block_fed_well (env : Env) (w : World) :
  fed_well cfg w -> fed_well cfg (fst (candle_block cfg env w)).
Proof.
  intros H. unfold candle_block.
  destruct (boundary_crossed cfg env w); [| exact H].
  unfold bind, lift, ret.
  assert (Hreset : forall w1, fed_well cfg w1 ->
            fed_well cfg (with_loop (fun _ => mkLoopVars (now_reset env) 0 None 0) w1)).
  { intros w1 [_ Hc]. split; [exact I | exact Hc]. }
  destruct (candle_low (loop w)) as [l |] eqn:El; [| apply Hreset, H].
  destruct (Qlt_le_dec 0 (candle_high (loop w))); [| apply Hreset, H].
  assert (Hk : well_formed (mkCandle (candle_high (loop w)) l (candle_close (loop w)))).
  { destruct H as [Hl _]. unfold candle_in_progress in Hl. rewrite El in Hl.
    unfold well_formed. cbn. exact Hl. }
  pose proof (@on_candle_fed_well env (now_candle env) _ _ _ w Hk H) as H1.
  destruct (on_candle cfg env (now_candle env) (candle_high (loop w)) l
              (candle_close (loop w)) w) as [w1 [[] | e]]; cbn [fst] in *.
  - apply Hreset, H1.
  - exact H1.
Qed.

Lemma fetch_market_data_fed_well (env : Env) (w : World) :
  fed_well cfg w -> fed_well cfg (fetch_market_data env w).
Proof.
  intros H. unfold fetch_market_data.
  destruct (dhan (self w)); [| exact H].
  cbv zeta.
  match goal with
  | |- fed_well cfg (if Qlt_le_dec 0 (index_ltp (bot_state ?X)) then _ else _) =>
      set (w1 := X)
  end.
  assert (H1 : same_feed w w1).
  { subst w1. destruct w as [s bs lv st]. repeat break_match; split; reflexivity. }
  destruct (Qlt_le_dec 0 (index_ltp (bot_state w1))) as [Hpos |];
    [| exact (same_feed_fed_well H1 H)].
  destruct H1 as [Hs Hlv]. destruct H as [Hl Hrest]. split.
  - cbn. rewrite Hlv. unfold candle_in_progress in *. cbn.
    set (ltp := index_ltp (bot_state w1)) in *.
    destruct (candle_low (loop w)) as [low |].
    + destruct (Qlt_le_dec ltp low), (Qlt_le_dec (candle_high (loop w)) ltp); lra.
    + destruct (Qlt_le_dec (candle_high (loop w)) ltp); lra.
  - cbn. rewrite Hs. exact Hrest.
Qed.

Lemma run_loop_iteration_fed_well (env : Env) (w : World) :
  fed_well cfg w -> fed_well cfg (run_loop_iteration cfg env w).
Proof.
  intros H. unfold run_loop_iteration, run_loop_body.
  set (w0 := daily_reset env w).
  assert (H0 : fed_well cfg w0) by exact (same_feed_fed_well (daily_reset_same_feed env w) H).
  set (w1 := force_squareoff cfg env w0).
  assert (H1 : fed_well cfg w1)
    by exact (same_feed_fed_well (force_squareoff_same_feed env w0) H0).
  destruct (negb (is_market_open env)); [exact H1 |].
  destruct (daily_max_loss_triggered (bot_state w1)); [exact H1 |].
  pose proof (fetch_market_data_fed_well env H1) as H2.
  set (w2 := fetch_market_data env w1) in *.
  unfold bind, lift.
  pose proof (candle_block_fed_well env H2) as H3.
  destruct (candle_block cfg env w2) as [w3 [[] | e]]; cbn [fst] in *; [| exact H3].
  exact (same_feed_fed_well (simulate_paper_ltp_same_feed env w3) H3).
Qed.

End Feed.

(** ** Entering and squaring off *)

(** X9. [enter_position] is all or nothing.  Either nothing at all
    changes, or one trade row is saved and the position, both copies of the
    entry price, the option price and the trade count are set together, with
    the stop unset and the highest profit 0.  Paper mode always enters; live
    mode changes nothing without a broker, without a security id or when the
    order is not accepted, and otherwise enters on the id the broker
    returned. *)
Theorem X9_enter_position_all_or_nothing (cfg : Config) (env : Env) (ot : OptionType)
    (k : Z) (index_price : Q) (w : World) :
  let w' := enter_position cfg env ot k index_price w in
  (w' = w
   \/ exists p e,
        store w' = Entered p e (qty cfg) :: store w
        /\ current_position (self w') = Some p
        /\ bs_current_position (bot_state w') = Some p
        /\ option_type p = ot /\ strike p = k /\ pos_security_id p <> SecNone
        /\ entry_price (self w') = e /\ bs_entry_price (bot_state w') = e
        /\ current_option_ltp (bot_state w') = e
        /\ trailing_sl (self w') = None /\ highest_profit (self w') = 0
        /\ daily_trades (bot_state w') = (daily_trades (bot_state w) + 1)%Z
        /\ daily_pnl (bot_state w') = daily_pnl (bot_state w))
  /\ (mode (bot_state w) = Paper -> store w' <> store w)
  /\ (mode (bot_state w) = Live ->
      dhan (self w) = false
      \/ atm_security_id env = None
      \/ atm_security_id env = Some SecNone
      \/ order_accepted (buy_order env) = false ->
      w' = w)
  /\ (mode (bot_state w) = Live ->
      forall sid, dhan (self w) = true -> atm_security_id env = Some sid ->
        sid <> SecNone -> order_accepted (buy_order env) = true ->
        exists p, current_position (self w') = Some p /\ pos_security_id p = sid).
Proof.
  intros w'. split; [| split; [| split]].
  - destruct (enter_position_cases cfg env ot k index_price w) as [E | [p [e [E H]]]].
    + left. exact E.
    + right. exists p, e. subst w'. rewrite E. cbn. tauto.
  - intros Hm. subst w'. unfold enter_position. rewrite Hm. cbn. apply cons_neq.
  - intros Hm Hno. subst w'. unfold enter_position. rewrite Hm.
    destruct (dhan (self w)); cbn [negb]; [| reflexivity].
    destruct Hno as [H | [H | [H | H]]]; try discriminate; rewrite H; try reflexivity.
    destruct (atm_security_id env) as [[| | n] |]; reflexivity.
  - intros Hm sid Hd Hs Hne Ha. subst w'. unfold enter_position.
    rewrite Hm, Hd, Hs, Ha. cbn [negb].
    destruct sid; [contradiction | |]; eexists; split; reflexivity.
Qed.

Lemma paper_price_near_strike (index_price : Q) (k : Z) (ot : OptionType) :
  Qabs (index_price - inject_Z k) <= 50 -> 135 <= paper_price index_price k ot.
Proof.
  intros Hd. unfold paper_price.
  set (d := Qabs (index_price - inject_Z k)) in *.
  assert (Hi : 0 <= match ot with
                    | CE => Py.max2 0 (index_price - inject_Z k)
                    | PE => Py.max2 0 (inject_Z k - index_price)
                    end).
  { destruct ot; apply max2_ge_left. }
  pose proof (max2_ge_right 0 (1 - d / 500)) as Ht.
  assert (Hdiv : d / 500 <= 1 # 10).
  { apply Qle_shift_div_r; lra. }
  lra.
Qed.

Lemma to_tick_lower (x b : Q) : b <= x -> b - (1 # 40) <= to_tick x.
Proof.
  intros H. pose proof (to_tick_close x) as Hc.
  apply Qabs_Qle_condition in Hc. lra.
Qed.

(** X10. In paper mode a signal on a flat bot, before the entry cut-off and
    below the trade cap, always opens a position: a call for GREEN and a put
    for RED, at the strike [round_to_strike] gives for the index price, with a
    security id that is not empty, one trade row saved, and an entry price
    that is positive; without a broker the entry price is the simulated one,
    which is at least 134. *)
Theorem X10_paper_entry_at_the_money (cfg : Config) (env : Env) (sig : Signal)
    (index_price : Q) (w : World)
    (Hpaper : mode (bot_state w) = Paper)
    (Hflat : current_position (self w) = None)
    (Hcan : can_take_new_trade env = true)
    (Hcap : (daily_trades (bot_state w) < max_trades_per_day cfg)%Z) :
  let w' := fst (process_signal_on_close cfg env sig index_price w) in
  exists p,
    current_position (self w') = Some p
    /\ option_type p = match sig with GREEN => CE | RED => PE end
    /\ strike p = Indices.round_to_strike index_price (selected_index cfg)
    /\ pos_security_id p <> SecNone
    /\ store w' = Entered p (entry_price (self w')) (qty cfg) :: store w
    /\ 0 < entry_price (self w')
    /\ (dhan (self w) = false -> 134 <= entry_price (self w')).
Proof.
  intros w'. subst w'. unfold process_signal_on_close.
  rewrite Hflat, Hcan. cbn [negb].
  destruct (Z.leb_spec (max_trades_per_day cfg) (daily_trades (bot_state w))) as [H | _];
    [lia |].
  cbn [fst].
  set (k := Indices.round_to_strike index_price (selected_index cfg)).
  pose proof (round_to_strike_within_50 index_price (selected_index cfg)) as Hk.
  fold k in Hk.
  set (ot := match sig with RED => PE | GREEN => CE end).
  pose proof (to_tick_lower (paper_price_near_strike ot Hk)) as Hpp.
  unfold enter_position. rewrite Hpaper.
  eexists. cbn [self current_position record set_position store entry_price
                option_type strike pos_security_id].
  split; [reflexivity |].
  split; [subst ot; destruct sig; reflexivity |].
  split; [reflexivity |].
  split; [repeat break_match; cbn; congruence |].
  split; [reflexivity |].
  split.
  - match goal with |- context [Qlt_le_dec 0 ?e] => destruct (Qlt_le_dec 0 e) end;
      [assumption | lra].
  - intros Hd. rewrite Hd.
    destruct (Qlt_le_dec 0 0) as [Habs | _]; [lra | lra].
Qed.

Lemma X10_paper_entry_at_the_money_witness :
  let w := initial fast_config Paper 0 in
  let w' := fst (process_signal_on_close fast_config (quiet_env 5 24337 0) GREEN
                   24337 w) in
  exists p,
    current_position (self w') = Some p
    /\ option_type p = CE
    /\ strike p = Indices.round_to_strike 24337 (selected_index fast_config)
    /\ pos_security_id p <> SecNone
    /\ store w' = Entered p (entry_price (self w')) (qty fast_config) :: store w
    /\ 0 < entry_price (self w')
    /\ (dhan (self w) = false -> 134 <= entry_price (self w')).
Proof.
  intros w.
  apply (@X10_paper_entry_at_the_money fast_config (quiet_env 5 24337 0) GREEN 24337 w);
    [reflexivity | reflexivity | reflexivity | vm_compute; reflexivity].
Defined.

(** X11. [squareoff] books an exit at most once.  On a flat bot, and in
    live mode without a broker or with a sell order that is not accepted,
    nothing changes; otherwise one exit is saved for the open trade at the
    last option price with profit (price - entry price) * quantity, the
    position is cleared in both copies and the trade count is kept.  A second
    call with the same answers changes nothing more. *)
Theorem X11_squareoff_books_once (cfg : Config) (env : Env) (w : World) :
  let w' := squareoff cfg env w in
  squareoff cfg env w' = w'
  /\ (current_position (self w) = None -> w' = w)
  /\ (mode (bot_state w) = Live ->
      dhan (self w) = false \/ order_accepted (sell_order env) = false -> w' = w)
  /\ (forall p,
        current_position (self w) = Some p ->
        mode (bot_state w) = Paper
        \/ dhan (self w) = true /\ order_accepted (sell_order env) = true ->
        store w' = Exited (trade_id p) (current_option_ltp (bot_state w))
                     ((current_option_ltp (bot_state w) - entry_price (self w))
                      * inject_Z (qty cfg)) ForceSquareOff :: store w
        /\ current_position (self w') = None
        /\ bs_current_position (bot_state w') = None
        /\ daily_trades (bot_state w') = daily_trades (bot_state w)).
Proof.
  intros w'. subst w'. split; [| split; [| split]].
  - assert (Hcases : squareoff cfg env w = w
                     \/ current_position (self (squareoff cfg env w)) = None).
    { unfold squareoff.
      destruct (current_position (self w)) as [p |] eqn:Ep; [| left; reflexivity].
      destruct (mode (bot_state w));
        [right | destruct (dhan (self w) && order_accepted (sell_order env));
                 [right | left; reflexivity]];
        unfold close_position; rewrite Ep; reflexivity. }
    destruct Hcases as [E | E].
    + rewrite E. exact E.
    + unfold squareoff at 1. rewrite E. reflexivity.
  - intros Hf. unfold squareoff. rewrite Hf. reflexivity.
  - intros Hm Hno. unfold squareoff. rewrite Hm.
    destruct (current_position (self w)); [| reflexivity].
    destruct Hno as [H | H]; rewrite H; [reflexivity | rewrite andb_false_r; reflexivity].
  - intros p Hp Hfill. unfold squareoff. rewrite Hp.
    assert (E : match mode (bot_state w) with
                | Paper => true
                | Live => dhan (self w) && order_accepted (sell_order env)
                end = true).
    { destruct Hfill as [Hm | [Hd Ha]]; [rewrite Hm; reflexivity |].
      rewrite Hd, Ha. destruct (mode (bot_state w)); reflexivity. }
    destruct (mode (bot_state w)); [| rewrite E];
      unfold close_position; rewrite Hp; cbn; auto.
Qed.

(** X12. When square-off is due and a position is open, an iteration of
    the loop first books its exit as a forced square-off at the last option
    price (in paper mode, or when the broker accepts the sell order),
    whatever the market status, the daily-loss flag and the signal are, and
    whatever follows in the iteration comes after it in the trade store.
    When entries are cut off as well, nothing follows: the iteration ends
    flat with no stop, with exactly that exit added to the store and its
    profit added to the daily PnL. *)
Theorem X12_forced_squareoff_comes_first (cfg : Config) (env : Env) (w : World)
    (p : Position)
    (Hdue : should_force_squareoff env = true)
    (Hopen : current_position (self w) = Some p)
    (Hfill : mode (bot_state w) = Paper
             \/ dhan (self w) = true /\ order_accepted (sell_order env) = true) :
  let ltp := current_option_ltp (bot_state w) in
  let pnl := (ltp - entry_price (self w)) * inject_Z (qty cfg) in
  let w' := run_loop_iteration cfg env w in
  (exists newer,
     store w' = newer ++ Exited (trade_id p) ltp pnl ForceSquareOff :: store w)
  /\ (can_take_new_trade env = false ->
      store w' = Exited (trade_id p) ltp pnl ForceSquareOff :: store w
      /\ current_position (self w') = None
      /\ trailing_sl (self w') = None
      /\ daily_pnl (bot_state w')
         == (if at_daily_reset env then 0 else daily_pnl (bot_state w)) + pnl).
Proof.
  intros ltp pnl w'.
  set (w0 := daily_reset env w).
  assert (H0 : current_position (self w0) = Some p
               /\ mode (bot_state w0) = mode (bot_state w)
               /\ dhan (self w0) = dhan (self w)
               /\ current_option_ltp (bot_state w0) = ltp
               /\ entry_price (self w0) = entry_price (self w)
               /\ store w0 = store w
               /\ daily_pnl (bot_state w0)
                  = (if at_daily_reset env then 0 else daily_pnl (bot_state w))).
  { subst w0 ltp. unfold daily_reset. destruct (at_daily_reset env); cbn; auto 10. }
  destruct H0 as (P0 & M0 & D0 & L0 & E0 & S0 & N0).
  set (w1 := force_squareoff cfg env w0).
  assert (H1 : w1 = close_position cfg ltp pnl ForceSquareOff w0).
  { subst w1. unfold force_squareoff, squareoff. rewrite Hdue, P0, L0, E0, M0, D0.
    fold pnl.
    destruct Hfill as [Hm | [Hd Ha]]; [rewrite Hm; reflexivity |].
    rewrite Hd, Ha. destruct (mode (bot_state w)); reflexivity. }
  assert (H1s : store w1 = Exited (trade_id p) ltp pnl ForceSquareOff :: store w
                /\ current_position (self w1) = None
                /\ trailing_sl (self w1) = None
                /\ daily_pnl (bot_state w1)
                   = (if at_daily_reset env then 0 else daily_pnl (bot_state w)) + pnl).
  { rewrite H1. unfold close_position. rewrite P0. cbn. rewrite S0, N0. auto. }
  destruct H1s as (S1 & P1 & T1 & N1).
  pose proof (after_squareoff_writes cfg env w) as Hw. fold w0 w1 w' in Hw.
  split.
  - destruct (writes_store Hw) as [newer Hn]. exists newer. rewrite Hn, S1. reflexivity.
  - intros Hcan.
    pose proof (writes_flat_after_cutoff Hw Hcan P1) as Hc. core_same Hc.
    rewrite Cst, Cpos, Csl, Cpnl, S1, P1, T1, N1. repeat split; reflexivity.
Qed.

Lemma X12_forced_squareoff_comes_first_witness :
  let w := with_bot_state (set_current_option_ltp 60)
             (holding default_config CE SecSim 50) in
  let env := squareoff_env 24337 in
  let p := sample_position CE SecSim in
  let pnl := (60 - 50) * inject_Z (qty default_config) in
  let w' := run_loop_iteration default_config env w in
  (exists newer,
     store w' = newer ++ Exited (trade_id p) 60 pnl ForceSquareOff :: store w)
  /\ (can_take_new_trade env = false ->
      store w' = Exited (trade_id p) 60 pnl ForceSquareOff :: store w
      /\ current_position (self w') = None
      /\ trailing_sl (self w') = None
      /\ daily_pnl (bot_state w')
         == (if at_daily_reset env then 0 else daily_pnl (bot_state w)) + pnl).
Proof.
  intros w env p pnl w'.
  exact (@X12_forced_squareoff_comes_first default_config env w p
           eq_refl eq_refl (or_introl eq_refl)).
Defined.

(** ** The stop and the best price seen *)

(** X13. From a freshly entered position with a positive entry price, a
    positive step and a positive activation threshold, after any sequence
    of prices and one more update at [ltp]: a set stop is at or above the
    entry price, at least [trail_start_profit] below the best price seen
    (entry price + highest profit) and less than one [trail_step] further
    below it; [ltp] is never above the best price seen; and a price that is
    a new high never exits on the stop. *)
Theorem X13_stop_trails_the_peak (cfg : Config) (w0 : World) (prices : list Q) (ltp : Q)
    (Hstep : 0 < trail_step cfg)
    (Hstart : 0 < trail_start_profit cfg)
    (Hentry : 0 < entry_price (self w0))
    (Hopen : current_position (self w0) <> None)
    (Hunset : trailing_sl (self w0) = None) :
  let entry := entry_price (self w0) in
  let w := after_prices cfg prices w0 in
  let updated := fst (check_trailing_sl cfg ltp w) in
  let peak := entry + highest_profit (self updated) in
  (forall sl, trailing_sl (self updated) = Some sl ->
     entry <= sl
     /\ sl <= peak - trail_start_profit cfg
     /\ peak - trail_start_profit cfg - trail_step cfg < sl)
  /\ ltp <= peak
  /\ (highest_profit (self w) <= ltp - entry ->
      snd (check_trailing_sl_on_close cfg ltp w) = Py.Ok false).
Proof.
  intros entry w updated peak.
  assert (Hinv0 : stop_formula cfg w0).
  { unfold stop_formula. rewrite Hunset. exact I. }
  destruct (@after_prices_formula cfg Hstep prices w0 Hopen Hinv0) as [Hinv [He Hp]].
  fold w in Hinv, He, Hp.
  assert (Hopen' : current_position (self w) <> None) by (rewrite Hp; exact Hopen).
  destruct (@check_trailing_sl_formula cfg Hstep ltp w Hopen' Hinv)
    as [_ [Hinv1 [He1 _]]].
  fold updated in Hinv1, He1.
  pose proof (@check_trailing_sl_highest cfg ltp w Hopen') as Hhp.
  fold updated in Hhp. rewrite He in Hhp. fold entry in Hhp.
  assert (Hwin : forall sl, trailing_sl (self updated) = Some sl ->
            entry <= sl
            /\ sl <= peak - trail_start_profit cfg
            /\ peak - trail_start_profit cfg - trail_step cfg < sl).
  { intros sl Hsl.
    destruct (@stop_formula_window cfg updated sl Hstep Hinv1 Hsl) as (A & B & C).
    rewrite He1, He in A, B, C. fold entry in A, B, C. subst peak.
    repeat split; lra. }
  split; [exact Hwin |]. split.
  - subst peak. rewrite Hhp.
    destruct (Qlt_le_dec (highest_profit (self w)) (ltp - entry)); lra.
  - intros Hnew.
    destruct (@check_trailing_sl_on_close_breach cfg Hstep ltp w Hopen' Hinv)
      as [Hb1 [_ Hb3]]; [rewrite He; exact Hentry |].
    fold updated in Hb1, Hb3.
    destruct Hb3 as [Ht | [Hf _]]; [| exact Hf].
    apply Hb1 in Ht. destruct Ht as [sl [Hsl Hle]].
    destruct (Hwin sl Hsl) as (_ & B & _). subst peak. rewrite Hhp in B.
    destruct (Qlt_le_dec (highest_profit (self w)) (ltp - entry)); lra.
Qed.

Lemma X13_stop_trails_the_peak_witness :
  let w0 := holding default_config CE SecSim 50 in
  let w := after_prices default_config [60; 67] w0 in
  let updated := fst (check_trailing_sl default_config 70 w) in
  let peak := 50 + highest_profit (self updated) in
  (forall sl, trailing_sl (self updated) = Some sl ->
     50 <= sl
     /\ sl <= peak - trail_start_profit default_config
     /\ peak - trail_start_profit default_config - trail_step default_config < sl)
  /\ 70 <= peak
  /\ (highest_profit (self w) <= 70 - 50 ->
      snd (check_trailing_sl_on_close default_config 70 w) = Py.Ok false).
Proof.
  intros w0 w updated peak.
  apply (@X13_stop_trails_the_peak default_config w0 [60; 67] 70).
  - reflexivity.
  - reflexivity.
  - reflexivity.
  - discriminate.
  - reflexivity.
Defined.

(** ** What the loop keeps true *)



(** X15. In every state the bot reaches, [bot_state] repeats the position,
    the entry price and the trailing stop of the bot, and a flat bot has no
    stop, entry price 0 and highest profit 0: what the status routes read is
    what the engine decides on. *)
Theorem X15_bot_state_mirrors_position (cfg : Config) (m : Mode) (t0 : Q) (w : World)
    (Hreach : reachable cfg m t0 w) :
  mirrored w.
Proof.
  revert w Hreach. apply reachable_invariant.
  - unfold mirrored. cbn.
    split; [reflexivity | split; [reflexivity | split; [reflexivity |]]].
    intros _. repeat split; reflexivity.
  - intros env w H. unfold daily_reset. destruct (at_daily_reset env); [| exact H].
    unfold mirrored in *. cbn. exact H.
  - intros env w w' Hp H. exact (mirrored_step Hp H).
Qed.

Lemma X15_bot_state_mirrors_position_witness :
  let w := run_loop_iteration fast_config (quiet_env 5 24337 0)
             (initial fast_config Paper 0) in
  current_position (self w) <> None /\ mirrored w.
Proof.
  intros w. split; [vm_compute; discriminate |].
  exact (@X15_bot_state_mirrors_position fast_config Paper 0 w
           (reach_iteration (quiet_env 5 24337 0) (reach_initial fast_config Paper 0))).
Defined.

(** X16. Between two daily resets the counters of [bot_state] account for
    the trade store: from any state [w0], after any iterations and square-off
    requests, the store is the one of [w0] with new rows in front,
    [daily_trades] has grown by the number of saved entries and [daily_pnl]
    by the sum of the profit of the saved exits. *)
Theorem X16_counters_match_the_store (cfg : Config) (w0 w : World)
    (Hday : reachable_within_day cfg w0 w) :
  exists newer,
    store w = newer ++ store w0
    /\ daily_trades (bot_state w)
       = (daily_trades (bot_state w0) + Z.of_nat (entries newer))%Z
    /\ daily_pnl (bot_state w) == daily_pnl (bot_state w0) + realized newer.
Proof.
  revert w Hday.
  apply (@within_day_invariant cfg (fun w => exists newer, books w0 w newer)).
  - exists []. unfold books. cbn. repeat split; try lia; ring.
  - intros env w1 w2. apply books_step.
Qed.

Lemma X16_counters_match_the_store_witness :
  let w0 := with_bot_state (set_current_option_ltp 40)
              (holding default_config CE SecSim 50) in
  let w := squareoff default_config (quiet_env 0 0 0) w0 in
  daily_pnl (bot_state w) == - (500)
  /\ exists newer,
       store w = newer ++ store w0
       /\ daily_trades (bot_state w)
          = (daily_trades (bot_state w0) + Z.of_nat (entries newer))%Z
       /\ daily_pnl (bot_state w) == daily_pnl (bot_state w0) + realized newer.
Proof.
  intros w0 w. split; [vm_compute; reflexivity |].
  exact (@X16_counters_match_the_store default_config w0 w
           (day_squareoff (quiet_env 0 0 0) (day_start default_config w0))).
Defined.

(** X17. Between two daily resets [max_drawdown] is the largest loss of a
    single trade: from a state [w0] whose drawdown is not negative, it is the
    larger of the drawdown of [w0] and the largest loss among the exits
    saved since, and it is never negative. *)
Theorem X17_max_drawdown_is_largest_loss (cfg : Config) (w0 w : World)
    (Hstart : 0 <= max_drawdown (bot_state w0))
    (Hday : reachable_within_day cfg w0 w) :
  0 <= max_drawdown (bot_state w)
  /\ exists newer,
       store w = newer ++ store w0
       /\ max_drawdown (bot_state w)
          == Py.max2 (max_drawdown (bot_state w0)) (largest_loss newer).
Proof.
  assert (H : exists newer, drawdown_books w0 w newer).
  { revert w Hday.
    apply (@within_day_invariant cfg (fun w => exists newer, drawdown_books w0 w newer)).
    - exists []. unfold drawdown_books, Py.max2. cbn. split; [reflexivity |].
      destruct (Qlt_le_dec (max_drawdown (bot_state w0)) 0); [lra | reflexivity].
    - intros env w1 w2. apply drawdown_step. }
  destruct H as [newer [Hs Hd]]. split; [| exists newer; split; assumption].
  rewrite Hd. pose proof (max2_ge_left (max_drawdown (bot_state w0)) (largest_loss newer)).
  lra.
Qed.

Lemma X17_max_drawdown_is_largest_loss_witness :
  let w0 := with_bot_state (set_current_option_ltp 40)
              (holding default_config CE SecSim 50) in
  let w := squareoff default_config (quiet_env 0 0 0) w0 in
  max_drawdown (bot_state w) == 500
  /\ 0 <= max_drawdown (bot_state w)
  /\ exists newer,
       store w = newer ++ store w0
       /\ max_drawdown (bot_state w)
          == Py.max2 (max_drawdown (bot_state w0)) (largest_loss newer).
Proof.
  intros w0 w. split; [vm_compute; reflexivity |].
  apply (@X17_max_drawdown_is_largest_loss default_config w0 w).
  - vm_compute. discriminate.
  - exact (day_squareoff (quiet_env 0 0 0) (day_start default_config w0)).
Defined.

(** X18. In every state the bot reaches, the candle being built is empty
    or has 0 < low <= close <= high, every candle held by the indicator has
    0 < low <= close <= high, the indicator has the configured period, and
    for a period of at least 1 no stored ATR is negative: the loop never
    hands the indicator a candle without a price or with its prices out of
    order. *)
Theorem X18_candles_fed_are_well_formed (cfg : Config) (m : Mode) (t0 : Q) (w : World)
    (Hreach : reachable cfg m t0 w) :
  candle_in_progress (loop w)
  /\ Forall well_formed (candles (supertrend (self w)))
  /\ period (supertrend (self w)) = supertrend_period cfg
  /\ ((1 <= supertrend_period cfg)%Z ->
      Forall (fun a => 0 <= a) (atr_values (supertrend (self w)))).
Proof.
  change (fed_well cfg w).
  induction Hreach as [| env w _ IH | env w _ IH].
  - unfold fed_well, candle_in_progress. cbn. repeat split; auto.
  - apply run_loop_iteration_fed_well, IH.
  - exact (same_feed_fed_well (squareoff_same_feed cfg env w) IH).
Qed.

Lemma X18_candles_fed_are_well_formed_witness :
  let w := run_loop_iteration fast_config (quiet_env 5 24337 0)
             (initial fast_config Paper 0) in
  candles (supertrend (self w)) <> []
  /\ candle_in_progress (loop w)
  /\ Forall well_formed (candles (supertrend (self w)))
  /\ period (supertrend (self w)) = supertrend_period fast_config
  /\ ((1 <= supertrend_period fast_config)%Z ->
      Forall (fun a => 0 <= a) (atr_values (supertrend (self w)))).
Proof.
  intros w. split; [vm_compute; discriminate |].
  exact (@X18_candles_fed_are_well_formed fast_config Paper 0 w
           (reach_iteration (quiet_env 5 24337 0) (reach_initial fast_config Paper 0))).
Defined.

(** ** The helpers of server.py *)

Lemma clock_lt_iff (a b : Server.Datetime) :
  Server.lt a b = true
  <-> (Server.hour a < Server.hour b
       \/ Server.hour a = Server.hour b
          /\ (Server.minute a < Server.minute b
              \/ Server.minute a = Server.minute b
                 /\ (Server.second a < Server.second b
                     \/ Server.second a = Server.second b
                        /\ Server.microsecond a < Server.microsecond b)))%Z.
Proof.
  unfold Server.lt.
  rewrite !Bool.orb_true_iff, !Bool.andb_true_iff, !Bool.orb_true_iff, !Bool.andb_true_iff,
    !Bool.orb_true_iff, !Bool.andb_true_iff, !Z.ltb_lt, !Z.eqb_eq.
  reflexivity.
Qed.

Lemma clock_le_iff (a b : Server.Datetime) :
  Server.le a b = true
  <-> (Server.hour a < Server.hour b
       \/ Server.hour a = Server.hour b
          /\ (Server.minute a < Server.minute b
              \/ Server.minute a = Server.minute b
                 /\ (Server.second a < Server.second b
                     \/ Server.second a = Server.second b
                        /\ Server.microsecond a <= Server.microsecond b)))%Z.
Proof.
  unfold Server.le.
  rewrite !Bool.orb_true_iff, !Bool.andb_true_iff, !Bool.orb_true_iff, !Bool.andb_true_iff,
    !Bool.orb_true_iff, !Bool.andb_true_iff, !Z.ltb_lt, !Z.eqb_eq, Z.leb_le.
  reflexivity.
Qed.

Lemma is_market_open_iff (ist : Server.Datetime) :
  Server.is_market_open ist = true
  <-> Server.le (Server.replace ist 9 15) ist = true
      /\ Server.le ist (Server.replace ist 15 30) = true
      /\ (Server.weekday ist < 5)%Z.
Proof.
  unfold Server.is_market_open. cbv zeta.
  rewrite !Bool.andb_true_iff, Z.ltb_lt. tauto.
Qed.

(** X19. The trading windows of the helpers are nested.  At any reading
    of the clock: when square-off is due no new trade may be taken; an open
    market means a weekday and an hour from 9 to 15; once square-off is due
    it stays due, and once entries are cut off they stay cut off, for the
    rest of the day; and during the minute 9:15 of a weekday, when the loop
    resets the daily counters, the market is open, entries are allowed and
    square-off is not due. *)
Theorem X19_trading_windows_nested (ist : Server.Datetime) :
  (Server.should_force_squareoff ist = true -> Server.can_take_new_trade ist = false)
  /\ (Server.is_market_open ist = true -> (Server.weekday ist < 5)%Z)
  /\ (Server.is_market_open ist = true ->
      (9 <= Server.hour ist <= 15)%Z)
  /\ (forall later,
        Server.le ist later = true ->
        (Server.should_force_squareoff ist = true ->
         Server.should_force_squareoff later = true)
        /\ (Server.can_take_new_trade later = true ->
            Server.can_take_new_trade ist = true))
  /\ ((Server.weekday ist < 5)%Z -> Server.hour ist = 9%Z -> Server.minute ist = 15%Z ->
      (0 <= Server.second ist)%Z -> (0 <= Server.microsecond ist)%Z ->
      Server.is_market_open ist = true /\ Server.can_take_new_trade ist = true
      /\ Server.should_force_squareoff ist = false).
Proof.
  unfold Server.should_force_squareoff, Server.can_take_new_trade. cbv zeta.
  split; [| split; [| split; [| split]]].
  - intros H. apply Bool.not_true_iff_false. intros C.
    apply clock_le_iff in H. apply clock_lt_iff in C. cbn in H, C. lia.
  - intros H. apply is_market_open_iff in H. tauto.
  - intros H. apply is_market_open_iff in H. destruct H as (A & B & _).
    apply clock_le_iff in A, B. cbn in A, B. lia.
  - intros later Hle. apply clock_le_iff in Hle. split; intros H.
    + apply clock_le_iff in H. apply clock_le_iff. cbn in *. lia.
    + apply clock_lt_iff in H. apply clock_lt_iff. cbn in *. lia.
  - intros Hw Hh Hm Hs Hu. split; [| split].
    + apply is_market_open_iff. split; [| split; [| exact Hw]].
      * apply clock_le_iff. cbn. lia.
      * apply clock_le_iff. cbn. lia.
    + apply clock_lt_iff. cbn. lia.
    + apply Bool.not_true_iff_false. intros C. apply clock_le_iff in C. cbn in C. lia.
Qed.
Lemma count_remove_same (x : Z) (xs : list Z) :
  In x xs -> S (count_occ Z.eq_dec (Server.remove x xs) x) = count_occ Z.eq_dec xs x.
Proof.
  induction xs as [| y ys IH]; intros Hin; [destruct Hin |].
  cbn [Server.remove]. destruct (Z.eqb_spec y x) as [E | N].
  - subst. rewrite count_occ_cons_eq; reflexivity.
  - destruct Hin as [E | Hin]; [contradiction |].
    rewrite !count_occ_cons_neq by exact N. apply IH, Hin.
Qed.

Lemma count_remove_other (x y : Z) (xs : list Z) :
  y <> x -> count_occ Z.eq_dec (Server.remove x xs) y = count_occ Z.eq_dec xs y.
Proof.
  intros Hne. induction xs as [| z zs IH]; [reflexivity |].
  cbn [Server.remove]. destruct (Z.eqb_spec z x) as [E | N].
  - subst. rewrite count_occ_cons_neq; [reflexivity | congruence].
  - destruct (Z.eq_dec z y) as [E | N2].
    + subst z. rewrite !count_occ_cons_eq by reflexivity. f_equal. exact IH.
    + rewrite !count_occ_cons_neq by exact N2. exact IH.
Qed.

Lemma existsb_In (x : Z) (xs : list Z) :
  existsb (fun c => (c =? x)%Z) xs = true <-> In x xs.
Proof.
  rewrite existsb_exists. split.
  - intros [y [Hin E]]. apply Z.eqb_eq in E. subst. exact Hin.
  - intros Hin. exists x. split; [exact Hin | apply Z.eqb_refl].
Qed.

Lemma remove_app_absent (x : Z) (xs : list Z) :
  ~ In x xs -> Server.remove x (xs ++ [x]) = xs.
Proof.
  induction xs as [| y ys IH]; intros Hn.
  - cbn. rewrite Z.eqb_refl. reflexivity.
  - cbn [app Server.remove]. destruct (Z.eqb_spec y x) as [E | N].
    + exfalso. apply Hn. left. exact E.
    + rewrite IH; [reflexivity |]. intros Hin. apply Hn. right. exact Hin.
Qed.

(** X20. [disconnect] removes exactly one registration.  For a connection
    that is registered, its number of entries and the length of the list
    drop by one; for one that is not, the list is unchanged (no error); the
    entries of every other connection are untouched.  Connecting and then
    disconnecting a new connection gives the list back; for a connection
    registered before, it is the earlier entry that goes and the new one
    stays last. *)
Theorem X20_disconnect_removes_one_registration (ws : Server.WebSocket)
    (conns : list Server.WebSocket) :
  let after := Server.disconnect ws conns in
  (In ws conns ->
     S (count_occ Z.eq_dec after ws) = count_occ Z.eq_dec conns ws
     /\ S (List.length after) = List.length conns)
  /\ (~ In ws conns -> after = conns)
  /\ (forall other, other <> ws ->
        count_occ Z.eq_dec after other = count_occ Z.eq_dec conns other)
  /\ (~ In ws conns -> Server.disconnect ws (Server.connect ws conns) = conns)
  /\ (In ws conns ->
        Server.disconnect ws (Server.connect ws conns) = Server.connect ws after).
Proof.
  intros after. subst after. unfold Server.disconnect, Server.connect.
  split; [| split; [| split; [| split]]].
  - intros Hin. rewrite (proj2 (existsb_In ws conns) Hin).
    split; [apply count_remove_same, Hin |].
    clear - Hin. induction conns as [| y ys IH]; [destruct Hin |].
    cbn [Server.remove]. destruct (Z.eqb_spec y ws) as [E | N]; [reflexivity |].
    destruct Hin as [E | Hin]; [contradiction |].
    cbn [List.length]. rewrite (IH Hin). reflexivity.
  - intros Hn. destruct (existsb (fun c => (c =? ws)%Z) conns) eqn:E; [| reflexivity].
    apply existsb_In in E. contradiction.
  - intros other Hne.
    destruct (existsb (fun c => (c =? ws)%Z) conns); [| reflexivity].
    apply count_remove_other, Hne.
  - intros Hn.
    rewrite (proj2 (existsb_In ws (conns ++ [ws]))) by (apply in_or_app; right; left; reflexivity).
    apply remove_app_absent, Hn.
  - intros Hin.
    rewrite (proj2 (existsb_In ws (conns ++ [ws]))) by (apply in_or_app; right; left; reflexivity).
    rewrite (proj2 (existsb_In ws conns) Hin).
    clear - Hin. induction conns as [| y ys IH]; [destruct Hin |].
    cbn [app Server.remove]. destruct (Z.eqb_spec y ws) as [E | N]; [reflexivity |].
    destruct Hin as [E | Hin]; [contradiction |].
    cbn [app]. rewrite (IH Hin). reflexivity.
Qed.
